(** * DCS persistence and weather rotation: mission archive mutation engine

    Shallow embedding of [app/mission_time_updater.py], [app/weather_rotator.py],
    [app/time_reader.py] and [app/main.py], with the properties of the design
    document stated and proved over it.

    Python [str] values are modelled as [list ascii]: a character is a code
    point below 256, which covers the ASCII Lua text of a mission descriptor.
    Integers are [Z] (Python integers are unbounded).  Effects (process
    table, archive tool, file system, notifier) are modelled by a trace of
    events over an environment that fixes what the outside world answers;
    a function that an exception can leave returns an outcome that says
    so. *)

From Stdlib Require Import ZArith List Ascii String Lia Bool.
From Stdlib Require Import Numbers.DecimalString DecimalPos.
From stdpp Require Import base option list gmap strings.

Open Scope Z_scope.

(** ** Python strings *)

Module PyStr.

Abbreviation str := (list ascii).

(** A literal: ["..."] of the source as a list of characters. *)
Definition lit (s : string) : str := list_ascii_of_string s.

Definition code (c : ascii) : N := N_of_ascii c.

Definition LF : ascii := ascii_of_N 10.
Definition CR : ascii := ascii_of_N 13.
Definition TAB : ascii := ascii_of_N 9.
Definition FF : ascii := ascii_of_N 12.
Definition DQ : ascii := ascii_of_N 34.
Definition BACKSLASH : ascii := ascii_of_N 92.

(** A double-quoted name, as it stands in the descriptor: ["name"] with
    its quotes. *)
Definition quoted (name : string) : str := DQ :: lit name ++ [DQ].

(** [str.isspace] per character, also the class [\s] of [re] on [str]
    patterns: U+0009..U+000D, U+001C..U+001F, U+0020, U+0085, U+00A0. *)
Definition isspace (c : ascii) : bool :=
  let n := code c in
  ((9 <=? n) && (n <=? 13) || (28 <=? n) && (n <=? 31) || (n =? 32)
   || (n =? 133) || (n =? 160))%N.

(** Line boundaries of [str.splitlines]: \n \r \v \f \x1c \x1d \x1e \x85
    (and \r\n taken as one boundary). *)
Definition is_linebreak (c : ascii) : bool :=
  let n := code c in
  ((10 <=? n) && (n <=? 13) || (28 <=? n) && (n <=? 30) || (n =? 133))%N.

Definition is_digit (c : ascii) : bool :=
  let n := code c in ((48 <=? n) && (n <=? 57))%N.

Definition digit_val (c : ascii) : Z := Z.of_N (code c) - 48.

(** [text.splitlines()]: the lines without their terminators; a final
    terminator does not open another line. *)
Fixpoint splitlines (s : str) : list str :=
  match s with
  | [] => []
  | c :: s' =>
      if is_linebreak c then
        if Ascii.eqb c CR then
          match s' with
          | d :: s'' => if Ascii.eqb d LF then [] :: splitlines s''
                        else [] :: splitlines s'
          | [] => [] :: splitlines s'
          end
        else [] :: splitlines s'
      else
        match splitlines s' with
        | [] => [[c]]
        | l :: ls => (c :: l) :: ls
        end
  end.

(** [sep.join(parts)]. *)
Fixpoint join (sep : str) (parts : list str) : str :=
  match parts with
  | [] => []
  | [p] => p
  | p :: ps => p ++ sep ++ join sep ps
  end.

(** [s.startswith(p)]. *)
Fixpoint starts_with (p s : str) : bool :=
  match p, s with
  | [], _ => true
  | _ :: _, [] => false
  | a :: p', b :: s' => Ascii.eqb a b && starts_with p' s'
  end.

(** [needle in hay]. *)
Fixpoint contains (needle hay : str) : bool :=
  starts_with needle hay ||
  match hay with
  | [] => false
  | _ :: hay' => contains needle hay'
  end.

Fixpoint lstrip (s : str) : str :=
  match s with
  | c :: s' => if isspace c then lstrip s' else s
  | [] => []
  end.

Definition rstrip (s : str) : str := rev (lstrip (rev s)).

(** [s.strip()]. *)
Definition strip (s : str) : str := rstrip (lstrip s).

(** [s.split(sep)] for a separator of one character: never empty. *)
Fixpoint split (sep : ascii) (s : str) : list str :=
  match s with
  | [] => [[]]
  | c :: s' =>
      if Ascii.eqb c sep then [] :: split sep s'
      else match split sep s' with
           | [] => [[c]]
           | p :: ps => (c :: p) :: ps
           end
  end.

(** Digits with single underscores between them, as [int] reads them;
    [acc] is the value so far, [prev_digit] tells whether the character
    before was a digit. *)
Fixpoint int_digits (acc : Z) (prev_digit : bool) (s : str) : option Z :=
  match s with
  | [] => if prev_digit then Some acc else None
  | c :: s' =>
      if is_digit c then int_digits (10 * acc + digit_val c) true s'
      else if Ascii.eqb c "_"%char && prev_digit then
        match s' with
        | d :: _ => if is_digit d then int_digits acc false s' else None
        | [] => None
        end
      else None
  end.

(** Whitespace that [int] skips at both ends: the C [isspace] set, and
    the non-ASCII spaces it first turns into blanks. *)
Definition int_isspace (c : ascii) : bool :=
  let n := code c in
  ((9 <=? n) && (n <=? 13) || (n =? 32) || (n =? 133) || (n =? 160))%N.

Fixpoint int_lskip (s : str) : str :=
  match s with
  | c :: s' => if int_isspace c then int_lskip s' else s
  | [] => []
  end.

(** [int(s)] in base 10; [None] stands for [ValueError].  (CPython from
    3.11 also refuses numerals of more than 4300 digits; no statement
    below depends on how such a numeral is read.) *)
Definition py_int (s : str) : option Z :=
  let t := rev (int_lskip (rev (int_lskip s))) in
  match t with
  | c :: t' =>
      if Ascii.eqb c "-"%char then Z.opp <$> int_digits 0 false t'
      else if Ascii.eqb c "+"%char then int_digits 0 false t'
      else int_digits 0 false t
  | [] => None
  end.

(** [str(n)] and the [{n}] of an f-string, for an integer. *)
Definition of_Z (n : Z) : str := lit (NilZero.string_of_int (Z.to_int n)).

End PyStr.

Import PyStr.

(** ** [mission_time_updater.py]: the start_time field *)

Definition MAX_TIME : Z := 86399.

(** The test [if '"start_time"' in line or '["start_time"]' in line]. *)
Definition has_start_time (line : str) : bool :=
  contains (quoted "start_time") line
  || contains (lit "[" ++ quoted "start_time" ++ lit "]") line.

(** What the [try] block of [_parse_start_time] assigns for one matching
    line: [int(line.strip().split("=")[1].split(",")[0].strip())];
    [None] when the block raises (no [=] on the line, or no integer). *)
Definition line_value (line : str) : option Z :=
  let cleaned := strip line in
  match split "="%char cleaned with
  | _ :: x :: _ =>
      match split ","%char x with
      | y :: _ => py_int (strip y)
      | [] => None
      end
  | _ => None
  end.

(** The loop of [_parse_start_time], from the state [last_value]. *)
Fixpoint parse_loop (last_value : option Z) (lines : list str) : option Z :=
  match lines with
  | [] => last_value
  | line :: rest =>
      if has_start_time line then
        match line_value line with
        | Some v => parse_loop (Some v) rest
        | None => parse_loop last_value rest
        end
      else parse_loop last_value rest
  end.

Definition _parse_start_time (text : str) : option Z :=
  parse_loop None (splitlines text).

(** The loop of [_replace_start_time] over [enumerate(lines)], from the
    index [i] and the state [last_index]. *)
Fixpoint index_loop (i : nat) (last_index : option nat) (lines : list str)
  : option nat :=
  match lines with
  | [] => last_index
  | line :: rest =>
      index_loop (S i) (if has_start_time line then Some i else last_index) rest
  end.

Definition last_start_time_index (lines : list str) : option nat :=
  index_loop 0 None lines.

(** The canonical line [f'\t["start_time"] = {new_value},']. *)
Definition start_time_line (new_value : Z) : str :=
  TAB :: lit "[" ++ quoted "start_time" ++ lit "] = " ++ of_Z new_value ++ lit ",".

Definition _replace_start_time (text : str) (new_value : Z) : str :=
  let lines := splitlines text in
  match last_start_time_index lines with
  | None => text
  | Some last_index => join [LF] (<[last_index := start_time_line new_value]> lines)
  end.

(** ** Failures, notifications and the trace of a run *)

(** Which of the two workflows speaks (the two modules carry their own
    copies of the process and archive helpers, with their own texts). *)
Inductive workflow := TimeUpdate | WeatherRotation.

(** The reasons given to [fail_local] and to [notify_discord_error]. *)
Inductive failure :=
  | ConfigLoadFailed      (* Failed to load config *)
  | ConfigEmpty           (* Config is empty or invalid. *)
  | MissionPathMissing    (* mission_path missing in config. *)
  | MizNotFound           (* MIZ file not found *)
  | StopFailed            (* Failed to stop DCS_server.exe *)
  | SevenZipError         (* 7zip error, with the tool's stderr *)
  | ExtractionFailed      (* Failed to extract 'mission' from .miz. *)
  | MissionMissing        (* 'mission' file missing after extraction. *)
  | ReadFailed            (* Failed reading mission file *)
  | FieldNotFound         (* No start_time found inside mission file. *)
  | DateBlockNotFound     (* Failed to update date block. *)
  | NoTemplatesAvailable  (* Failed to choose weather template. *)
  | WeatherBlockNotFound  (* Failed to replace weather block in mission. *)
  | WriteFailed           (* Failed writing updated mission file *)
  | RepackFailed          (* Failed to update mission inside .miz. *)
  | StartFailed.          (* Failed to start DCS_server.exe *)

Inductive info :=
  | ServerStopped (w : workflow)     (* DCS server stopped to apply ... *)
  | ServerRestarted (w : workflow).  (* DCS server restarted successfully ... *)

Inductive archive_call :=
  | Extract   (* 7z e <miz> mission -o<tempdir> -y *)
  | Update.   (* 7z u <miz> <tempdir>/mission -y *)

(** What a run does to the outside world, in order.  Log lines and the
    [exists] tests are not traced. *)
Inductive event :=
  | ProcessScan                      (* psutil.process_iter(...) *)
  | Kill (pid : Z)                   (* psutil.Process(pid).kill() is called *)
  | Sleep (seconds : Z)              (* time.sleep(seconds) *)
  | NotifyInfo (i : info)            (* notify_discord_info(...) *)
  | NotifyError (f : failure)        (* notify_discord_error(...) *)
  | Run7zip (c : archive_call)       (* subprocess.run([SEVEN_ZIP_PATH] + args) *)
  | ReadText                         (* mission_path.read_text(...) *)
  | WriteText (text : str)           (* mission_path.write_text(text) *)
  | Spawn.                           (* subprocess.Popen([DCS_SERVER_EXE]) *)

#[global] Instance workflow_eq_dec : EqDecision workflow.
Proof. solve_decision. Defined.
#[global] Instance failure_eq_dec : EqDecision failure.
Proof. solve_decision. Defined.
#[global] Instance info_eq_dec : EqDecision info.
Proof. solve_decision. Defined.
#[global] Instance archive_call_eq_dec : EqDecision archive_call.
Proof. solve_decision. Defined.
#[global] Instance event_eq_dec : EqDecision event.
Proof. solve_decision. Defined.

(** The start_time step of [update_miz_start_time] (parse, wrap, replace):
    the text to write back, or the failure reported. *)
Definition start_time_update (text : str) (seconds_to_add : Z) : failure + str :=
  match _parse_start_time text with
  | None => inl FieldNotFound
  | Some current_start =>
      let new_time := (current_start + seconds_to_add) mod (MAX_TIME + 1) in
      inr (_replace_start_time text new_time)
  end.

(** ** The outside world of one run *)

(** An entry of [psutil.process_iter(attrs=['pid', 'name'])]; the name may
    be [None]. *)
Record process := { pid : Z; name : option str }.

(** The configuration read from [dcs_persistence_config.json], a JSON
    object, with the defaults of [cfg.get(key, default)] in place of
    absent keys: the flag by its truth value, the path and the season
    strings (as [config_app.py] writes them), and for the weight what
    [int(...)] makes of it, [None] when [int] raises. *)
Record config := {
  weather_rotation_enabled : bool;
  mission_path : str;
  weather_season : str;
  weather_bad_weather_percentage : option Z;
}.

Inductive config_load :=
  | LoadRaises              (* read_text or json.loads raises *)
  | LoadedFalsy             (* the JSON value is falsy: [not cfg] *)
  | LoadedNotObject         (* truthy and no object: [cfg.get] raises *)
  | Loaded (cfg : config).

Inductive weather_dir := BAD_WEATHER_DIR | GOOD_WEATHER_DIR.

(** What the outside world answers during one run. *)
Record world := {
  (** [Path(p).exists()] *)
  path_exists : str → bool;
  (** the process table, in the order [process_iter] yields it *)
  processes : list process;
  (** whether [psutil.Process(pid).kill()] raises *)
  kill_raises : Z → bool;
  (** whether [subprocess.run] raises: the archive tool cannot be
      started *)
  run_raises : archive_call → bool;
  (** [result.returncode] of the archive tool, once it ran *)
  returncode : archive_call → Z;
  (** [mission_path.exists()] after the extraction *)
  mission_extracted : bool;
  (** [mission_path.read_text(...)]; [None] when it raises *)
  mission_text : option str;
  (** whether [mission_path.write_text(...)] raises *)
  write_raises : bool;
  (** whether [subprocess.Popen([DCS_SERVER_EXE], ...)] raises *)
  popen_raises : bool;
  (** the configuration file as [rotate_weather_in_miz] loads it *)
  config_file : config_load;
  (** [date.today()] as (year, month, day) *)
  today : Z * Z * Z;
  (** the entropy behind [random.randint] and behind [random.choice] *)
  entropy_roll : Z;
  entropy_choice : Z;
  (** a template directory: [None] when it does not exist, else its
      [*.config] files in [glob] order, each with the text [read_text]
      gives or [None] when reading raises *)
  weather_files : weather_dir → option (list (option str));
  (** how [re] expands a replacement template that holds backslash
      escapes; [None] when it raises [re.error] *)
  expand_template : str → option str;
}.

(** ** Runs: a value together with the events produced, in order *)

Definition run (A : Type) : Type := A * list event.

#[global] Instance run_ret : MRet run := λ A a, (a, []).
#[global] Instance run_bind : MBind run := λ A B k m,
  let '(a, t1) := m in let '(b, t2) := k a in (b, t1 ++ t2).

Definition emit (e : event) : run unit := (tt, [e]).

Definition result {A} (r : run A) : A := r.1.
Definition trace {A} (r : run A) : list event := r.2.

(** [fail_local(reason)]: log, notify Discord (a notifier error is caught
    and logged), return [False]. *)
Definition fail_local (reason : failure) : run bool :=
  emit (NotifyError reason);; mret false.

(** What a call that may raise ends with: a returned boolean, or an
    exception that leaves the function. *)
Inductive outcome :=
  | Returns (b : bool)
  | Raises.

Definition returning (r : run bool) : run outcome := b ← r; mret (Returns b).

(** ** Process management (both modules) *)

Definition SERVER_NAME : str := lit "DCS_server.exe".

(** The body of the loop of [_kill_dcs_server_if_running] for a process
    that matched: notify, kill, wait. *)
Definition stop_process (wf : workflow) (w : world) (p : process) : run bool :=
  emit (NotifyInfo (ServerStopped wf));;
  emit (Kill (pid p));;
  if kill_raises w (pid p) then fail_local StopFailed
  else emit (Sleep 15);; mret true.

(** The loop [for proc in psutil.process_iter(...)]: it returns at the
    first process whose name contains the executable name. *)
Fixpoint kill_loop (wf : workflow) (w : world) (procs : list process) : run bool :=
  match procs with
  | [] => mret true
  | proc :: rest =>
      let name := default [] (name proc) in
      if contains SERVER_NAME name then stop_process wf w proc
      else kill_loop wf w rest
  end.

Definition _kill_dcs_server_if_running (wf : workflow) (w : world) : run bool :=
  emit ProcessScan;; kill_loop wf w (processes w).

Definition _start_dcs_server (wf : workflow) (w : world) : run bool :=
  emit Spawn;;
  if popen_raises w then emit (NotifyError StartFailed);; mret false
  else emit (NotifyInfo (ServerRestarted wf));; mret true.

(** [_run_7zip(args)] for the two call shapes.  The call of
    [subprocess.run] stands outside any [try]: when it raises, so does
    [_run_7zip]. *)
Definition _run_7zip (w : world) (c : archive_call) : run outcome :=
  emit (Run7zip c);;
  if run_raises w c then mret Raises
  else if decide (returncode w c ≠ 0)
       then emit (NotifyError SevenZipError);; mret (Returns false)
  else mret (Returns true).

(** ** [update_miz_start_time] *)

(** The temporary directory is taken to be created and removed without
    error; an exception of [_run_7zip] leaves the function. *)
Definition update_miz_start_time (w : world) (miz_path : str) (seconds_to_add : Z)
  : run outcome :=
  if negb (path_exists w miz_path) then returning (fail_local MizNotFound) else
  killed ← _kill_dcs_server_if_running TimeUpdate w;
  if negb killed then mret (Returns false) else
  extracted ← _run_7zip w Extract;
  match extracted with
  | Raises => mret Raises
  | Returns extracted =>
      if negb extracted then returning (fail_local ExtractionFailed) else
      if negb (mission_extracted w) then returning (fail_local MissionMissing) else
      emit ReadText;;
      match mission_text w with
      | None => returning (fail_local ReadFailed)
      | Some text =>
          match start_time_update text seconds_to_add with
          | inl reason => returning (fail_local reason)
          | inr new_text =>
              emit (WriteText new_text);;
              if write_raises w then returning (fail_local WriteFailed) else
              updated ← _run_7zip w Update;
              match updated with
              | Raises => mret Raises
              | Returns updated =>
                  if negb updated then returning (fail_local RepackFailed) else
                  started ← _start_dcs_server TimeUpdate w;
                  if negb started then mret (Returns false) else mret (Returns true)
              end
          end
      end
  end.

(** ** [weather_rotator.py]: the season date *)

(** The dictionary [mapping] of [_build_date_for_season]. *)
Definition mapping : gmap str (Z * Z * Z) :=
  <[lit "summer" := (2025, 8, 1)]>      (* 1 August 2025 *)
  (<[lit "winter" := (2025, 2, 1)]>     (* 1 February 2025 *)
  (<[lit "autumn" := (2025, 10, 1)]>    (* 1 October 2025 *)
  (<[lit "spring" := (2025, 5, 1)]> ∅))). (* 1 May 2025 *)

(** (year, month, day) for the season; [today] is [date.today()]. *)
Definition _build_date_for_season (today : Z * Z * Z) (season : str) : Z * Z * Z :=
  if decide (season = lit "realistic") then today
  else default (2025, 9, 1) (mapping !! season).  (* fallback: 1 September 2025 *)

(** ** A backtracking matcher for the patterns of [weather_rotator.py]

    The constructs the two patterns use, with the priorities of Python's
    [re]: a greedy star takes as many characters as it can and gives them
    back one by one, a lazy star takes as few as it can, an optional group
    is tried before it is skipped.  Stars range over one-character
    classes only, as in the source. *)

Module Re.

Inductive cls :=
  | Chr (c : ascii)   (* a literal (possibly escaped) character *)
  | Space             (* \s *)
  | Any.              (* . under re.DOTALL *)

Inductive re :=
  | Eps
  | One (c : cls)
  | Seq (r1 r2 : re)
  | Star (c : cls)        (* c* *)
  | LazyStar (c : cls)    (* c*? *)
  | Opt (r : re).         (* (?:r)? *)

Definition accepts (cl : cls) (c : ascii) : bool :=
  match cl with
  | Chr d => Ascii.eqb d c
  | Space => isspace c
  | Any => true
  end.

(** A run of literal characters. *)
Definition text (s : str) : re := foldr (λ c r, Seq (One (Chr c)) r) Eps s.

Section Matcher.
(** The continuation: what must still match after this piece; it
    answers with the text left after the whole match. *)
Variable k : str → option str.

Fixpoint star_greedy (cl : cls) (s : str) : option str :=
  match s with
  | c :: s' =>
      if accepts cl c then
        match star_greedy cl s' with
        | Some rest => Some rest
        | None => k s
        end
      else k s
  | [] => k s
  end.

Fixpoint star_lazy (cl : cls) (s : str) : option str :=
  match k s with
  | Some rest => Some rest
  | None =>
      match s with
      | c :: s' => if accepts cl c then star_lazy cl s' else None
      | [] => None
      end
  end.
End Matcher.

Fixpoint match_re (r : re) (s : str) (k : str → option str) : option str :=
  match r with
  | Eps => k s
  | One cl =>
      match s with
      | c :: s' => if accepts cl c then k s' else None
      | [] => None
      end
  | Seq r1 r2 => match_re r1 s (λ s', match_re r2 s' k)
  | Star cl => star_greedy k cl s
  | LazyStar cl => star_lazy k cl s
  | Opt r1 =>
      match match_re r1 s k with
      | Some rest => Some rest
      | None => k s
      end
  end.

(** [pattern.match] at the start of [s]: the text after the match. *)
Definition match_at (r : re) (s : str) : option str := match_re r s Some.

(** [pattern.search(text)]: the leftmost start with a match; the result
    is the text before the match and the text after it. *)
Fixpoint search_from (r : re) (before : str) (s : str) : option (str * str) :=
  match match_at r s with
  | Some rest => Some (before, rest)
  | None =>
      match s with
      | c :: s' => search_from r (before ++ [c]) s'
      | [] => None
      end
  end.

Definition search (r : re) (s : str) : option (str * str) := search_from r [] s.

(** [pattern.sub(repl, text, count=1)] with [repl] already expanded: the
    first match is replaced, a text without match is returned as it is. *)
Definition sub_first (r : re) (repl : str) (s : str) : str :=
  match search r s with
  | Some (before, rest) => before ++ repl ++ rest
  | None => s
  end.

(** The texts a pattern denotes, without priorities. *)
Inductive lang : re → str → Prop :=
  | lang_eps : lang Eps []
  | lang_one cl c : accepts cl c = true → lang (One cl) [c]
  | lang_seq r1 r2 s1 s2 : lang r1 s1 → lang r2 s2 → lang (Seq r1 r2) (s1 ++ s2)
  | lang_star cl s : Forall (λ c, accepts cl c = true) s → lang (Star cl) s
  | lang_lazy cl s : Forall (λ c, accepts cl c = true) s → lang (LazyStar cl) s
  | lang_opt_none r : lang (Opt r) []
  | lang_opt_some r s : lang r s → lang (Opt r) s.

End Re.

Infix "⋅" := Re.Seq (at level 45, right associativity).

(** ** The date block *)

Definition DATE_LABEL : str := lit "[" ++ quoted "date" ++ lit "]".

(** The comment [--\s*end of \["date"\]]. *)
Definition date_end_marker : Re.re :=
  Re.text (lit "--") ⋅ Re.Star Re.Space ⋅ Re.text (lit "end of " ++ DATE_LABEL).

(** [\s*\["date"\]\s*=\s*\{.*?\},\s*(?:--\s*end of \["date"\])?] under
    [re.DOTALL]. *)
Definition date_pattern : Re.re :=
  Re.Star Re.Space ⋅ Re.text DATE_LABEL ⋅ Re.Star Re.Space ⋅ Re.text (lit "=")
  ⋅ Re.Star Re.Space ⋅ Re.text (lit "{") ⋅ Re.LazyStar Re.Any ⋅ Re.text (lit "},")
  ⋅ Re.Star Re.Space ⋅ Re.Opt date_end_marker.

(** The canonical block [new_block] of [_update_date_block]. *)
Definition new_date_block (date : Z * Z * Z) : str :=
  let '(year, month, day) := date in
  [TAB] ++ DATE_LABEL ++ lit " = " ++ [LF]
  ++ [TAB] ++ lit "{" ++ [LF]
  ++ [TAB; TAB] ++ lit "[" ++ quoted "Day" ++ lit "] = " ++ of_Z day ++ lit "," ++ [LF]
  ++ [TAB; TAB] ++ lit "[" ++ quoted "Year" ++ lit "] = " ++ of_Z year ++ lit "," ++ [LF]
  ++ [TAB; TAB] ++ lit "[" ++ quoted "Month" ++ lit "] = " ++ of_Z month ++ lit "," ++ [LF]
  ++ [TAB] ++ lit "}, -- end of " ++ DATE_LABEL ++ [LF].

(** [_update_date_block(text, season)]; [None] is the source's [None].
    The replacement holds no backslash, so [re] copies it as it is. *)
Definition _update_date_block (today : Z * Z * Z) (text : str) (season : str)
  : option str :=
  let new_block := new_date_block (_build_date_for_season today season) in
  match Re.search date_pattern text with
  | None => None
  | Some _ => Some (Re.sub_first date_pattern new_block text)
  end.

(** ** The weather template and the weather block *)

(** [random.randint(lo, hi)]: a value between [lo] and [hi], both
    included, drawn from the entropy. *)
Definition randint (lo hi entropy : Z) : Z := lo + entropy mod (hi - lo + 1).

(** The two [if]s that clamp [bad_percentage]. *)
Definition clamp_percentage (bad_percentage : Z) : Z :=
  let bad_percentage := if bad_percentage <? 0 then 0 else bad_percentage in
  if bad_percentage >? 100 then 100 else bad_percentage.

(** The directory chosen for the draw [roll]. *)
Definition chosen_dir (bad_percentage roll : Z) : weather_dir :=
  if roll <=? clamp_percentage bad_percentage then BAD_WEATHER_DIR
  else GOOD_WEATHER_DIR.

(** The rest of [_pick_weather_template] once the directory is chosen:
    [None] when it does not exist, holds no [*.config] file, or the file
    drawn cannot be read. *)
Definition read_template (w : world) (dir : weather_dir) : option str :=
  match weather_files w dir with
  | None => None
  | Some [] => None
  | Some candidates =>
      let i := entropy_choice w mod Z.of_nat (length candidates) in
      mjoin (candidates !! Z.to_nat i)
  end.

Definition _pick_weather_template (w : world) (bad_percentage : Z) : option str :=
  let roll := randint 1 100 (entropy_roll w) in
  read_template w (chosen_dir bad_percentage roll).

Definition WEATHER_LABEL : str := lit "[" ++ quoted "weather" ++ lit "]".

(** [\["weather"\]\s*=\s*\{.*?\},\s*-- end of \["weather"\]] under
    [re.DOTALL]. *)
Definition weather_pattern : Re.re :=
  Re.text WEATHER_LABEL ⋅ Re.Star Re.Space ⋅ Re.text (lit "=")
  ⋅ Re.Star Re.Space ⋅ Re.text (lit "{") ⋅ Re.LazyStar Re.Any ⋅ Re.text (lit "},")
  ⋅ Re.Star Re.Space ⋅ Re.text (lit "-- end of " ++ WEATHER_LABEL).

(** The replacement text [sub] makes of a template: a template without
    backslash stands for itself, the escapes of any other are expanded
    as the world says. *)
Definition expand (w : world) (template : str) : option str :=
  if contains [BACKSLASH] template then expand_template w template
  else Some template.

(** [_replace_weather_block(text, new_weather_block)]: [inr None] is the
    source's [None]; [inl tt] stands for the [re.error] that [sub] raises
    on a template it cannot expand. *)
Definition _replace_weather_block (w : world) (text new_weather_block : str)
  : unit + option str :=
  match Re.search weather_pattern text with
  | None => inr None
  | Some _ =>
      match expand w new_weather_block with
      | None => inl tt
      | Some repl => inr (Some (Re.sub_first weather_pattern repl text))
      end
  end.

(** ** [rotate_weather_in_miz] *)

(** The reads of the configuration raise when it is no object
    ([cfg.get]) and when the weight does not convert ([int(...)], after
    the tests of the flag and of the path, before the test of the
    archive); so do [_run_7zip] and a template that cannot be expanded.
    The temporary directory is taken to be created and removed without
    error. *)
Definition rotate_weather_in_miz (w : world) : run outcome :=
  match config_file w with
  | LoadRaises => returning (fail_local ConfigLoadFailed)
  | LoadedFalsy => returning (fail_local ConfigEmpty)
  | LoadedNotObject => mret Raises
  | Loaded cfg =>
      if negb (weather_rotation_enabled cfg) then mret (Returns true) else
      let miz_path := mission_path cfg in
      if decide (miz_path = []) then returning (fail_local MissionPathMissing) else
      let season := weather_season cfg in
      match weather_bad_weather_percentage cfg with
      | None => mret Raises
      | Some bad_pct =>
      if negb (path_exists w miz_path) then returning (fail_local MizNotFound) else
      killed ← _kill_dcs_server_if_running WeatherRotation w;
      if negb killed then mret (Returns false) else
      extracted ← _run_7zip w Extract;
      match extracted with
      | Raises => mret Raises
      | Returns extracted =>
      if negb extracted then returning (fail_local ExtractionFailed) else
      if negb (mission_extracted w) then returning (fail_local MissionMissing) else
      emit ReadText;;
      match mission_text w with
      | None => returning (fail_local ReadFailed)
      | Some text =>
          match _update_date_block (today w) text season with
          | None => returning (fail_local DateBlockNotFound)
          | Some text =>
              match _pick_weather_template w bad_pct with
              | None => returning (fail_local NoTemplatesAvailable)
              | Some template =>
                  match _replace_weather_block w text template with
                  | inl _ => mret Raises
                  | inr None => returning (fail_local WeatherBlockNotFound)
                  | inr (Some text) =>
                      emit (WriteText text);;
                      if write_raises w then returning (fail_local WriteFailed) else
                      updated ← _run_7zip w Update;
                      match updated with
                      | Raises => mret Raises
                      | Returns updated =>
                          if negb updated then returning (fail_local RepackFailed) else
                          started ← _start_dcs_server WeatherRotation w;
                          if negb started then mret (Returns false)
                          else mret (Returns true)
                      end
                  end
              end
          end
      end
      end
      end
  end.

(** ** [time_reader.py] *)

(** [_convert_hms_to_seconds(hms)]: the unpacking [h, m, s = ...] needs
    exactly three fields; any exception gives 0. *)
Definition _convert_hms_to_seconds (hms : str) : Z :=
  match split ":"%char hms with
  | [h; m; s] =>
      match py_int h, py_int m, py_int s with
      | Some h, Some m, Some s => h * 3600 + m * 60 + s
      | _, _, _ => 0
      end
  | _ => 0
  end.

(** [s.lower()] on code points below 256: A..Z and the capital letters
    U+00C0..U+00DE (not the sign U+00D7) move up by 32. *)
Definition lower_char (c : ascii) : ascii :=
  let n := code c in
  if ((65 <=? n) && (n <=? 90)
      || (192 <=? n) && (n <=? 222) && negb (n =? 215))%N
  then ascii_of_N (n + 32) else c.

Definition lower (s : str) : str := map lower_char s.

(** [s.replace(old, new)], from the left and without overlap, for a
    non-empty [old]; [skip] counts the characters of a match still to be
    dropped. *)
Fixpoint replace_from (old new : str) (skip : nat) (s : str) : str :=
  match s with
  | [] => []
  | c :: s' =>
      match skip with
      | S n => replace_from old new n s'
      | O =>
          if starts_with old s then new ++ replace_from old new (length old - 1) s'
          else c :: replace_from old new 0 s'
      end
  end.

Definition replace (old new s : str) : str := replace_from old new 0 s.

(** [_normalize_path(p)]. *)
Definition _normalize_path (p : str) : str :=
  strip (lower (replace (lit "//") (lit "/") (replace [BACKSLASH] (lit "/") p))).

(** What the headless browser shows during [extract_time_and_mission];
    [None] is a wait that times out or a call that raises. *)
Record browser := {
  (** [webdriver.Chrome(...)] and [driver.get(WEBGUI_URL)] succeed *)
  driver_starts : bool;
  (** text of the server-detected popup *)
  server_detected_text : option str;
  (** the connect button becomes clickable and the click succeeds *)
  connect_clicked : bool;
  (** text of the mission file name on the dashboard *)
  mission_filename_text : option str;
  (** text of the mission time on the dashboard *)
  mission_time_text : option str;
}.

(** [extract_time_and_mission(expected_miz_path)]: the triple
    (matched, time text, seconds). *)
Definition extract_time_and_mission (b : browser) (expected_miz_path : str)
  : bool * option str * option Z :=
  let failed := (false, None, None) in
  if negb (driver_starts b) then failed else
  match server_detected_text b with
  | None => failed
  | Some elem_text =>
      let text := strip elem_text in
      if negb (contains (lit "server detected") (lower text)) then failed else
      if negb (connect_clicked b) then failed else
      match mission_filename_text b with
      | None => failed
      | Some elem_text =>
          let loaded_miz := strip elem_text in
          let loaded_norm := _normalize_path loaded_miz in
          let expected_norm := _normalize_path expected_miz_path in
          if decide (loaded_norm ≠ expected_norm) then failed else
          match mission_time_text b with
          | None => failed
          | Some elem_text =>
              let mission_time := strip elem_text in
              let seconds := _convert_hms_to_seconds mission_time in
              (true, Some mission_time, Some seconds)
          end
      end
  end.

(** ** [main.py] *)

(** The configuration as [main] reads it, with the defaults of
    [cfg.get(key, default)] in place of absent keys, the path a string
    and the two flags by their truth value. *)
Record main_config := {
  cfg_mission_path : str;
  cfg_hour_persistence_enabled : bool;
  cfg_weather_rotation_enabled : bool;
}.

(** The JSON value of the configuration file. *)
Inductive json_config :=
  | Falsy                    (* [not cfg] holds *)
  | NotAnObject              (* truthy and no object: [cfg.get] raises *)
  | Object (cfg : main_config).

(** The reasons given to [fail]. *)
Inductive main_failure :=
  | MainConfigLoadFailed    (* Failed to load config *)
  | MainConfigEmpty         (* Config is empty or invalid. *)
  | MainMissionPathMissing  (* mission_path missing in config. *)
  | TimeExtractionFailed    (* Mission time extraction failed (mismatch or scraping error). *)
  | TimeNotReturned         (* Mission time not returned by extractor. *)
  | SaveFailed              (* Failed to save extracted time *)
  | TimeUpdateFailed        (* Failed to update MIZ start_time. *)
  | WeatherRotationFailed.  (* Weather rotation failed. *)

(** What [main] does, in order: its own reports and its result file, and
    the events of the workflows it calls. *)
Inductive main_event :=
  | MainError (f : main_failure)            (* notify_discord_error(reason) in fail *)
  | SaveResult (hms : str) (seconds : Z)    (* RESULT_PATH.write_text(json.dumps(...)) *)
  | Workflow (e : event).

(** How [main] is left: by [SystemExit(code)], or by another exception,
    which nobody catches. *)
Inductive exit :=
  | Exit (code : Z)
  | Uncaught.

#[global] Instance main_failure_eq_dec : EqDecision main_failure.
Proof. solve_decision. Defined.
#[global] Instance main_event_eq_dec : EqDecision main_event.
Proof. solve_decision. Defined.
#[global] Instance exit_eq_dec : EqDecision exit.
Proof. solve_decision. Defined.

(** What the outside world answers during one run of [main]: the two
    workflows run one after the other, each against the world it finds. *)
Record main_world := {
  (** the configuration file as [load_config] reads it; [None] when
      [read_text] or [json.loads] raises *)
  main_config_file : option json_config;
  (** what the headless browser shows *)
  dashboard : browser;
  (** whether [RESULT_PATH.write_text(...)] raises *)
  save_raises : bool;
  (** the world during [update_miz_start_time] *)
  during_time_update : world;
  (** the world during [rotate_weather_in_miz] *)
  during_weather_rotation : world;
}.

(** A script: it goes on with a value or has left the process, with the
    events produced so far. *)
Definition script (A : Type) : Type := (exit + A) * list main_event.

#[global] Instance script_ret : MRet script := λ A a, (inr a, []).
#[global] Instance script_bind : MBind script := λ A B k m,
  match m with
  | (inl e, t) => (inl e, t)
  | (inr a, t1) => let '(b, t2) := k a in (b, t1 ++ t2)
  end.

(** [raise SystemExit(code)], an exception that leaves [main], and a call
    that runs one of the workflows. *)
Definition sys_exit {A} (code : Z) : script A := (inl (Exit code), []).
Definition uncaught {A} : script A := (inl Uncaught, []).
Definition call {A} (r : run A) : script A := (inr (result r), Workflow <$> trace r).

(** [fail(reason)]: log, notify Discord (a notifier error is caught and
    logged), [raise SystemExit(1)]. *)
Definition fail {A} (reason : main_failure) : script A :=
  (inl (Exit 1), [MainError reason]).

(** [load_config()]. *)
Definition load_config (mw : main_world) : script json_config :=
  match main_config_file mw with
  | None => fail MainConfigLoadFailed
  | Some cfg => mret cfg
  end.

(** [save_result(hms, seconds)]. *)
Definition save_result (mw : main_world) (hms : str) (seconds : Z) : script unit :=
  (inr tt, [SaveResult hms seconds]) ≫= λ _,
  if save_raises mw then fail SaveFailed else mret tt.

(** [main()]. *)
Definition main (mw : main_world) : script unit :=
  cfg ← load_config mw;
  match cfg with
  | Falsy => fail MainConfigEmpty
  | NotAnObject => uncaught
  | Object cfg =>
      let miz_path := cfg_mission_path cfg in
      if decide (miz_path = []) then fail MainMissionPathMissing else
      let hour_enabled := cfg_hour_persistence_enabled cfg in
      let weather_enabled := cfg_weather_rotation_enabled cfg in
      if negb hour_enabled && negb weather_enabled then sys_exit 0 else
      (if hour_enabled then
         let '(success, hms, seconds) :=
           extract_time_and_mission (dashboard mw) miz_path in
         if negb success then fail TimeExtractionFailed else
         match hms, seconds with
         | Some hms, Some seconds =>
             save_result mw hms seconds;;
             updated ← call (update_miz_start_time (during_time_update mw)
                               miz_path seconds);
             match updated with
             | Raises => uncaught
             | Returns updated =>
                 if negb updated then fail TimeUpdateFailed else mret tt
             end
         | _, _ => fail TimeNotReturned
         end
       else mret tt);;
      (if weather_enabled then
         rotated ← call (rotate_weather_in_miz (during_weather_rotation mw));
         match rotated with
         | Raises => uncaught
         | Returns rotated =>
             if negb rotated then fail WeatherRotationFailed else mret tt
         end
       else mret tt);;
      sys_exit 0
  end.

(** How a run of [main] ends: the exit taken, [SystemExit(0)] for a
    script that ran to its end. *)
Definition exit_status (s : script unit) : exit :=
  match s.1 with
  | inl e => e
  | inr _ => Exit 0
  end.

Definition log {A} (s : script A) : list main_event := s.2.

(** * Vocabulary of the statements *)

(** Goals on character classes: case analysis on the comparisons of the
    code point. *)
Ltac char_cases :=
  repeat match goal with
  | H : context [(?a <=? ?b)%N] |- _ => destruct (N.leb_spec a b)
  | |- context [(?a <=? ?b)%N] => destruct (N.leb_spec a b)
  | H : context [(?a =? ?b)%N] |- _ => destruct (N.eqb_spec a b)
  | |- context [(?a =? ?b)%N] => destruct (N.eqb_spec a b)
  end; simpl in *; try done; try lia.

(** A line: a text without line boundary. *)
Definition one_line (l : str) : Prop := Forall (λ c, is_linebreak c = false) l.

(** Lines without the start_time marker. *)
Abbreviation no_marker := (Forall (λ l : str, has_start_time l = false)).

(** Lines whose marker, if any, comes without a readable integer. *)
Abbreviation no_value :=
  (Forall (λ l : str, has_start_time l = true → line_value l = None)).

#[global] Instance weather_dir_eq_dec : EqDecision weather_dir.
Proof. solve_decision. Defined.

(** What stands first in [s] is not of the class. *)
Definition stops (cl : Re.cls) (s : str) : Prop :=
  match s with
  | c :: _ => Re.accepts cl c = false
  | [] => True
  end.

(** Whitespace only. *)
Abbreviation spaces := (Forall (λ c : ascii, isspace c = true)).

(** The end-marker comment, with the whitespace [ws] after the dashes. *)
Definition end_marker (ws : str) : str :=
  lit "--" ++ ws ++ lit "end of " ++ DATE_LABEL.

(** A date block as it may stand in a descriptor: whitespace [ws0] to
    [ws3] wherever the pattern allows it, any [body] between the braces,
    and an end marker or none. *)
Definition date_block (ws0 ws1 ws2 body ws3 : str) (marker : option str) : str :=
  ws0 ++ DATE_LABEL ++ ws1 ++ lit "=" ++ ws2 ++ lit "{" ++ body ++ lit "},"
  ++ ws3 ++ from_option end_marker [] marker.

(** What follows a block that has no end marker is neither whitespace
    nor an end marker (they would belong to the block). *)
Definition follows (marker : option str) (rest : str) : Prop :=
  match marker with
  | Some _ => True
  | None => stops Re.Space rest
            ∧ ∀ ws r, spaces ws → rest ≠ end_marker ws ++ r
  end.

(** The events of process control. *)
Definition process_control (e : event) : Prop :=
  e = ProcessScan ∨ (∃ pid, e = Kill pid) ∨ e = Spawn.

(** What stopping the server may leave in the trace. *)
Definition stop_event (wf : workflow) (e : event) : Prop :=
  e = ProcessScan ∨ e = NotifyInfo (ServerStopped wf) ∨ (∃ pid, e = Kill pid)
  ∨ e = Sleep 15 ∨ e = NotifyError StopFailed.

(** The test of the loop: the name contains the executable name. *)
Abbreviation is_server := (λ p : process, contains SERVER_NAME (default [] (name p))).

(** The events of a failed extraction step. *)
Definition extraction_failed : list event :=
  [Run7zip Extract; NotifyError SevenZipError; NotifyError ExtractionFailed].

(** A time text that reads as H:M:S: three fields, each an integer. *)
Definition reads_hms (hms : str) (h m s : Z) : Prop :=
  ∃ fh fm fs, split ":"%char hms = [fh; fm; fs]
    ∧ py_int fh = Some h ∧ py_int fm = Some m ∧ py_int fs = Some s.

(** The characters of a decimal numeral. *)
Definition chars (d : Decimal.uint) : str := list_ascii_of_string (NilEmpty.string_of_uint d).

(** The steps of the time-persistence workflow up to the repack all
    succeed. *)
Definition repacked (w : world) (miz_path : str) (d : Z) (new_text : str) : Prop :=
  path_exists w miz_path = true
  ∧ result (_kill_dcs_server_if_running TimeUpdate w) = true
  ∧ run_raises w Extract = false
  ∧ returncode w Extract = 0
  ∧ mission_extracted w = true
  ∧ (∃ text, mission_text w = Some text ∧ start_time_update text d = inr new_text)
  ∧ write_raises w = false
  ∧ run_raises w Update = false
  ∧ returncode w Update = 0.

(** The steps of the weather-rotation workflow up to the repack all
    succeed, with [new_text] written back. *)
Definition rotation_repacked (w : world) (cfg : config) (new_text : str) : Prop :=
  config_file w = Loaded cfg
  ∧ weather_rotation_enabled cfg = true
  ∧ mission_path cfg ≠ []
  ∧ path_exists w (mission_path cfg) = true
  ∧ result (_kill_dcs_server_if_running WeatherRotation w) = true
  ∧ run_raises w Extract = false
  ∧ returncode w Extract = 0
  ∧ mission_extracted w = true
  ∧ (∃ bad_pct text dated template,
       weather_bad_weather_percentage cfg = Some bad_pct
       ∧ mission_text w = Some text
       ∧ _update_date_block (today w) text (weather_season cfg) = Some dated
       ∧ _pick_weather_template w bad_pct = Some template
       ∧ _replace_weather_block w dated template = inr (Some new_text))
  ∧ write_raises w = false
  ∧ run_raises w Update = false
  ∧ returncode w Update = 0.

(** The end-marker comment of the weather block. *)
Definition WEATHER_END : str := lit "-- end of " ++ WEATHER_LABEL.

(** A weather block as it may stand in a descriptor: any [body], nested
    groups included, between the opening brace and the closing [},] that
    the end marker follows. *)
Definition weather_block (ws1 ws2 body ws3 : str) : str :=
  WEATHER_LABEL ++ ws1 ++ lit "=" ++ ws2 ++ lit "{" ++ body ++ lit "},"
  ++ ws3 ++ WEATHER_END.

(** The closing of a weather block: [},], whitespace, the end marker. *)
Definition weather_closing : Re.re :=
  Re.text (lit "},") ⋅ Re.Star Re.Space ⋅ Re.text (lit "-- end of " ++ WEATHER_LABEL).

(** Notifications, as opposed to what a run does to the server, the
    archive and the extracted descriptor. *)
Definition is_notice (e : event) : bool :=
  match e with
  | NotifyInfo _ | NotifyError _ => true
  | _ => false
  end.

Definition actions (t : list event) : list event :=
  filter (λ e, is_notice e = false) t.

(** The actions of a complete run, in order. *)
Definition pipeline_actions (wf : workflow) (w : world) (new_text : str) : list event :=
  actions (trace (_kill_dcs_server_if_running wf w))
  ++ [Run7zip Extract; ReadText; WriteText new_text; Run7zip Update; Spawn].

(** No report of [fail] among the events. *)
Definition quiet (t : list main_event) : Prop := ∀ r, MainError r ∉ t.

(** A script that left with status 1 has reported once, last of all;
    any other has not reported, and has not left with another code than 0. *)
Definition ends_well {A} (s : script A) : Prop :=
  match s.1 with
  | inl (Exit code) =>
      (code = 1 ∧ ∃ pre r, s.2 = pre ++ [MainError r] ∧ quiet pre)
      ∨ (code = 0 ∧ quiet s.2)
  | inl Uncaught | inr _ => quiet s.2
  end.

(** What a time update that succeeded inside [main] has done: the time
    shown on the dashboard was saved, its seconds given to
    [update_miz_start_time], which returned [True] after the stop, the
    extraction, the read, the write of the descriptor with the start time
    moved by these seconds, the repack and the start. *)
Definition time_persisted (mw : main_world) (cfg : main_config) : Prop :=
  ∃ shown text current new_text,
    let hms := strip shown in
    let seconds := _convert_hms_to_seconds hms in
    let update :=
      update_miz_start_time (during_time_update mw) (cfg_mission_path cfg) seconds in
    mission_time_text (dashboard mw) = Some shown
    ∧ save_raises mw = false
    ∧ result update = Returns true
    ∧ mission_text (during_time_update mw) = Some text
    ∧ _parse_start_time text = Some current
    ∧ start_time_update text seconds = inr new_text
    ∧ _parse_start_time new_text = Some ((current + seconds) mod 86400)
    ∧ trace update
      = trace (_kill_dcs_server_if_running TimeUpdate (during_time_update mw))
        ++ [Run7zip Extract; ReadText; WriteText new_text; Run7zip Update;
            Spawn; NotifyInfo (ServerRestarted TimeUpdate)]
    ∧ ∃ rest, log (main mw) = SaveResult hms seconds :: (Workflow <$> trace update) ++ rest.

(** * Descriptors, process tables, worlds and browsers of the examples *)

(** The running example of the design document: an earlier nested field
    of 100 seconds, a later top-level one of 36000. *)
Definition scenario_A : str :=
  lit "mission = {" ++ [LF]
  ++ [TAB; TAB] ++ lit "[" ++ quoted "start_time" ++ lit "] = 100," ++ [LF]
  ++ [TAB] ++ lit "[" ++ quoted "start_time" ++ lit "] = 36000," ++ [LF]
  ++ lit "} -- end of mission" ++ [LF].

(** A descriptor whose only marker line carries no integer. *)
Definition unreadable_only : str :=
  [TAB] ++ lit "[" ++ quoted "start_time" ++ lit "] = soon," ++ [LF].

(** A descriptor whose last marker line carries no integer, after one
    that reads 100. *)
Definition unreadable_last : str :=
  [TAB] ++ lit "[" ++ quoted "start_time" ++ lit "] = 100," ++ [LF]
  ++ [TAB] ++ lit "[" ++ quoted "start_time" ++ lit "] = soon," ++ [LF].

(** Two date blocks that differ in field order, whitespace and end
    marker, and a descriptor with a second date block further down. *)
Definition block_year_first : str :=
  [LF; TAB] ++ DATE_LABEL ++ lit " = " ++ [LF; TAB] ++ lit "{" ++ [LF; TAB; TAB]
  ++ lit "[" ++ quoted "Year" ++ lit "] = 2016," ++ [LF; TAB; TAB]
  ++ lit "[" ++ quoted "Day" ++ lit "] = 21," ++ [LF; TAB; TAB]
  ++ lit "[" ++ quoted "Month" ++ lit "] = 6," ++ [LF; TAB]
  ++ lit "}, -- end of " ++ DATE_LABEL.

Definition block_day_first_compact : str :=
  DATE_LABEL ++ lit "={[" ++ quoted "Day" ++ lit "]=21,[" ++ quoted "Month"
  ++ lit "]=6,[" ++ quoted "Year" ++ lit "]=2016}," ++ [LF].

Definition two_blocks (first : str) : str :=
  lit "mission = {" ++ first ++ lit "x = 1," ++ [LF] ++ block_year_first ++ [LF]
  ++ lit "}".

(** A configuration for the winter season with a bad-weather weight of
    30, weather rotation enabled or not. *)
Definition a_config (enabled : bool) : config :=
  {| weather_rotation_enabled := enabled;
     mission_path := lit "C:/Missions/persist.miz";
     weather_season := lit "winter";
     weather_bad_weather_percentage := Some 30 |}.

(** A weather block with nested groups, a template for each directory,
    and a descriptor that holds a date block, a weather block and two
    start_time fields. *)
Definition a_weather_block : str :=
  WEATHER_LABEL ++ lit " = " ++ [LF; TAB] ++ lit "{" ++ [LF; TAB; TAB]
  ++ lit "[" ++ quoted "wind" ++ lit "] = " ++ [LF; TAB; TAB] ++ lit "{" ++ [LF; TAB; TAB; TAB]
  ++ lit "[" ++ quoted "speed" ++ lit "] = 3," ++ [LF; TAB; TAB]
  ++ lit "}, -- end of [" ++ quoted "wind" ++ lit "]" ++ [LF; TAB]
  ++ lit "}, -- end of " ++ WEATHER_LABEL.

Definition a_template (dir : weather_dir) : str :=
  WEATHER_LABEL ++ lit " = " ++ [LF; TAB] ++ lit "{" ++ [LF; TAB; TAB]
  ++ lit "[" ++ quoted "name" ++ lit "] = "
  ++ match dir with
     | BAD_WEATHER_DIR => quoted "storm"
     | GOOD_WEATHER_DIR => quoted "clear sky"
     end
  ++ lit "," ++ [LF; TAB] ++ lit "}, -- end of " ++ WEATHER_LABEL.

Definition a_descriptor : str :=
  lit "mission = {" ++ block_year_first ++ [LF; TAB] ++ a_weather_block ++ [LF]
  ++ [TAB; TAB] ++ lit "[" ++ quoted "start_time" ++ lit "] = 100," ++ [LF]
  ++ [TAB] ++ lit "[" ++ quoted "start_time" ++ lit "] = 36000," ++ [LF]
  ++ lit "} -- end of mission" ++ [LF].

(** A world in which every step that is not a parameter succeeds. *)
Definition a_world (archive_exists : bool) (procs : list process)
    (extract_returncode : Z) (cfg : config) : world :=
  {| path_exists := λ _, archive_exists;
     processes := procs;
     kill_raises := λ _, false;
     run_raises := λ _, false;
     returncode := λ c, match c with Extract => extract_returncode | Update => 0 end;
     mission_extracted := true;
     mission_text := Some a_descriptor;
     write_raises := false;
     popen_raises := false;
     config_file := Loaded cfg;
     today := (2026, 11, 3);
     entropy_roll := 41;
     entropy_choice := 0;
     weather_files := λ dir, Some [Some (a_template dir)];
     expand_template := λ _, None |}.

(** The same world without the archive tool. *)
Definition tool_absent (w : world) : world :=
  {| path_exists := path_exists w;
     processes := processes w;
     kill_raises := kill_raises w;
     run_raises := λ _, true;
     returncode := returncode w;
     mission_extracted := mission_extracted w;
     mission_text := mission_text w;
     write_raises := write_raises w;
     popen_raises := popen_raises w;
     config_file := config_file w;
     today := today w;
     entropy_roll := entropy_roll w;
     entropy_choice := entropy_choice w;
     weather_files := weather_files w;
     expand_template := expand_template w |}.

(** A process table with the server running as process 4242. *)
Definition server_running : list process :=
  [ {| pid := 4; name := Some (lit "System") |};
    {| pid := 4242; name := Some (lit "DCS_server.exe") |} ].

(** A process table where a process whose name only contains the
    executable name comes before the server itself. *)
Definition namesake_first : list process :=
  [ {| pid := 17; name := Some (lit "My_DCS_server.exe") |};
    {| pid := 4242; name := Some (lit "DCS_server.exe") |} ].

(** A dashboard that shows the expected mission and the given time. *)
Definition a_browser (time_text : str) : browser :=
  {| driver_starts := true;
     server_detected_text := Some (lit "Server detected");
     connect_clicked := true;
     mission_filename_text := Some (lit "C:\Missions\Persist.miz");
     mission_time_text := Some time_text |}.

(** The configuration of [main] with both workflows enabled, a dashboard
    that shows another mission than the configured one, and a world of
    [main] in which every step succeeds, the server running before each
    workflow. *)
Definition both_enabled : main_config :=
  {| cfg_mission_path := lit "C:/Missions/persist.miz";
     cfg_hour_persistence_enabled := true;
     cfg_weather_rotation_enabled := true |}.

Definition another_mission : browser :=
  {| driver_starts := true;
     server_detected_text := Some (lit "Server detected");
     connect_clicked := true;
     mission_filename_text := Some (lit "C:\Missions\Training.miz");
     mission_time_text := Some (lit "01:00:00") |}.




Definition a_main_world (b : browser) : main_world :=
  {| main_config_file := Some (Object both_enabled);
     dashboard := b;
     save_raises := false;
     during_time_update := a_world true server_running 0 (a_config true);
     during_weather_rotation := a_world true server_running 0 (a_config true) |}.

(** * Properties *)

(** ** Lines and line boundaries *)

Lemma splitlines_one_line (s : str) : Forall one_line (splitlines s).
Proof.
  assert (H : ∀ n (s : str), (length s < n)%nat → Forall one_line (splitlines s)).
  { induction n as [|n IH]; intros t Hn; [lia|].
    destruct t as [|c t]; simpl; [constructor|].
    simpl in Hn.
    destruct (is_linebreak c) eqn:Hc.
    - assert (Ht : Forall one_line (splitlines t)) by (apply IH; lia).
      destruct (Ascii.eqb c CR); [|by repeat constructor].
      destruct t as [|d t']; [by repeat constructor|].
      destruct (Ascii.eqb d LF); [|by repeat constructor].
      constructor; [constructor|]. apply IH. simpl in Hn. lia.
    - assert (Ht : Forall one_line (splitlines t)) by (apply IH; lia).
      destruct (splitlines t) as [|l ls]; [by repeat constructor|].
      inversion Ht; subst. constructor; [by constructor|done]. }
  by apply (H (S (length s))); lia.
Qed.

Lemma splitlines_line (p : str) :
  one_line p → p ≠ [] → splitlines p = [p].
Proof.
  induction p as [|c p IH]; [done|]. intros Hp _.
  inversion Hp as [|? ? Hc Hp']; subst. simpl. rewrite Hc.
  destruct p as [|d p]; [done|]. by rewrite IH.
Qed.

Lemma splitlines_line_LF (p s : str) :
  one_line p → splitlines (p ++ LF :: s) = p :: splitlines s.
Proof.
  induction p as [|c p IH]; intros Hp; [done|].
  inversion Hp as [|? ? Hc Hp']; subst. simpl. rewrite Hc.
  by rewrite IH.
Qed.

(** Joining lines with LF and splitting again gives the lines back, as
    long as the last one is not empty. *)
Lemma splitlines_join (ls : list str) :
  Forall one_line ls → last ls ≠ Some [] → splitlines (join [LF] ls) = ls.
Proof.
  induction ls as [|p ps IH]; [done|]. intros Hls Hlast.
  inversion Hls as [|? ? Hp Hps]; subst.
  destruct ps as [|q ps].
  - simpl. apply splitlines_line; [done|]. intros ->. by apply Hlast.
  - change (join [LF] (p :: q :: ps)) with (p ++ LF :: join [LF] (q :: ps)).
    rewrite splitlines_line_LF by done. f_equal. apply IH; [done|].
    by rewrite last_cons_cons in Hlast.
Qed.

(** A final empty line is the only thing the round trip loses. *)
Lemma splitlines_join_empty_last (ls : list str) :
  Forall one_line ls → ls ≠ [] →
  splitlines (join [LF] (ls ++ [[]])) = ls.
Proof.
  induction ls as [|p ps IH]; [done|]. intros Hls _.
  inversion Hls as [|? ? Hp Hps]; subst.
  destruct ps as [|q ps].
  - simpl. rewrite splitlines_line_LF by done. done.
  - change (join [LF] ((p :: q :: ps) ++ [[]]))
      with (p ++ LF :: join [LF] ((q :: ps) ++ [[]])).
    rewrite splitlines_line_LF by done. f_equal. by apply IH.
Qed.

Lemma string_of_uint_chars (d : Decimal.uint) :
  Forall (λ c, is_digit c = true)
    (list_ascii_of_string (NilEmpty.string_of_uint d)).
Proof. induction d; simpl; by repeat constructor. Qed.

(** The decimal text of an integer: digits, after a minus sign at most. *)
Lemma of_Z_chars (n : Z) :
  Forall (λ c, is_digit c = true ∨ c = "-"%char) (of_Z n).
Proof.
  unfold of_Z, lit, NilZero.string_of_int.
  assert (Hu : ∀ d, Forall (λ c, is_digit c = true ∨ c = "-"%char)
                      (list_ascii_of_string (NilZero.string_of_uint d))).
  { intros d. unfold NilZero.string_of_uint.
    destruct d; try (eapply Forall_impl; [apply string_of_uint_chars|naive_solver]).
    repeat constructor. }
  destruct (Z.to_int n); simpl; [apply Hu|].
  constructor; [by right|apply Hu].
Qed.

Lemma of_Z_one_line (n : Z) : one_line (of_Z n).
Proof.
  eapply Forall_impl; [apply of_Z_chars|]. intros c [Hc | ->]; [|done].
  unfold is_digit, is_linebreak in *. char_cases.
Qed.

Lemma start_time_line_one_line (v : Z) : one_line (start_time_line v).
Proof.
  unfold start_time_line, one_line.
  constructor; [done|]. rewrite !Forall_app.
  split_and!; try by (vm_compute; repeat constructor).
  apply of_Z_one_line.
Qed.

Lemma start_time_line_has_marker (v : Z) : has_start_time (start_time_line v) = true.
Proof. done. Qed.

(** ** The two loops over the lines *)

Lemma index_loop_no_marker i last (lines : list str) :
  no_marker lines → index_loop i last lines = last.
Proof.
  intros H. revert i. induction H as [|l ls Hl _ IH]; intros i; [done|].
  simpl. by rewrite Hl, IH.
Qed.

Lemma index_loop_app i last (l1 l2 : list str) :
  index_loop i last (l1 ++ l2)
  = index_loop (i + length l1) (index_loop i last l1) l2.
Proof.
  revert i last. induction l1 as [|l l1 IH]; intros i last; simpl.
  - by rewrite Nat.add_0_r.
  - rewrite IH. f_equal. lia.
Qed.

(** What [index_loop] answers: the state it started from when no line
    has the marker, else the position of the last line that has it. *)
Lemma index_loop_inv i last (lines : list str) r :
  index_loop i last lines = r →
  (r = last ∧ no_marker lines) ∨
  (∃ l1 line l2, lines = l1 ++ line :: l2 ∧ r = Some (i + length l1)%nat
     ∧ has_start_time line = true ∧ no_marker l2).
Proof.
  revert i last. induction lines as [|l ls IH]; intros i last Hr; simpl in Hr.
  - left. by split.
  - apply IH in Hr as [[-> Hls] | (l1 & line & l2 & -> & -> & Hline & Hl2)].
    + destruct (has_start_time l) eqn:Hl.
      * right. exists [], l, ls. simpl. rewrite Nat.add_0_r. done.
      * left. split; [done|]. by constructor.
    + right. exists (l :: l1), line, l2. simpl.
      split_and!; try done. f_equal. lia.
Qed.

Lemma last_index_Some (lines : list str) k :
  last_start_time_index lines = Some k ↔
  ∃ l1 line l2, lines = l1 ++ line :: l2 ∧ k = length l1
     ∧ has_start_time line = true ∧ no_marker l2.
Proof.
  unfold last_start_time_index. split.
  - intros H. apply index_loop_inv in H as [[? _] | (l1 & line & l2 & ? & ? & ? & ?)];
      [done|]. simplify_eq/=. by exists l1, line, l2.
  - intros (l1 & line & l2 & -> & -> & Hline & Hl2).
    rewrite index_loop_app. simpl. rewrite Hline.
    by rewrite index_loop_no_marker.
Qed.

Lemma last_index_None (lines : list str) :
  last_start_time_index lines = None ↔ no_marker lines.
Proof.
  unfold last_start_time_index. split.
  - intros H. by apply index_loop_inv in H as [[_ ?] | (? & ? & ? & ? & ? & _)].
  - apply index_loop_no_marker.
Qed.

Lemma parse_loop_no_value last (lines : list str) :
  no_value lines → parse_loop last lines = last.
Proof.
  intros H. revert last. induction H as [|l ls Hl _ IH]; intros last; [done|].
  simpl. destruct (has_start_time l); [|done]. by rewrite Hl.
Qed.

Lemma parse_loop_app last (l1 l2 : list str) :
  parse_loop last (l1 ++ l2) = parse_loop (parse_loop last l1) l2.
Proof.
  revert last. induction l1 as [|l l1 IH]; intros last; [done|].
  simpl. destruct (has_start_time l); [|done]. by destruct (line_value l).
Qed.

(** What [parse_loop] answers: its starting state when no marker line
    has a value, else the value of the last marker line that has one. *)
Lemma parse_loop_inv last (lines : list str) r :
  parse_loop last lines = r →
  (r = last ∧ no_value lines) ∨
  (∃ l1 line l2 v, lines = l1 ++ line :: l2 ∧ r = Some v
     ∧ has_start_time line = true ∧ line_value line = Some v ∧ no_value l2).
Proof.
  revert last. induction lines as [|l ls IH]; intros last Hr; simpl in Hr.
  - left. by split.
  - destruct (has_start_time l) eqn:Hl; [destruct (line_value l) as [v|] eqn:Hv|].
    + apply IH in Hr as [[-> Hls] | (l1 & line & l2 & v' & -> & -> & ? & ? & ?)].
      * right. by exists [], l, ls, v.
      * right. by exists (l :: l1), line, l2, v'.
    + apply IH in Hr as [[-> Hls] | (l1 & line & l2 & v' & -> & -> & ? & ? & ?)].
      * left. split; [done|]. by constructor.
      * right. by exists (l :: l1), line, l2, v'.
    + apply IH in Hr as [[-> Hls] | (l1 & line & l2 & v' & -> & -> & ? & ? & ?)].
      * left. split; [done|]. constructor; [congruence|done].
      * right. by exists (l :: l1), line, l2, v'.
Qed.

Lemma parse_last_value (l1 l2 : list str) line v :
  has_start_time line = true → line_value line = Some v → no_value l2 →
  parse_loop None (l1 ++ line :: l2) = Some v.
Proof.
  intros Hline Hv Hl2. rewrite parse_loop_app. simpl. rewrite Hline, Hv.
  by apply parse_loop_no_value.
Qed.

Lemma no_marker_no_value (lines : list str) : no_marker lines → no_value lines.
Proof. intros H. eapply Forall_impl; [exact H|]. simpl. congruence. Qed.

Lemma parse_None (text : str) :
  _parse_start_time text = None ↔ no_value (splitlines text).
Proof.
  unfold _parse_start_time. split.
  - intros H. by apply parse_loop_inv in H as [[_ ?] | (? & ? & ? & ? & _ & ? & _)].
  - apply parse_loop_no_value.
Qed.

(** ** Reading back the start time written *)

Lemma int_digits_acc (d : Decimal.uint) (acc : positive) :
  int_digits (Zpos acc) true (chars d) = Some (Zpos (Pos.of_uint_acc d acc)).
Proof.
  revert acc. induction d; intros acc; simpl; try done;
    unfold chars in *; rewrite <- IHd; f_equal; unfold digit_val; simpl; lia.
Qed.

Lemma int_digits_uint (d : Decimal.uint) :
  int_digits 0 true (chars d) = Some (Z.of_N (Pos.of_uint d)).
Proof.
  induction d; simpl; try done; try (change 0 with (Z.of_N 0)); 
   try (unfold chars; simpl; rewrite <- int_digits_acc; done).
Qed.

Lemma chars_digits (d : Decimal.uint) : Forall (λ c, is_digit c = true) (chars d).
Proof. apply string_of_uint_chars. Qed.

Lemma int_digits_start a (s : str) :
  match s with c :: _ => is_digit c = true | [] => False end →
  int_digits a false s = int_digits a true s.
Proof. destruct s as [|c s]; [done|]. simpl. by intros ->. Qed.

Lemma int_lskip_id (s : str) :
  match s with c :: _ => int_isspace c = false | [] => True end → int_lskip s = s.
Proof. destruct s as [|c s]; [done|]. simpl. by intros ->. Qed.

Lemma digit_not_int_space c : is_digit c = true → int_isspace c = false.
Proof. unfold is_digit, int_isspace. char_cases. Qed.

Lemma digit_not_space c : is_digit c = true → isspace c = false.
Proof. unfold is_digit, isspace. char_cases. Qed.

(** [int] reads a numeral without sign or blanks digit by digit. *)
Lemma py_int_digits (s : str) :
  s ≠ [] → Forall (λ c, is_digit c = true) s →
  py_int s = int_digits 0 true s.
Proof.
  intros Hne Hs. unfold py_int.
  assert (Hskip : ∀ t : str, t ≠ [] → Forall (λ c, is_digit c = true) t → int_lskip t = t).
  { intros t Ht Hd. apply int_lskip_id. destruct Hd; [done|]. by apply digit_not_int_space. }
  rewrite (Hskip s) by done.
  rewrite (Hskip (rev s)); [|intros Hr; apply (f_equal (@rev _)) in Hr; by rewrite rev_involutive in Hr|by apply Forall_rev].
  rewrite rev_involutive.
  destruct s as [|c s]; [done|]. inversion Hs as [|? ? Hc Hs']; subst.
  assert (Ascii.eqb c "-" = false ∧ Ascii.eqb c "+" = false) as [-> ->].
  { split; apply Ascii.eqb_neq; intros ->; done. }
  apply int_digits_start. done.
Qed.

Lemma chars_nonempty d : d ≠ Decimal.Nil → chars d ≠ [].
Proof. by destruct d. Qed.

(** [int(str(n)) == n]. *)
Lemma py_int_of_Z (n : Z) : py_int (of_Z n) = Some n.
Proof.
  unfold of_Z, lit. destruct n as [|p|p]; simpl.
  - done.
  - pose proof (DecimalPos.Unsigned.to_uint_nonnil p) as Hnil.
    unfold NilZero.string_of_uint.
    destruct (Pos.to_uint p) eqn:Hp; try done;
      rewrite <- Hp; fold (chars (Pos.to_uint p));
      (rewrite py_int_digits; [|apply chars_nonempty; congruence|apply chars_digits]);
      by rewrite int_digits_uint, DecimalPos.Unsigned.of_to.
  - pose proof (DecimalPos.Unsigned.to_uint_nonnil p) as Hnil.
    unfold NilZero.string_of_uint.
    assert (H : list_ascii_of_string
                  match Pos.to_uint p with Decimal.Nil => "0"%string
                  | _ => NilEmpty.string_of_uint (Pos.to_uint p) end
                = chars (Pos.to_uint p)).
    { by destruct (Pos.to_uint p). }
    rewrite H. clear H.
    pose proof (chars_digits (Pos.to_uint p)) as Hd.
    pose proof (chars_nonempty _ Hnil) as Hne.
    pose proof (int_digits_uint (Pos.to_uint p)) as Hv.
    rewrite DecimalPos.Unsigned.of_to in Hv.
    generalize dependent (chars (Pos.to_uint p)). intros s Hd Hne Hv.
    unfold py_int. simpl int_lskip.
    assert (Hrev : int_lskip (rev s ++ ["-"%char]) = rev s ++ ["-"%char]).
    { apply int_lskip_id. destruct (rev s) as [|c r] eqn:Hr; [done|]. simpl.
      apply digit_not_int_space.
      apply Forall_rev in Hd. rewrite Hr in Hd. by inversion Hd. }
    change (rev ("-"%char :: s)) with (rev s ++ ["-"%char]).
    rewrite Hrev, rev_app_distr, rev_involutive. simpl.
    destruct s as [|c s]; [done|]. inversion Hd; subst.
    rewrite int_digits_start by done. by rewrite Hv.
Qed.

Lemma split_no_sep sep (s : str) :
  Forall (λ c, c ≠ sep) s → split sep s = [s].
Proof.
  induction 1 as [|c s Hc _ IH]; [done|]. simpl.
  rewrite (proj2 (Ascii.eqb_neq c sep)) by done. by rewrite IH.
Qed.

Lemma split_app_sep sep (a b : str) :
  Forall (λ c, c ≠ sep) a → split sep (a ++ sep :: b) = a :: split sep b.
Proof.
  induction 1 as [|c a Hc _ IH]; simpl.
  - by rewrite Ascii.eqb_refl.
  - rewrite (proj2 (Ascii.eqb_neq c sep)) by done. by rewrite IH.
Qed.

Lemma lstrip_id (s : str) :
  match s with c :: _ => isspace c = false | [] => True end → lstrip s = s.
Proof. destruct s as [|c s]; [done|]. simpl. by intros ->. Qed.

Lemma rstrip_snoc (s : str) c : isspace c = false → rstrip (s ++ [c]) = s ++ [c].
Proof.
  intros Hc. unfold rstrip. rewrite rev_app_distr. simpl. rewrite Hc.
  simpl. by rewrite rev_involutive.
Qed.

Lemma of_Z_nonempty (n : Z) : of_Z n ≠ [].
Proof.
  intros H. pose proof (py_int_of_Z n) as Hn. rewrite H in Hn. done.
Qed.

Lemma of_Z_no (c : ascii) (n : Z) :
  is_digit c = false → c ≠ "-"%char → Forall (λ d, d ≠ c) (of_Z n).
Proof.
  intros Hc Hm. eapply Forall_impl; [apply of_Z_chars|].
  intros d [Hd | Hd] He; subst; congruence.
Qed.

Lemma of_Z_no_space (n : Z) : Forall (λ c, isspace c = false) (of_Z n).
Proof.
  eapply Forall_impl; [apply of_Z_chars|].
  intros d [Hd | Hd]; [by apply digit_not_space|by subst].
Qed.

Lemma strip_of_Z (n : Z) (ws : str) : 
  Forall (λ c, isspace c = true) ws → strip (ws ++ of_Z n) = of_Z n.
Proof.
  intros Hws. unfold strip.
  assert (Hl : lstrip (ws ++ of_Z n) = of_Z n).
  { induction Hws as [|c ws Hc _ IH]; simpl.
    - apply lstrip_id. pose proof (of_Z_no_space n) as H.
      by destruct H.
    - by rewrite Hc. }
  rewrite Hl.
  pose proof (of_Z_nonempty n) as Hne. pose proof (of_Z_no_space n) as Hsp.
  destruct (exists_last Hne) as (s & c & Heq). rewrite Heq in *.
  apply rstrip_snoc. apply Forall_app in Hsp as [_ Hc]. by inversion Hc.
Qed.

(** The canonical line reads back as the value it was written with. *)
Lemma line_value_start_time_line (v : Z) : line_value (start_time_line v) = Some v.
Proof.
  unfold line_value, start_time_line.
  assert (Hstrip : strip (TAB :: lit "[" ++ quoted "start_time" ++ lit "] = " ++ of_Z v ++ lit ",")
                   = (lit "[" ++ quoted "start_time" ++ lit "] ") ++ "="%char :: (lit " " ++ of_Z v) ++ [","%char]).
  { unfold strip. change (lstrip (TAB :: ?s)) with (lstrip s).
    rewrite lstrip_id by done.
    replace (lit "[" ++ quoted "start_time" ++ lit "] = " ++ of_Z v ++ lit ",")
      with ((lit "[" ++ quoted "start_time" ++ lit "] = " ++ of_Z v) ++ [","%char])
      by (by rewrite <- !app_assoc).
    rewrite rstrip_snoc by done. by rewrite <- !app_assoc. }
  rewrite Hstrip.
  rewrite split_app_sep by (by vm_compute; repeat constructor).
  rewrite split_no_sep; last first.
  { rewrite !Forall_app. split_and!; [by repeat constructor|by apply of_Z_no|by repeat constructor]. }
  rewrite split_app_sep; last first.
  { rewrite Forall_app. split; [by repeat constructor|by apply of_Z_no]. }
  rewrite (strip_of_Z v (lit " ")) by (by repeat constructor).
  apply py_int_of_Z.
Qed.

(** The lines of the text [_replace_start_time] returns: those of the
    input with the last marker line replaced, without a final empty
    line. *)
Lemma splitlines_replaced (text : str) (v : Z) (l1 l2 : list str) line :
  splitlines text = l1 ++ line :: l2 →
  has_start_time line = true → no_marker l2 →
  _replace_start_time text v = join [LF] (l1 ++ start_time_line v :: l2)
  ∧ ∃ l2', splitlines (_replace_start_time text v) = l1 ++ start_time_line v :: l2'
           ∧ no_marker l2'
           ∧ (last (splitlines text) ≠ Some [] → l2' = l2).
Proof.
  intros Hlines Hline Hl2.
  assert (Hk : last_start_time_index (splitlines text) = Some (length l1)).
  { apply last_index_Some. by exists l1, line, l2. }
  assert (Hout : _replace_start_time text v = join [LF] (l1 ++ start_time_line v :: l2)).
  { unfold _replace_start_time. rewrite Hk, Hlines.
    by rewrite insert_app_r_alt, Nat.sub_diag by lia. }
  split; [done|]. rewrite Hout.
  assert (Hone : Forall one_line (l1 ++ start_time_line v :: l2)).
  { pose proof (splitlines_one_line text) as H. rewrite Hlines in H.
    apply Forall_app in H as [H1 H2]. inversion H2; subst.
    apply Forall_app. split; [done|]. constructor; [apply start_time_line_one_line|done]. }
  destruct (decide (last (l1 ++ start_time_line v :: l2) = Some [])) as [Hlast | Hlast].
  - apply last_Some in Hlast as [l' Hl'].
    destruct (decide (l2 = [])) as [-> | Hne].
    { apply (f_equal last) in Hl'. rewrite !last_snoc in Hl'. done. }
    destruct (exists_last Hne) as (l2' & e & ->).
    rewrite app_comm_cons, app_assoc in Hl'.
    apply app_inj_tail in Hl' as [<- ->].
    exists l2'. split_and!.
    + rewrite app_comm_cons, app_assoc.
      rewrite splitlines_join_empty_last; [done| |by destruct l1].
      rewrite app_comm_cons, app_assoc in Hone. by apply Forall_app in Hone as [? _].
    + by apply Forall_app in Hl2 as [? _].
    + intros Hn. exfalso. apply Hn. rewrite Hlines.
      by rewrite app_comm_cons, app_assoc, last_snoc.
  - exists l2. split_and!; try done. by apply splitlines_join.
Qed.

Lemma parse_Some_split (text : str) (cur : Z) :
  _parse_start_time text = Some cur →
  ∃ l1 line l2, splitlines text = l1 ++ line :: l2
    ∧ has_start_time line = true ∧ no_marker l2.
Proof.
  intros H. apply parse_loop_inv in H as [[? _] | (l1 & line & l2 & v & Hl & _ & Hm & _ & _)];
    [done|].
  destruct (last_start_time_index (splitlines text)) as [k|] eqn:Hk.
  - apply last_index_Some in Hk as (a & b & c & ? & ? & ? & ?). by exists a, b, c.
  - apply last_index_None in Hk. rewrite Hl in Hk.
    apply Forall_app in Hk as [_ Hk]. inversion Hk; congruence.
Qed.

(** Reading back what [_replace_start_time] wrote. *)
Lemma parse_replaced (text : str) (v : Z) (l1 l2 : list str) line :
  splitlines text = l1 ++ line :: l2 →
  has_start_time line = true → no_marker l2 →
  _parse_start_time (_replace_start_time text v) = Some v.
Proof.
  intros Hlines Hline Hl2.
  destruct (splitlines_replaced text v l1 l2 line Hlines Hline Hl2)
    as (_ & l2' & Hsplit & Hl2' & _).
  unfold _parse_start_time. rewrite Hsplit.
  apply parse_last_value; [done|apply line_value_start_time_line|by apply no_marker_no_value].
Qed.

(** The start_time step, when it succeeds: the value read, and the value
    read back from the text it returns. *)
Lemma update_reads_back (text : str) (d : Z) (new_text : str) :
  start_time_update text d = inr new_text →
  ∃ current l1 line l2,
    _parse_start_time text = Some current
    ∧ splitlines text = l1 ++ line :: l2
    ∧ has_start_time line = true ∧ no_marker l2
    ∧ new_text = _replace_start_time text ((current + d) mod 86400)
    ∧ _parse_start_time new_text = Some ((current + d) mod 86400).
Proof.
  unfold start_time_update. destruct (_parse_start_time text) as [cur|] eqn:Hcur; [|done].
  intros [= <-].
  pose proof Hcur as (l1 & line & l2 & Hlines & Hline & Hl2)%parse_Some_split.
  exists cur, l1, line, l2. split_and!; try done.
  change (MAX_TIME + 1) with 86400. by eapply parse_replaced.
Qed.

(** ** The start_time update *)

(** The value taken is that of the last marker line with a readable
    integer, and the line rewritten is the last marker line. *)
Lemma start_time_update_value (text : str) (d : Z) l1 line l2 v :
  splitlines text = l1 ++ line :: l2 →
  has_start_time line = true → line_value line = Some v → no_value l2 →
  start_time_update text d
  = inr (_replace_start_time text ((v + d) mod 86400)).
Proof.
  intros Hlines Hline Hv Hl2. unfold start_time_update, _parse_start_time.
  rewrite Hlines. by erewrite parse_last_value.
Qed.

(** C1: when the last start_time line of the descriptor reads [v], with
    0 ≤ v ≤ 86399, and the delta is [d] ≥ 0, the update writes on that
    line the canonical text with the decimal numeral of (v + d) mod 86400:
    the line and the text returned read back as that value, which lies
    in 0..86399 however large [d] is. *)
Theorem start_time_wraps (text : str) (k : nat) (line : str) (v d : Z) :
  last_start_time_index (splitlines text) = Some k →
  splitlines text !! k = Some line →
  line_value line = Some v →
  0 ≤ v ≤ 86399 →
  0 ≤ d →
  let new_value := (v + d) mod 86400 in
  let written :=
    [TAB] ++ lit "[" ++ quoted "start_time" ++ lit "] = " ++ of_Z new_value ++ lit "," in
  start_time_update text d = inr (join [LF] (<[k := written]> (splitlines text)))
  ∧ py_int (of_Z new_value) = Some new_value
  ∧ line_value written = Some new_value
  ∧ _parse_start_time (join [LF] (<[k := written]> (splitlines text))) = Some new_value
  ∧ 0 ≤ new_value ≤ 86399.
Proof.
  intros Hk Hline Hv _ _ new_value written.
  pose proof Hk as Hk'.
  apply last_index_Some in Hk' as (l1 & line' & l2 & Hlines & -> & Hmark & Hl2).
  rewrite Hlines in Hline. rewrite list_lookup_middle in Hline by done.
  injection Hline as ->.
  assert (Hout : start_time_update text d
                 = inr (join [LF] (<[length l1 := written]> (splitlines text)))).
  { erewrite start_time_update_value; eauto using no_marker_no_value.
    unfold _replace_start_time. by rewrite Hk. }
  split_and!.
  - exact Hout.
  - apply py_int_of_Z.
  - apply (line_value_start_time_line new_value).
  - destruct (update_reads_back text d _ Hout)
      as (cur & _ & _ & _ & Hcur & _ & _ & _ & _ & Hback).
    assert (cur = v) as ->; [|exact Hback].
    unfold _parse_start_time in Hcur. rewrite Hlines in Hcur.
    erewrite parse_last_value in Hcur; eauto using no_marker_no_value. congruence.
  - pose proof (Z.mod_pos_bound (v + d) 86400). unfold new_value. lia.
  - pose proof (Z.mod_pos_bound (v + d) 86400). unfold new_value. lia.
Qed.

Lemma start_time_wraps_witness :
  last_start_time_index (splitlines scenario_A) = Some 2%nat
  ∧ splitlines scenario_A !! 2%nat
    = Some (TAB :: lit "[" ++ quoted "start_time" ++ lit "] = 36000,")
  ∧ start_time_update scenario_A 90000
    = inr (join [LF]
             (<[2%nat := [TAB] ++ lit "[" ++ quoted "start_time" ++ lit "] = "
                         ++ of_Z ((36000 + 90000) mod 86400) ++ lit ","]>
                (splitlines scenario_A)))
  ∧ _parse_start_time
      (join [LF]
         (<[2%nat := [TAB] ++ lit "[" ++ quoted "start_time" ++ lit "] = "
                     ++ of_Z ((36000 + 90000) mod 86400) ++ lit ","]>
            (splitlines scenario_A)))
    = Some ((36000 + 90000) mod 86400)
  ∧ (36000 + 90000) mod 86400 = 39600.
Proof.
  split; [reflexivity|]. split; [reflexivity|].
  pose proof (start_time_wraps scenario_A 2
                (TAB :: lit "[" ++ quoted "start_time" ++ lit "] = 36000,") 36000 90000
                eq_refl eq_refl eq_refl ltac:(lia) ltac:(lia)) as (H1 & _ & _ & H2 & _).
  split; [exact H1|]. split; [exact H2|]. reflexivity.
Defined.

(** The lines of the text returned: in a descriptor with at least one
    marker line, the line at the last marker index is the canonical line
    and every other line is as it was; the text returned is these lines
    joined by LF (so that splitting it again gives them back, up to a
    final empty line). *)
Theorem replace_only_last_line (text : str) (new_value : Z) :
  Exists (λ l, has_start_time l = true) (splitlines text) →
  ∃ k : nat,
    let lines := splitlines text in
    let lines' := <[k := start_time_line new_value]> lines in
    last_start_time_index lines = Some k
    ∧ (∃ l, lines !! k = Some l ∧ has_start_time l = true)
    ∧ (∀ i l, (k < i)%nat → lines !! i = Some l → has_start_time l = false)
    ∧ _replace_start_time text new_value = join [LF] lines'
    ∧ length lines' = length lines
    ∧ lines' !! k = Some (start_time_line new_value)
    ∧ (∀ i, i ≠ k → lines' !! i = lines !! i)
    ∧ (last lines ≠ Some [] →
       splitlines (_replace_start_time text new_value) = lines')
    ∧ (last lines = Some [] →
       splitlines (_replace_start_time text new_value) ++ [[]] = lines').
Proof.
  intros Hex.
  destruct (last_start_time_index (splitlines text)) as [k|] eqn:Hk; last first.
  { apply last_index_None in Hk. apply Exists_exists in Hex as (l & Hl & Hm).
    rewrite Forall_forall in Hk. specialize (Hk l Hl). congruence. }
  exists k. simpl.
  pose proof Hk as (l1 & line & l2 & Hlines & -> & Hmark & Hl2)%last_index_Some.
  assert (Hlen : (length l1 < length (splitlines text))%nat).
  { rewrite Hlines, length_app. simpl. lia. }
  assert (Hrepl : _replace_start_time text new_value
            = join [LF] (<[length l1 := start_time_line new_value]> (splitlines text))).
  { unfold _replace_start_time. by rewrite Hk. }
  assert (Hone : Forall one_line
            (<[length l1 := start_time_line new_value]> (splitlines text))).
  { apply Forall_insert;
      [apply splitlines_one_line | apply start_time_line_one_line]. }
  split_and!.
  - done.
  - exists line. by rewrite Hlines, list_lookup_middle.
  - intros i l Hi Hl. rewrite Hlines in Hl.
    rewrite lookup_app_r in Hl by lia.
    destruct (i - length l1)%nat as [|j] eqn:Hj; [lia|]. simpl in Hl.
    rewrite Forall_forall in Hl2. apply Hl2. by eapply list_elem_of_lookup_2.
  - done.
  - apply length_insert.
  - by apply list_lookup_insert_eq.
  - intros i Hi. by apply list_lookup_insert_ne.
  - intros Hlast. rewrite Hrepl. apply splitlines_join; [done|].
    rewrite Hlines in *. rewrite insert_app_r_alt, Nat.sub_diag by lia. simpl.
    destruct l2 as [|l l2].
    + rewrite last_snoc. by intros [=].
    + rewrite !last_app in Hlast |- *. simpl in *.
      by rewrite !last_cons in Hlast |- *.
  - intros Hlast. rewrite Hrepl.
    rewrite Hlines in *. rewrite insert_app_r_alt, Nat.sub_diag by lia.
    simpl in *.
    destruct (decide (l2 = [])) as [-> | Hne].
    { rewrite last_snoc in Hlast. injection Hlast as ->. done. }
    destruct (exists_last Hne) as (l2' & e & ->).
    rewrite app_comm_cons, app_assoc, last_snoc in Hlast. injection Hlast as ->.
    rewrite app_comm_cons, app_assoc.
    rewrite splitlines_join_empty_last; [done| |by destruct l1].
    rewrite insert_app_r_alt, Nat.sub_diag in Hone by lia. simpl in Hone.
    rewrite app_comm_cons, app_assoc in Hone.
    by apply Forall_app in Hone as [? _].
Qed.

Lemma replace_only_last_line_witness :
  Exists (λ l, has_start_time l = true) (splitlines scenario_A)
  ∧ ∃ k : nat,
      let lines := splitlines scenario_A in
      let lines' := <[k := start_time_line 39600]> lines in
      last_start_time_index lines = Some k
      ∧ (∃ l, lines !! k = Some l ∧ has_start_time l = true)
      ∧ (∀ i l, (k < i)%nat → lines !! i = Some l → has_start_time l = false)
      ∧ _replace_start_time scenario_A 39600 = join [LF] lines'
      ∧ length lines' = length lines
      ∧ lines' !! k = Some (start_time_line 39600)
      ∧ (∀ i, i ≠ k → lines' !! i = lines !! i)
      ∧ (last lines ≠ Some [] →
         splitlines (_replace_start_time scenario_A 39600) = lines')
      ∧ (last lines = Some [] →
         splitlines (_replace_start_time scenario_A 39600) ++ [[]] = lines').
Proof.
  assert (H : Exists (λ l, has_start_time l = true) (splitlines scenario_A)).
  { apply Exists_exists.
    exists (TAB :: lit "[" ++ quoted "start_time" ++ lit "] = 36000,").
    split; [|reflexivity]. vm_compute. do 2 right. left. }
  split; [exact H|]. exact (replace_only_last_line scenario_A 39600 H).
Defined.

(** C2: the text returned is rebuilt from the lines with LF between
    them, so bytes outside the rewritten line change.  On scenario A the
    line feed that ends the descriptor is lost; on a descriptor with CRLF
    line ends and a form feed inside a line, every CRLF and the form feed
    come back as LF. *)
Lemma other_lines_rewritten :
  scenario_A
  = lit "mission = {" ++ [LF]
    ++ [TAB; TAB] ++ lit "[" ++ quoted "start_time" ++ lit "] = 100," ++ [LF]
    ++ [TAB] ++ lit "[" ++ quoted "start_time" ++ lit "] = 36000," ++ [LF]
    ++ lit "} -- end of mission" ++ [LF]
  ∧ _replace_start_time scenario_A 39600
    = lit "mission = {" ++ [LF]
      ++ [TAB; TAB] ++ lit "[" ++ quoted "start_time" ++ lit "] = 100," ++ [LF]
      ++ [TAB] ++ lit "[" ++ quoted "start_time" ++ lit "] = 39600," ++ [LF]
      ++ lit "} -- end of mission"
  ∧ _replace_start_time
      (lit "mission = {" ++ [CR; LF]
       ++ [TAB] ++ lit "[" ++ quoted "start_time" ++ lit "] = 36000," ++ [CR; LF]
       ++ lit "note = " ++ [DQ] ++ lit "a" ++ [FF] ++ lit "b" ++ [DQ] ++ lit "," ++ [CR; LF]
       ++ lit "}") 39600
    = lit "mission = {" ++ [LF]
      ++ [TAB] ++ lit "[" ++ quoted "start_time" ++ lit "] = 39600," ++ [LF]
      ++ lit "note = " ++ [DQ] ++ lit "a" ++ [LF] ++ lit "b" ++ [DQ] ++ lit "," ++ [LF]
      ++ lit "}".
Proof. repeat split; reflexivity. Qed.

(** Scenario A of the design document, evaluated: only the second
    start_time line changes, to 39600. *)
Example scenario_A_updated :
  start_time_update scenario_A 90000
  = inr (lit "mission = {" ++ [LF]
         ++ [TAB; TAB] ++ lit "[" ++ quoted "start_time" ++ lit "] = 100," ++ [LF]
         ++ [TAB] ++ lit "[" ++ quoted "start_time" ++ lit "] = 39600," ++ [LF]
         ++ lit "} -- end of mission").
Proof. reflexivity. Qed.

(** C3, as stated, fails: a line has the marker and the update still
    reports FieldNotFound; and the value taken (100) is not read on the
    line at the last marker index (line 1, which carries no integer). *)
Lemma last_marker_line_unreadable :
  last_start_time_index (splitlines unreadable_only) = Some 0%nat
  ∧ start_time_update unreadable_only 0 = inl FieldNotFound
  ∧ last_start_time_index (splitlines unreadable_last) = Some 1%nat
  ∧ (splitlines unreadable_last !! 1%nat) ≫= line_value = None
  ∧ _parse_start_time unreadable_last = Some 100.
Proof. repeat split; reflexivity. Qed.

(** C3, amended: the update takes as current value the integer of the
    last marker line that carries a readable one (marker lines without
    are skipped); when the last marker line itself carries one, that is
    the value taken and that line is the one rewritten.  It fails with
    FieldNotFound exactly when no marker line carries a readable
    integer, in particular when no line has the marker, and with no
    other failure. *)
Theorem start_time_current_value (text : str) (d : Z) :
  (start_time_update text d = inl FieldNotFound
   ↔ no_value (splitlines text))
  ∧ (no_marker (splitlines text) → start_time_update text d = inl FieldNotFound)
  ∧ (∀ f, start_time_update text d = inl f → f = FieldNotFound)
  ∧ (∀ l1 line l2 v,
       splitlines text = l1 ++ line :: l2 →
       has_start_time line = true → line_value line = Some v → no_value l2 →
       _parse_start_time text = Some v
       ∧ start_time_update text d
         = inr (_replace_start_time text ((v + d) mod 86400)))
  ∧ (∀ k line v,
       last_start_time_index (splitlines text) = Some k →
       splitlines text !! k = Some line → line_value line = Some v →
       _parse_start_time text = Some v
       ∧ start_time_update text d
         = inr (join [LF]
                  (<[k := start_time_line ((v + d) mod 86400)]> (splitlines text)))).
Proof.
  assert (Hnone : start_time_update text d = inl FieldNotFound
                  ↔ no_value (splitlines text)).
  { rewrite <- parse_None. unfold start_time_update.
    destruct (_parse_start_time text); split; done. }
  split_and!.
  - done.
  - intros H. by apply Hnone, no_marker_no_value.
  - unfold start_time_update. intros f.
    destruct (_parse_start_time text); by intros [=].
  - intros l1 line l2 v Hlines Hline Hv Hl2. split.
    + unfold _parse_start_time. rewrite Hlines. by apply parse_last_value.
    + by eapply start_time_update_value.
  - intros k line v Hk Hline Hv.
    pose proof Hk as (l1 & line' & l2 & Hlines & -> & Hmark & Hl2)%last_index_Some.
    rewrite Hlines in Hline. rewrite list_lookup_middle in Hline by done.
    injection Hline as ->. split.
    + unfold _parse_start_time. rewrite Hlines.
      by apply parse_last_value, no_marker_no_value.
    + erewrite start_time_update_value; eauto using no_marker_no_value.
      unfold _replace_start_time. by rewrite Hk.
Qed.

(** What the update returns on [unreadable_last] for a delta of 50. *)
Example unreadable_last_updated :
  start_time_update unreadable_last 50
  = inr ([TAB] ++ lit "[" ++ quoted "start_time" ++ lit "] = 100," ++ [LF]
         ++ [TAB] ++ lit "[" ++ quoted "start_time" ++ lit "] = 150,").
Proof. reflexivity. Qed.

(** ** The season date *)

Lemma mapping_unknown (season : str) :
  season ≠ lit "summer" → season ≠ lit "winter" →
  season ≠ lit "autumn" → season ≠ lit "spring" →
  mapping !! season = None.
Proof.
  intros. unfold mapping.
  rewrite !lookup_insert_ne by done. apply lookup_empty.
Qed.

(** C4: winter gives 1 February 2025, summer 1 August 2025, autumn
    1 October 2025, spring 1 May 2025, and a tag that is none of the
    known ones (such as bogus) gives the fallback 1 September 2025;
    none of these depends on today's date. *)
Theorem season_dates (today : Z * Z * Z) (season : str) :
  _build_date_for_season today (lit "winter") = (2025, 2, 1)
  ∧ _build_date_for_season today (lit "summer") = (2025, 8, 1)
  ∧ _build_date_for_season today (lit "autumn") = (2025, 10, 1)
  ∧ _build_date_for_season today (lit "spring") = (2025, 5, 1)
  ∧ _build_date_for_season today (lit "bogus") = (2025, 9, 1)
  ∧ (season ∉ [lit "realistic"; lit "summer"; lit "winter"; lit "autumn";
               lit "spring"] →
     _build_date_for_season today season = (2025, 9, 1)).
Proof.
  split_and!; try by vm_compute.
  intros Hs. rewrite !not_elem_of_cons in Hs.
  destruct Hs as (? & ? & ? & ? & ? & _).
  unfold _build_date_for_season. rewrite decide_False by done.
  by rewrite mapping_unknown.
Qed.

(** The realistic season is the only one that follows the calendar. *)
Lemma season_realistic (today : Z * Z * Z) :
  _build_date_for_season today (lit "realistic") = today.
Proof. done. Qed.

(** ** The weather template *)

Lemma clamp_percentage_spec (p : Z) :
  clamp_percentage p = Z.max 0 (Z.min 100 p) ∧ 0 ≤ clamp_percentage p ≤ 100.
Proof.
  unfold clamp_percentage.
  destruct (Z.ltb_spec p 0); [simpl; lia|].
  destruct (p >? 100) eqn:H100; [lia|].
  rewrite Z.gtb_ltb in H100. apply Z.ltb_ge in H100. lia.
Qed.

Lemma randint_range (lo hi entropy : Z) :
  lo ≤ hi → lo ≤ randint lo hi entropy ≤ hi.
Proof.
  intros H. unfold randint.
  pose proof (Z.mod_pos_bound entropy (hi - lo + 1)). lia.
Qed.

(** Every value of the range is drawn by some entropy. *)
Lemma randint_onto (lo hi r : Z) :
  lo ≤ r ≤ hi → randint lo hi (r - lo) = r.
Proof. intros H. unfold randint. rewrite Z.mod_small by lia. lia. Qed.

Lemma chosen_dir_bad (p roll : Z) :
  chosen_dir p roll = BAD_WEATHER_DIR ↔ roll ≤ clamp_percentage p.
Proof.
  unfold chosen_dir. destruct (Z.leb_spec roll (clamp_percentage p)).
  - done.
  - split; [done | lia].
Qed.

(** Of the hundred draws, as many choose the bad directory as the weight
    says. *)
Lemma bad_draws_count (weight : Z) :
  0 ≤ weight ≤ 100 →
  length (filter (λ roll, roll ≤ weight) (seqZ 1 100)) = Z.to_nat weight.
Proof.
  intros Hw.
  assert (H : Forall (λ c, length (filter (λ roll, roll ≤ c) (seqZ 1 100))
                           = Z.to_nat c) (seqZ 0 101)).
  { apply (bool_decide_unpack _). by vm_compute. }
  rewrite Forall_forall in H. apply H, elem_of_seqZ. lia.
Qed.

(** C5: the weight is clamped to 0..100, the draw [r] lies in 1..100
    (each value for as many entropies as any other), and the template is
    taken from the files of the bad directory iff [r] is at most the
    clamped weight, else from those of the good one: the text returned is
    that of the file at an index within the chosen directory, and nothing
    is returned when that directory is missing or empty.  So a weight of
    0 never chooses the bad directory and a weight of 100 never the good
    one. *)
Theorem pick_weather_pool (w : world) (bad_percentage : Z) :
  let weight := clamp_percentage bad_percentage in
  let r := randint 1 100 (entropy_roll w) in
  let pool := weather_files w (if decide (r ≤ weight) then BAD_WEATHER_DIR
                               else GOOD_WEATHER_DIR) in
  weight = Z.max 0 (Z.min 100 bad_percentage)
  ∧ 0 ≤ weight ≤ 100
  ∧ 1 ≤ r ≤ 100
  ∧ (∀ roll, 1 ≤ roll ≤ 100 → randint 1 100 (roll - 1) = roll)
  ∧ (chosen_dir bad_percentage r = BAD_WEATHER_DIR ↔ r ≤ weight)
  ∧ (chosen_dir bad_percentage r = GOOD_WEATHER_DIR ↔ weight < r)
  ∧ (pool = None ∨ pool = Some [] → _pick_weather_template w bad_percentage = None)
  ∧ (∀ candidates, pool = Some candidates → candidates ≠ [] →
       ∃ (i : nat) file,
         (i < length candidates)%nat
         ∧ Z.of_nat i = entropy_choice w mod Z.of_nat (length candidates)
         ∧ candidates !! i = Some file
         ∧ _pick_weather_template w bad_percentage = file)
  ∧ (∀ template, _pick_weather_template w bad_percentage = Some template →
       ∃ candidates, pool = Some candidates ∧ Some template ∈ candidates)
  ∧ length (filter (λ roll, chosen_dir bad_percentage roll = BAD_WEATHER_DIR)
              (seqZ 1 100)) = Z.to_nat weight
  ∧ (∀ roll, 1 ≤ roll ≤ 100 → chosen_dir 0 roll = GOOD_WEATHER_DIR)
  ∧ (∀ roll, 1 ≤ roll ≤ 100 → chosen_dir 100 roll = BAD_WEATHER_DIR).
Proof.
  intros weight r pool.
  destruct (clamp_percentage_spec bad_percentage) as [Hmax Hrange].
  assert (Hr : 1 ≤ r ≤ 100) by (by apply randint_range).
  assert (Hgood : ∀ p roll, chosen_dir p roll = GOOD_WEATHER_DIR
                            ↔ clamp_percentage p < roll).
  { intros p roll. unfold chosen_dir.
    destruct (Z.leb_spec roll (clamp_percentage p)); split; try done; lia. }
  assert (Hdir : chosen_dir bad_percentage r
                 = if decide (r ≤ weight) then BAD_WEATHER_DIR else GOOD_WEATHER_DIR).
  { case_decide as Hd.
    - by apply chosen_dir_bad.
    - apply Hgood. fold weight. lia. }
  assert (Hpick : ∀ candidates, pool = Some candidates → candidates ≠ [] →
            ∃ (i : nat) file,
              (i < length candidates)%nat
              ∧ Z.of_nat i = entropy_choice w mod Z.of_nat (length candidates)
              ∧ candidates !! i = Some file
              ∧ _pick_weather_template w bad_percentage = file).
  { intros candidates Hpool Hne.
    unfold _pick_weather_template, read_template. fold r. rewrite Hdir. fold pool.
    rewrite Hpool. destruct candidates as [|c cs]; [done|].
    set (n := length (c :: cs)).
    pose proof (Z.mod_pos_bound (entropy_choice w) (Z.of_nat n)) as Hb.
    assert (Hi : (Z.to_nat (entropy_choice w mod Z.of_nat n) < n)%nat)
      by (subst n; simpl in *; lia).
    pose proof Hi as [file Hfile]%lookup_lt_is_Some.
    exists (Z.to_nat (entropy_choice w mod Z.of_nat n)), file.
    split; [exact Hi|]. split; [subst n; simpl in *; lia|]. split; [exact Hfile|].
    change (mjoin ((c :: cs) !! Z.to_nat (entropy_choice w mod Z.of_nat n)) = file).
    by rewrite Hfile. }
  split; [exact Hmax|]. split; [exact Hrange|]. split; [exact Hr|].
  split_and!.
  - intros roll Hroll. by apply randint_onto.
  - apply chosen_dir_bad.
  - apply Hgood.
  - unfold _pick_weather_template, read_template. fold r. rewrite Hdir. fold pool.
    by intros [-> | ->].
  - exact Hpick.
  - intros template Htemplate.
    destruct pool as [candidates|] eqn:Hpool; last first.
    { unfold _pick_weather_template, read_template in Htemplate.
      fold r in Htemplate. rewrite Hdir in Htemplate. fold pool in Htemplate.
      by rewrite Hpool in Htemplate. }
    destruct (decide (candidates = [])) as [-> | Hne].
    { unfold _pick_weather_template, read_template in Htemplate.
      fold r in Htemplate. rewrite Hdir in Htemplate. fold pool in Htemplate.
      by rewrite Hpool in Htemplate. }
    destruct (Hpick candidates eq_refl Hne) as (i & file & _ & _ & Hfile & Hret).
    exists candidates. split; [done|].
    rewrite Htemplate in Hret. subst file. by eapply list_elem_of_lookup_2.
  - rewrite <- (bad_draws_count weight Hrange).
    f_equal. apply list_filter_iff. intros roll. apply chosen_dir_bad.
  - intros roll Hroll. apply Hgood. change (clamp_percentage 0) with 0. lia.
  - intros roll Hroll. apply chosen_dir_bad.
    change (clamp_percentage 100) with 100. lia.
Qed.

(** ** The matcher against the language of a pattern *)

Lemma match_text (p s : str) k : Re.match_re (Re.text p) (p ++ s) k = k s.
Proof.
  induction p as [|c p IH]; [done|]. simpl.
  by rewrite Ascii.eqb_refl.
Qed.

Lemma match_text_fail (p s : str) k :
  starts_with p s = false → Re.match_re (Re.text p) s k = None.
Proof.
  revert s. induction p as [|c p IH]; intros s H; [done|].
  destruct s as [|d s]; [done|]. simpl in *.
  rewrite (Ascii.eqb_sym c d) in H.
  destruct (Ascii.eqb d c) eqn:Hc.
  - rewrite Ascii.eqb_sym, Hc. by apply IH.
  - by rewrite Ascii.eqb_sym, Hc.
Qed.

(** A greedy star takes the whole run when what follows then matches. *)
Lemma star_greedy_run cl (ws s : str) k x :
  Forall (λ c, Re.accepts cl c = true) ws → stops cl s → k s = Some x →
  Re.star_greedy k cl (ws ++ s) = Some x.
Proof.
  intros Hws Hs Hk. induction Hws as [|c ws Hc _ IH]; simpl.
  - destruct s as [|d s]; simpl in *; [done|]. by rewrite Hs.
  - by rewrite Hc, IH.
Qed.

(** A lazy star stops at the first place where what follows matches. *)
Lemma star_lazy_run cl (body s : str) k x :
  Forall (λ c, Re.accepts cl c = true) body →
  (∀ b1 b2, body = b1 ++ b2 → b2 ≠ [] → k (b2 ++ s) = None) →
  k s = Some x →
  Re.star_lazy k cl (body ++ s) = Some x.
Proof.
  intros Hbody. induction Hbody as [|c body Hc _ IH]; intros Hnot Hk.
  - destruct s; simpl; by rewrite Hk.
  - assert (H0 : k (c :: body ++ s) = None) by by apply (Hnot [] (c :: body)).
    simpl. rewrite H0, Hc.
    apply IH; [|done]. intros b1 b2 -> Hb2. by apply (Hnot (c :: b1)).
Qed.

Lemma star_greedy_sound cl (s : str) k x :
  Re.star_greedy k cl s = Some x →
  ∃ m s', s = m ++ s' ∧ Forall (λ c, Re.accepts cl c = true) m ∧ k s' = Some x.
Proof.
  induction s as [|c s IH]; simpl; intros H.
  - by exists [], [].
  - destruct (Re.accepts cl c) eqn:Hc; [|by exists [], (c :: s)].
    destruct (Re.star_greedy k cl s) as [y|] eqn:Hrec.
    + injection H as ->. destruct (IH eq_refl) as (m & s' & -> & Hm & Hk).
      exists (c :: m), s'. by repeat split; [constructor|].
    + by exists [], (c :: s).
Qed.

Lemma star_lazy_sound cl (s : str) k x :
  Re.star_lazy k cl s = Some x →
  ∃ m s', s = m ++ s' ∧ Forall (λ c, Re.accepts cl c = true) m ∧ k s' = Some x.
Proof.
  induction s as [|c s IH]; simpl; intros H.
  - destruct (k []) eqn:Hk; [|done]. injection H as ->. by exists [], [].
  - destruct (k (c :: s)) eqn:Hk; [injection H as ->; by exists [], (c :: s)|].
    destruct (Re.accepts cl c) eqn:Hc; [|done].
    destruct (IH H) as (m & s' & -> & Hm & Hk').
    exists (c :: m), s'. by repeat split; [constructor|].
Qed.

(** Soundness: a successful match splits the text into a member of the
    language and a rest the continuation accepts. *)
Lemma match_re_sound r (s : str) k x :
  Re.match_re r s k = Some x →
  ∃ m s', s = m ++ s' ∧ Re.lang r m ∧ k s' = Some x.
Proof.
  revert s k x. induction r as [|cl|r1 IH1 r2 IH2|cl|cl|r1 IH1]; intros s k x H; simpl in H.
  - exists [], s. by repeat split; [constructor|].
  - destruct s as [|c s]; [done|]. destruct (Re.accepts cl c) eqn:Hc; [|done].
    exists [c], s. by repeat split; [constructor|].
  - apply IH1 in H as (m1 & s1 & -> & Hm1 & H).
    apply IH2 in H as (m2 & s2 & -> & Hm2 & H).
    exists (m1 ++ m2), s2. rewrite <- app_assoc. by repeat split; [constructor|].
  - apply star_greedy_sound in H as (m & s' & -> & Hm & H).
    exists m, s'. by repeat split; [constructor|].
  - apply star_lazy_sound in H as (m & s' & -> & Hm & H).
    exists m, s'. by repeat split; [constructor|].
  - destruct (Re.match_re r1 s k) as [y|] eqn:Hr1.
    + injection H as ->. apply IH1 in Hr1 as (m & s' & -> & Hm & H).
      exists m, s'. by repeat split; [apply Re.lang_opt_some|].
    + exists [], s. by repeat split; [apply Re.lang_opt_none|].
Qed.

Lemma star_greedy_some cl (m s : str) k :
  Forall (λ c, Re.accepts cl c = true) m → is_Some (k s) →
  is_Some (Re.star_greedy k cl (m ++ s)).
Proof.
  intros Hm Hk. induction Hm as [|c m Hc _ IH]; simpl.
  - destruct s as [|d s]; simpl; [done|].
    destruct (Re.accepts cl d); [|done]. by destruct (Re.star_greedy k cl s).
  - rewrite Hc. by destruct IH as [y ->].
Qed.

Lemma star_lazy_some cl (m s : str) k :
  Forall (λ c, Re.accepts cl c = true) m → is_Some (k s) →
  is_Some (Re.star_lazy k cl (m ++ s)).
Proof.
  intros Hm Hk. induction Hm as [|c m Hc _ IH]; simpl.
  - destruct Hk as [y Hk]. destruct s; simpl; by rewrite Hk.
  - destruct (k (c :: m ++ s)); [done|]. by rewrite Hc.
Qed.

(** Completeness: when some member of the language stands first and the
    continuation accepts what follows it, the matcher succeeds. *)
Lemma match_re_some r (m s : str) k :
  Re.lang r m → is_Some (k s) → is_Some (Re.match_re r (m ++ s) k).
Proof.
  intros Hm. revert s k.
  induction Hm as [|cl c Hc|r1 r2 s1 s2 _ IH1 _ IH2|cl m Hm|cl m Hm|r|r m _ IH];
    intros s k Hk; simpl.
  - done.
  - by rewrite Hc.
  - rewrite <- app_assoc. apply IH1, IH2, Hk.
  - by apply star_greedy_some.
  - by apply star_lazy_some.
  - by destruct (Re.match_re r s k).
  - by destruct (IH s k Hk) as [y ->].
Qed.

Lemma match_at_None r (s : str) :
  Re.match_at r s = None ↔ ∀ m t, s = m ++ t → ¬ Re.lang r m.
Proof.
  unfold Re.match_at. split.
  - intros H m t -> Hm.
    destruct (match_re_some r m t Some Hm) as [y Hy]; [done|]. congruence.
  - intros H. destruct (Re.match_re r s Some) as [y|] eqn:Hy; [|done].
    apply match_re_sound in Hy as (m & t & -> & Hm & _). by destruct (H m t).
Qed.

(** [search] fails exactly on a text no part of which is in the language. *)
Lemma search_from_None r (b s : str) :
  Re.search_from r b s = None ↔ ∀ p m t, s = p ++ m ++ t → ¬ Re.lang r m.
Proof.
  revert b. induction s as [|c s IH]; intros b; simpl.
  - destruct (Re.match_at r []) eqn:H0.
    + split; [done|]. intros H. exfalso.
      apply match_re_sound in H0 as (m & t & Hmt & Hm & _).
      by apply (H [] m t).
    + split; [|done]. intros _ p m t Hs Hm.
      rewrite match_at_None in H0. destruct p; [|done]. by apply (H0 m t).
  - destruct (Re.match_at r (c :: s)) eqn:H0.
    + split; [done|]. intros H. exfalso.
      apply match_re_sound in H0 as (m & t & Hmt & Hm & _).
      by apply (H [] m t).
    + rewrite IH. rewrite match_at_None in H0. split.
      * intros H p m t Hs Hm. destruct p as [|d p].
        -- by apply (H0 m t).
        -- injection Hs as -> ->. by apply (H p m t).
      * intros H p m t -> Hm. by apply (H (c :: p) m t).
Qed.


(** Skipping a prefix at none of whose positions the pattern matches. *)
Lemma search_from_skip r (b pre s : str) :
  (∀ p1 p2, pre = p1 ++ p2 → p2 ≠ [] → Re.match_at r (p2 ++ s) = None) →
  Re.search_from r b (pre ++ s) = Re.search_from r (b ++ pre) s.
Proof.
  revert b. induction pre as [|c pre IH]; intros b H.
  - by rewrite app_nil_r.
  - assert (H0 : Re.match_at r (c :: pre ++ s) = None) by by apply (H [] (c :: pre)).
    simpl. rewrite H0.
    rewrite IH; [by rewrite <- app_assoc|].
    intros p1 p2 -> Hp2. by apply (H (c :: p1)).
Qed.

Lemma search_from_here r (b s rest : str) :
  Re.match_at r s = Some rest → Re.search_from r b s = Some (b, rest).
Proof. intros H. destruct s; simpl; by rewrite H. Qed.

Lemma lang_text (p m : str) : Re.lang (Re.text p) m → m = p.
Proof.
  revert m. induction p as [|c p IH]; intros m H; simpl in H.
  - by inversion H.
  - inversion H as [| |r1 r2 s1 s2 H1 H2| | | |]; subst.
    inversion H1 as [|cl d Hd| | | | |]; subst. simpl in Hd.
    apply Ascii.eqb_eq in Hd as ->. simpl. f_equal. by apply IH.
Qed.

Lemma lang_text_self (p : str) : Re.lang (Re.text p) p.
Proof.
  induction p as [|c p IH]; simpl; [constructor|].
  change (c :: p) with ([c] ++ p). constructor; [|done].
  constructor. simpl. apply Ascii.eqb_refl.
Qed.

Lemma match_seq_text (p s : str) r k x :
  Re.match_re r s k = Some x → Re.match_re (Re.text p ⋅ r) (p ++ s) k = Some x.
Proof. intros H. simpl. by rewrite match_text. Qed.

Lemma match_seq_star cl (ws s : str) r k x :
  Forall (λ c, Re.accepts cl c = true) ws → stops cl s →
  Re.match_re r s k = Some x →
  Re.match_re (Re.Star cl ⋅ r) (ws ++ s) k = Some x.
Proof. intros Hws Hs H. simpl. by apply star_greedy_run. Qed.

Lemma starts_with_app (p s : str) : starts_with p (p ++ s) = true.
Proof. induction p as [|c p IH]; [done|]. simpl. by rewrite Ascii.eqb_refl. Qed.

Lemma contains_unfold (needle hay : str) :
  contains needle hay
  = starts_with needle hay
    || match hay with [] => false | _ :: hay' => contains needle hay' end.
Proof. by destruct hay. Qed.

Lemma contains_app (needle a b : str) : contains needle (a ++ needle ++ b) = true.
Proof.
  induction a as [|c a IH]; rewrite contains_unfold.
  - simpl. by rewrite starts_with_app.
  - simpl. rewrite IH. apply orb_true_r.
Qed.

Lemma contains_false_cons (needle : str) c (hay : str) :
  contains needle (c :: hay) = false →
  starts_with needle (c :: hay) = false ∧ contains needle hay = false.
Proof. rewrite contains_unfold. by intros [? ?]%orb_false_elim. Qed.

(** ** The date block *)

Lemma match_seq r1 r2 (s : str) k :
  Re.match_re (r1 ⋅ r2) s k = Re.match_re r1 s (λ s', Re.match_re r2 s' k).
Proof. done. Qed.

Lemma contains_suffix (needle a b : str) :
  contains needle (a ++ b) = false → contains needle b = false.
Proof.
  induction a as [|c a IH]; [done|]. simpl app.
  intros [_ H]%contains_false_cons. by apply IH.
Qed.

(** Inside a body without [},], the closing of the block is the first. *)
Lemma closing_is_first (b1 b2 s : str) :
  contains (lit "},") (b1 ++ b2) = false → b2 ≠ [] →
  starts_with (lit "},") (b2 ++ lit "}," ++ s) = false.
Proof.
  intros H%contains_suffix Hb2. destruct b2 as [|c b2]; [done|].
  apply contains_false_cons in H as [H _].
  destruct b2 as [|d b2]; simpl in *.
  - apply andb_false_r.
  - done.
Qed.

Lemma match_body (body s : str) r k x :
  contains (lit "},") body = false →
  Re.match_re r s k = Some x →
  Re.match_re (Re.LazyStar Re.Any ⋅ Re.text (lit "},") ⋅ r)
    (body ++ lit "}," ++ s) k = Some x.
Proof.
  intros Hbody H. rewrite match_seq.
  change (Re.star_lazy (λ s', Re.match_re (Re.text (lit "},") ⋅ r) s' k) Re.Any
            (body ++ lit "}," ++ s) = Some x).
  apply star_lazy_run.
  - by apply Forall_true.
  - intros b1 b2 -> Hb2. rewrite match_seq. apply match_text_fail.
    by eapply closing_is_first.
  - by apply match_seq_text.
Qed.

Lemma lang_end_marker (m : str) :
  Re.lang date_end_marker m → ∃ ws, spaces ws ∧ m = end_marker ws.
Proof.
  unfold date_end_marker. intros H.
  inversion H as [| |? ? s1 s2 H1 H2| | | |]; subst.
  apply (lang_text (lit "--")) in H1 as ->.
  inversion H2 as [| |? ? s3 s4 H3 H4| | | |]; subst.
  apply (lang_text (lit "end of " ++ DATE_LABEL)) in H4 as ->.
  inversion H3 as [| | |? ? Hws| | |]; subst.
  by exists s3.
Qed.

(** The optional end marker, after the whitespace that follows [},]. *)
Lemma match_tail (ws3 : str) (marker : option str) (rest : str) :
  spaces ws3 → from_option spaces True marker → follows marker rest →
  Re.match_re (Re.Star Re.Space ⋅ Re.Opt date_end_marker)
    (ws3 ++ from_option end_marker [] marker ++ rest) Some = Some rest.
Proof.
  intros Hws3 Hm Hrest. destruct marker as [ws|]; simpl from_option in *.
  - apply match_seq_star; [done|by vm_compute|].
    assert (H : Re.match_re date_end_marker (end_marker ws ++ rest) Some = Some rest).
    { unfold date_end_marker, end_marker. rewrite <- !app_assoc.
      apply match_seq_text, match_seq_star; [done|by vm_compute|].
      by rewrite app_assoc, match_text. }
    simpl. simpl in H. by rewrite H.
  - destruct Hrest as [Hstop Hnot]. simpl app.
    apply match_seq_star; [done|done|].
    change (match Re.match_re date_end_marker rest Some with
            | Some r => Some r | None => Some rest end = Some rest).
    destruct (Re.match_re date_end_marker rest Some) as [y|] eqn:Hy; [|done].
    apply match_re_sound in Hy as (m & t & -> & Hlang & _).
    apply lang_end_marker in Hlang as (ws & Hws & ->).
    by destruct (Hnot ws t).
Qed.

(** The pattern matches a date block from its first whitespace to its
    end marker, whatever the body and the whitespace. *)
Lemma match_date_block (ws0 ws1 ws2 body ws3 : str) (marker : option str) (rest : str) :
  spaces ws0 → spaces ws1 → spaces ws2 → spaces ws3 →
  from_option spaces True marker →
  contains (lit "},") body = false →
  follows marker rest →
  Re.match_at date_pattern (date_block ws0 ws1 ws2 body ws3 marker ++ rest)
  = Some rest.
Proof.
  intros H0 H1 H2 H3 Hm Hbody Hrest.
  unfold Re.match_at, date_pattern, date_block. rewrite <- !app_assoc.
  apply match_seq_star; [done|by vm_compute|].
  apply match_seq_text.
  apply match_seq_star; [done|by vm_compute|].
  apply match_seq_text.
  apply match_seq_star; [done|by vm_compute|].
  apply match_seq_text.
  apply match_body; [done|].
  by apply match_tail.
Qed.

Lemma lang_date_pattern_starts (m : str) :
  Re.lang date_pattern m → ∃ w tail, spaces w ∧ m = w ++ DATE_LABEL ++ tail.
Proof.
  unfold date_pattern. intros H.
  inversion H as [| |? ? w s2 H1 H2| | | |]; subst.
  inversion H1 as [| | |? ? Hw| | |]; subst.
  inversion H2 as [| |? ? s3 tail H3 H4| | | |]; subst.
  apply (lang_text DATE_LABEL) in H3 as ->.
  by exists w, tail.
Qed.

(** No character of the label after its bracket is whitespace or an
    opening bracket: the label cannot start before another label, or
    before whitespace, and run into it. *)
Lemma label_overlap (p2 T tail : str) :
  p2 ≠ [] →
  (∀ c, head T = Some c → isspace c = true ∨ c = "["%char) →
  p2 ++ T = DATE_LABEL ++ tail →
  ∃ p2', p2 = DATE_LABEL ++ p2'.
Proof.
  intros Hp2 HT Heq.
  apply app_eq_inv in Heq as [(k & -> & _) | (k & Hk & ->)]; [by exists k|].
  destruct k as [|d k]; [exists []; by rewrite Hk, !app_nil_r|].
  exfalso. destruct (HT d eq_refl) as [Hd | ->].
  - destruct p2 as [|c p2]; [done|]. injection Hk as _ Hk.
    assert (Hin : d ∈ p2 ++ d :: k) by set_solver.
    rewrite <- Hk in Hin. clear - Hin Hd.
    repeat (apply elem_of_cons in Hin as [-> | Hin]; [done|]).
    by apply elem_of_nil in Hin.
  - destruct p2 as [|c p2]; [done|]. injection Hk as _ Hk.
    assert (Hin : "["%char ∈ p2 ++ "["%char :: k) by set_solver.
    rewrite <- Hk in Hin. clear - Hin.
    repeat (apply elem_of_cons in Hin as [? | Hin]; [done|]).
    by apply elem_of_nil in Hin.
Qed.

Lemma label_alignment (pre T : str) :
  contains DATE_LABEL pre = false →
  (∀ c, last pre = Some c → isspace c = false) →
  (∀ c, head T = Some c → isspace c = true ∨ c = "["%char) →
  ∀ w p1 p2 tail,
    spaces w → pre = p1 ++ p2 → p2 ≠ [] →
    p2 ++ T = w ++ DATE_LABEL ++ tail → False.
Proof.
  intros Hpre Hlast HT w. induction w as [|c w IH]; intros p1 p2 tail Hw -> Hp2 Heq.
  - apply label_overlap in Heq as [p2' ->]; [|done..].
    by rewrite contains_app in Hpre.
  - destruct p2 as [|c' p2]; [done|]. injection Heq as -> Heq.
    inversion Hw as [|? ? Hc Hw']; subst.
    destruct (decide (p2 = [])) as [-> | Hne].
    + specialize (Hlast c). rewrite last_snoc in Hlast.
      rewrite Hlast in Hc; done.
    + apply (IH (p1 ++ [c]) p2 tail); [done| |done|done].
      by rewrite <- app_assoc.
Qed.

(** Before a date block that no label precedes, the pattern matches
    nowhere. *)
Lemma no_earlier_match (pre T : str) :
  contains DATE_LABEL pre = false →
  (∀ c, last pre = Some c → isspace c = false) →
  (∀ c, head T = Some c → isspace c = true ∨ c = "["%char) →
  ∀ p1 p2, pre = p1 ++ p2 → p2 ≠ [] →
    Re.match_at date_pattern (p2 ++ T) = None.
Proof.
  intros Hpre Hlast HT p1 p2 -> Hp2. apply match_at_None.
  intros m t Heq Hm.
  apply lang_date_pattern_starts in Hm as (w & tail & Hw & ->).
  rewrite <- !app_assoc in Heq.
  by eapply (label_alignment (p1 ++ p2) T).
Qed.

Lemma date_block_head (ws0 ws1 ws2 body ws3 : str) marker (rest : str) :
  spaces ws0 →
  ∀ c, head (date_block ws0 ws1 ws2 body ws3 marker ++ rest) = Some c →
       isspace c = true ∨ c = "["%char.
Proof.
  intros H0 c. unfold date_block. destruct H0 as [|d ws0 Hd _]; simpl.
  - intros [= <-]. by right.
  - intros [= <-]. by left.
Qed.

Lemma contains_char c (s : str) :
  Forall (λ d, d ≠ c) s → contains [c] s = false.
Proof.
  induction 1 as [|d s Hd _ IH]; [done|].
  rewrite contains_unfold, IH. simpl.
  destruct (Ascii.eqb_spec c d); [by subst|done].
Qed.

(** The canonical block holds no backslash: [sub] copies it as it is. *)
Lemma new_date_block_plain (date : Z * Z * Z) :
  contains [BACKSLASH] (new_date_block date) = false.
Proof.
  apply contains_char. destruct date as [[year month] day].
  assert (Hn : ∀ n, Forall (λ d, d ≠ BACKSLASH) (of_Z n)).
  { intros n. eapply Forall_impl; [apply of_Z_chars|].
    intros c [Hc | Hc] Hb; subst; done. }
  unfold new_date_block. rewrite !Forall_app.
  split_and!; try apply Hn; by repeat constructor.
Qed.

Lemma update_date_block_Some today (text : str) season pre rest :
  Re.search date_pattern text = Some (pre, rest) →
  _update_date_block today text season
  = Some (pre ++ new_date_block (_build_date_for_season today season) ++ rest).
Proof. intros H. unfold _update_date_block, Re.sub_first. by rewrite H. Qed.

(** A date block that no label precedes is replaced as a whole, and
    nothing else changes. *)
Lemma date_block_replaced today season
    (pre ws0 ws1 ws2 body ws3 : str) (marker : option str) (rest : str) :
  spaces ws0 → spaces ws1 → spaces ws2 → spaces ws3 →
  from_option spaces True marker →
  contains (lit "},") body = false →
  contains DATE_LABEL pre = false →
  (∀ c, last pre = Some c → isspace c = false) →
  follows marker rest →
  _update_date_block today
    (pre ++ date_block ws0 ws1 ws2 body ws3 marker ++ rest) season
  = Some (pre ++ new_date_block (_build_date_for_season today season) ++ rest).
Proof.
  intros H0 H1 H2 H3 Hm Hbody Hpre Hlast Hrest.
  apply update_date_block_Some. unfold Re.search.
  rewrite search_from_skip.
  - by apply search_from_here, match_date_block.
  - by apply no_earlier_match; [| |apply date_block_head].
Qed.


Example replace_year_first :
  _update_date_block (2026, 11, 3) (two_blocks block_year_first) (lit "winter")
  = Some (lit "mission = {" ++ new_date_block (2025, 2, 1)
          ++ lit "x = 1," ++ [LF] ++ block_year_first ++ [LF] ++ lit "}").
Proof. reflexivity. Qed.

Example replace_day_first_compact :
  _update_date_block (2026, 11, 3) (two_blocks block_day_first_compact) (lit "bogus")
  = Some (lit "mission = {" ++ new_date_block (2025, 9, 1)
          ++ lit "x = 1," ++ [LF] ++ block_year_first ++ [LF] ++ lit "}").
Proof. reflexivity. Qed.

Example replace_without_block :
  _update_date_block (2026, 11, 3) (lit "mission = { x = 1, }") (lit "winter") = None.
Proof. reflexivity. Qed.

(** The compact block again, through [date_block_replaced]. *)
Example replace_day_first_by_lemma :
  _update_date_block (2026, 11, 3) (two_blocks block_day_first_compact) (lit "summer")
  = Some (lit "mission = {" ++ new_date_block (2025, 8, 1)
          ++ lit "x = 1," ++ [LF] ++ block_year_first ++ [LF] ++ lit "}").
Proof.
  apply (date_block_replaced (2026, 11, 3) (lit "summer")
           (lit "mission = {") [] [] []
           (lit "[" ++ quoted "Day" ++ lit "]=21,[" ++ quoted "Month"
            ++ lit "]=6,[" ++ quoted "Year" ++ lit "]=2016")
           [LF] None
           (lit "x = 1," ++ [LF] ++ block_year_first ++ [LF] ++ lit "}"));
    try done.
  - by repeat constructor.
  - by intros c [= <-].
Qed.

(** ** Runs *)

Lemma run_bind_eq {A B} (m : run A) (k : A → run B) :
  m ≫= k = ((k m.1).1, m.2 ++ (k m.1).2).
Proof. destruct m as [a t]. unfold mbind, run_bind. simpl. by destruct (k a). Qed.

Lemma stop_process_run wf w p :
  stop_process wf w p
  = if kill_raises w (pid p)
    then (false, [NotifyInfo (ServerStopped wf); Kill (pid p); NotifyError StopFailed])
    else (true, [NotifyInfo (ServerStopped wf); Kill (pid p); Sleep 15]).
Proof. unfold stop_process. by destruct (kill_raises w (pid p)). Qed.

Lemma kill_loop_none wf w (procs : list process) :
  Forall (λ p, is_server p = false) procs → kill_loop wf w procs = (true, []).
Proof. induction 1 as [|p procs Hp _ IH]; [done|]. simpl. by rewrite Hp. Qed.

Lemma kill_loop_first wf w (l1 l2 : list process) p :
  Forall (λ q, is_server q = false) l1 → is_server p = true →
  kill_loop wf w (l1 ++ p :: l2) = stop_process wf w p.
Proof.
  intros H1 Hp. induction H1 as [|q l1 Hq _ IH]; simpl.
  - by rewrite Hp.
  - by rewrite Hq.
Qed.

(** The process table either holds no server process, or splits at the
    first one. *)
Lemma first_server (procs : list process) :
  Forall (λ p, is_server p = false) procs
  ∨ ∃ l1 p l2, procs = l1 ++ p :: l2
      ∧ Forall (λ q, is_server q = false) l1 ∧ is_server p = true.
Proof.
  induction procs as [|q procs IH]; [by left|].
  destruct (is_server q) eqn:Hq.
  - right. by exists [], q, procs.
  - destruct IH as [IH | (l1 & p & l2 & -> & H1 & Hp)].
    + left. by constructor.
    + right. exists (q :: l1), p, l2. by repeat split; [constructor|].
Qed.

Lemma kill_trace wf w :
  Forall (stop_event wf) (trace (_kill_dcs_server_if_running wf w)).
Proof.
  unfold _kill_dcs_server_if_running. rewrite run_bind_eq. simpl.
  constructor; [by left|].
  destruct (first_server (processes w)) as [H | (l1 & p & l2 & -> & H1 & Hp)].
  - by rewrite kill_loop_none.
  - rewrite kill_loop_first, stop_process_run by done.
    destruct (kill_raises w (pid p)); simpl;
      repeat (apply Forall_cons_2 || apply Forall_nil_2);
      unfold stop_event; eauto 10.
Qed.

(** ** A missing archive *)

Lemma fail_local_run reason : fail_local reason = (false, [NotifyError reason]).
Proof. done. Qed.

Lemma returning_fail_local reason :
  returning (fail_local reason) = (Returns false, [NotifyError reason]).
Proof. done. Qed.

(** C7, as stated, fails: with weather rotation switched off in the
    configuration, the weather workflow returns success, not failure,
    also when the archive does not exist. *)
Lemma disabled_rotation_succeeds :
  path_exists (a_world false server_running 0 (a_config false))
    (mission_path (a_config false)) = false
  ∧ rotate_weather_in_miz (a_world false server_running 0 (a_config false))
    = (Returns true, []).
Proof. split; reflexivity. Qed.

(** C7, amended: when the archive path of the configuration does not
    exist, the time-persistence workflow returns failure at once, and so
    does the weather-rotation workflow when weather rotation is enabled
    (disabled, it returns success without doing anything; enabled with a
    weight that does not convert to an integer, it raises instead, as
    early); in every case before any process control: the server is
    neither scanned, stopped nor started. *)
Theorem missing_archive_fails_first (w : world) (cfg : config) (seconds_to_add : Z) :
  config_file w = Loaded cfg →
  path_exists w (mission_path cfg) = false →
  update_miz_start_time w (mission_path cfg) seconds_to_add
  = (Returns false, [NotifyError MizNotFound])
  ∧ (weather_rotation_enabled cfg = true →
     rotate_weather_in_miz w
     = if decide (mission_path cfg = [])
       then (Returns false, [NotifyError MissionPathMissing])
       else match weather_bad_weather_percentage cfg with
            | Some _ => (Returns false, [NotifyError MizNotFound])
            | None => (Raises, [])
            end)
  ∧ (weather_rotation_enabled cfg = false →
     rotate_weather_in_miz w = (Returns true, []))
  ∧ Forall (λ e, ¬ process_control e)
      (trace (update_miz_start_time w (mission_path cfg) seconds_to_add))
  ∧ Forall (λ e, ¬ process_control e) (trace (rotate_weather_in_miz w)).
Proof.
  intros Hcfg Hmiz.
  assert (Hupdate : update_miz_start_time w (mission_path cfg) seconds_to_add
                    = (Returns false, [NotifyError MizNotFound])).
  { unfold update_miz_start_time. by rewrite Hmiz. }
  assert (Hnot : ∀ reason, ¬ process_control (NotifyError reason)).
  { intros reason [? | [[? ?] | ?]]; done. }
  split_and!.
  - done.
  - intros Hon. unfold rotate_weather_in_miz. rewrite Hcfg, Hon. simpl.
    case_decide; [done|].
    destruct (weather_bad_weather_percentage cfg); [|done]. by rewrite Hmiz.
  - intros Hoff. unfold rotate_weather_in_miz. by rewrite Hcfg, Hoff.
  - rewrite Hupdate. by repeat constructor.
  - unfold rotate_weather_in_miz. rewrite Hcfg.
    destruct (weather_rotation_enabled cfg); simpl; [|constructor].
    case_decide; [by repeat constructor|].
    destruct (weather_bad_weather_percentage cfg); [|constructor].
    rewrite Hmiz. by repeat constructor.
Qed.

Lemma missing_archive_fails_first_witness :
  config_file (a_world false server_running 0 (a_config true))
  = Loaded (a_config true)
  ∧ path_exists (a_world false server_running 0 (a_config true))
      (mission_path (a_config true)) = false
  ∧ update_miz_start_time (a_world false server_running 0 (a_config true))
      (mission_path (a_config true)) 3600
    = (Returns false, [NotifyError MizNotFound])
  ∧ rotate_weather_in_miz (a_world false server_running 0 (a_config true))
    = (Returns false, [NotifyError MizNotFound]).
Proof.
  pose proof (missing_archive_fails_first
                (a_world false server_running 0 (a_config true))
                (a_config true) 3600 eq_refl eq_refl) as (Hu & Hr & _).
  split; [reflexivity|]. split; [reflexivity|]. split; [exact Hu|].
  exact (Hr eq_refl).
Defined.

(** ** A failing extraction *)

Lemma run_7zip_raises w c :
  run_raises w c = true → _run_7zip w c = (Raises, [Run7zip c]).
Proof. intros H. unfold _run_7zip. by rewrite H. Qed.

Lemma run_7zip_fails w c :
  run_raises w c = false → returncode w c ≠ 0 →
  _run_7zip w c = (Returns false, [Run7zip c; NotifyError SevenZipError]).
Proof. intros Hr H. unfold _run_7zip. by rewrite Hr, decide_True. Qed.

Lemma run_7zip_ok w c :
  run_raises w c = false → returncode w c = 0 →
  _run_7zip w c = (Returns true, [Run7zip c]).
Proof. intros Hr H. unfold _run_7zip. by rewrite Hr, decide_False by (by intros []). Qed.

(** The three ways a call of the archive tool ends. *)
Lemma run_7zip_cases w c :
  (run_raises w c = true ∧ _run_7zip w c = (Raises, [Run7zip c]))
  ∨ (run_raises w c = false ∧ returncode w c ≠ 0
     ∧ _run_7zip w c = (Returns false, [Run7zip c; NotifyError SevenZipError]))
  ∨ (run_raises w c = false ∧ returncode w c = 0
     ∧ _run_7zip w c = (Returns true, [Run7zip c])).
Proof.
  destruct (run_raises w c) eqn:Hr; [left; by rewrite run_7zip_raises|].
  right. destruct (decide (returncode w c = 0)) as [H | H].
  - right. by rewrite run_7zip_ok.
  - left. by rewrite run_7zip_fails.
Qed.

Lemma stop_trace_no_extract wf w :
  Run7zip Extract ∉ trace (_kill_dcs_server_if_running wf w).
Proof.
  intros Hin. pose proof (kill_trace wf w) as H.
  rewrite Forall_forall in H. apply H in Hin.
  destruct Hin as [? | [? | [[? ?] | [? | ?]]]]; done.
Qed.

(** C8, as stated, fails: the run stops the server (process 4242), the
    extraction exits with code 1, and the workflow returns without
    starting the server again. *)
Lemma stopped_server_not_restarted :
  update_miz_start_time (a_world true server_running 1 (a_config true))
    (lit "C:/Missions/persist.miz") 3600
  = (Returns false,
     [ProcessScan; NotifyInfo (ServerStopped TimeUpdate); Kill 4242; Sleep 15;
      Run7zip Extract; NotifyError SevenZipError; NotifyError ExtractionFailed])
  ∧ rotate_weather_in_miz (a_world true server_running 1 (a_config true))
    = (Returns false,
       [ProcessScan; NotifyInfo (ServerStopped WeatherRotation); Kill 4242; Sleep 15;
        Run7zip Extract; NotifyError SevenZipError; NotifyError ExtractionFailed])
  ∧ (Spawn ∉ trace (update_miz_start_time
                      (a_world true server_running 1 (a_config true))
                      (lit "C:/Missions/persist.miz") 3600))
  ∧ (Spawn ∉ trace (rotate_weather_in_miz
                      (a_world true server_running 1 (a_config true)))).
Proof.
  split; [reflexivity|]. split; [reflexivity|].
  split; vm_compute; intros H; repeat (apply elem_of_cons in H as [? | H]; [done|]);
    by apply elem_of_nil in H.
Qed.

(** C8, amended: when the extraction step of the archive tool exits
    with a nonzero code, the workflow returns failure right after
    reporting it: no descriptor read is attempted, nothing is written or
    repacked, and the server is not started on this path, whether or
    not this run stopped it. *)
Theorem extraction_failure_aborts (w : world) (miz_path : str) (seconds_to_add : Z) :
  run_raises w Extract = false →
  returncode w Extract ≠ 0 →
  (Run7zip Extract ∈ trace (update_miz_start_time w miz_path seconds_to_add) →
   update_miz_start_time w miz_path seconds_to_add
   = (Returns false,
      trace (_kill_dcs_server_if_running TimeUpdate w) ++ extraction_failed))
  ∧ (Run7zip Extract ∈ trace (rotate_weather_in_miz w) →
     rotate_weather_in_miz w
     = (Returns false,
        trace (_kill_dcs_server_if_running WeatherRotation w) ++ extraction_failed))
  ∧ (∀ wf e, e ∈ trace (_kill_dcs_server_if_running wf w) ++ extraction_failed →
       e ≠ ReadText ∧ e ≠ Spawn ∧ e ≠ Run7zip Update ∧ ∀ text, e ≠ WriteText text).
Proof.
  intros Hran Hrc. split_and!.
  - unfold update_miz_start_time.
    destruct (path_exists w miz_path); simpl.
    { rewrite run_bind_eq.
      pose proof (stop_trace_no_extract TimeUpdate w) as Hstop.
      destruct (_kill_dcs_server_if_running TimeUpdate w) as [[] tk]; simpl in *.
      - intros _. by rewrite run_bind_eq, run_7zip_fails.
      - rewrite app_nil_r. done. }
    intros Hin. apply list_elem_of_singleton in Hin. done.
  - unfold rotate_weather_in_miz.
    destruct (config_file w) as [| | |cfg]; simpl;
      try (intros Hin; apply list_elem_of_singleton in Hin; done);
      [intros Hin; by apply elem_of_nil in Hin|].
    destruct (weather_rotation_enabled cfg); simpl;
      [|intros Hin; by apply elem_of_nil in Hin].
    case_decide; simpl; [intros Hin; apply list_elem_of_singleton in Hin; done|].
    destruct (weather_bad_weather_percentage cfg) as [bad_pct|]; simpl;
      [|intros Hin; by apply elem_of_nil in Hin].
    destruct (path_exists w (mission_path cfg)); simpl;
      [|intros Hin; apply list_elem_of_singleton in Hin; done].
    rewrite run_bind_eq.
    pose proof (stop_trace_no_extract WeatherRotation w) as Hstop.
    destruct (_kill_dcs_server_if_running WeatherRotation w) as [[] tk]; simpl in *.
    + intros _. by rewrite run_bind_eq, run_7zip_fails.
    + rewrite app_nil_r. done.
  - intros wf e [He | He]%elem_of_app.
    + pose proof (kill_trace wf w) as H. rewrite Forall_forall in H.
      destruct (H e He) as [-> | [-> | [[? ->] | [-> | ->]]]]; done.
    + unfold extraction_failed in He.
      repeat (apply elem_of_cons in He as [-> | He]; [done|]).
      by apply elem_of_nil in He.
Qed.

Lemma extraction_failure_aborts_witness :
  run_raises (a_world true server_running 1 (a_config true)) Extract = false
  ∧ returncode (a_world true server_running 1 (a_config true)) Extract ≠ 0
  ∧ update_miz_start_time (a_world true server_running 1 (a_config true))
      (lit "C:/Missions/persist.miz") 3600
    = (Returns false,
       trace (_kill_dcs_server_if_running TimeUpdate
                (a_world true server_running 1 (a_config true)))
       ++ extraction_failed)
  ∧ rotate_weather_in_miz (a_world true server_running 1 (a_config true))
    = (Returns false,
       trace (_kill_dcs_server_if_running WeatherRotation
                (a_world true server_running 1 (a_config true)))
       ++ extraction_failed).
Proof.
  assert (Hrc : returncode (a_world true server_running 1 (a_config true)) Extract ≠ 0)
    by (simpl; lia).
  pose proof (extraction_failure_aborts
                (a_world true server_running 1 (a_config true))
                (lit "C:/Missions/persist.miz") 3600 eq_refl Hrc) as (Hu & Hr & _).
  split; [reflexivity|]. split; [exact Hrc|]. split.
  - apply Hu. vm_compute. do 4 right. left.
  - apply Hr. vm_compute. do 4 right. left.
Defined.

(** ** Stopping the server *)

(** C9: on a process table where a process whose name only contains the
    executable name comes before the server, the scan stops that process
    (17) although its name is not the executable name, and leaves the
    server itself (4242) running: the test is [in], not equality. *)
Lemma namesake_stopped_instead :
  _kill_dcs_server_if_running TimeUpdate
    (a_world true namesake_first 0 (a_config true))
  = (true, [ProcessScan; NotifyInfo (ServerStopped TimeUpdate); Kill 17; Sleep 15])
  ∧ namesake_first !! 0%nat = Some {| pid := 17; name := Some (lit "My_DCS_server.exe") |}
  ∧ lit "My_DCS_server.exe" ≠ SERVER_NAME
  ∧ namesake_first !! 1%nat = Some {| pid := 4242; name := Some SERVER_NAME |}
  ∧ (Kill 4242 ∉ trace (_kill_dcs_server_if_running TimeUpdate
                          (a_world true namesake_first 0 (a_config true)))).
Proof.
  split_and!; try done.
  vm_compute. intros H. repeat (apply elem_of_cons in H as [? | H]; [done|]).
  by apply elem_of_nil in H.
Qed.

Lemma stop_at_first_server wf w (l1 l2 : list process) p :
  processes w = l1 ++ p :: l2 →
  Forall (λ q, is_server q = false) l1 → is_server p = true →
  _kill_dcs_server_if_running wf w
  = if kill_raises w (pid p)
    then (false, [ProcessScan; NotifyInfo (ServerStopped wf); Kill (pid p);
                  NotifyError StopFailed])
    else (true, [ProcessScan; NotifyInfo (ServerStopped wf); Kill (pid p);
                 Sleep 15]).
Proof.
  intros Hprocs H1 Hp. unfold _kill_dcs_server_if_running.
  rewrite run_bind_eq, Hprocs, kill_loop_first, stop_process_run by done.
  by destruct (kill_raises w (pid p)).
Qed.

(** What the scan does: it goes through the running processes in order
    and stops the first one whose name contains the executable name, and
    no other; that process gets the stop notification, the kill and,
    when the kill succeeds, the 15-second wait.  When no name contains
    the executable name the operation succeeds at once: no kill, no
    wait, no notification. *)
Theorem stop_first_named_process (wf : workflow) (w : world) :
  (∀ l1 p l2,
     processes w = l1 ++ p :: l2 →
     Forall (λ q, contains SERVER_NAME (default [] (name q)) = false) l1 →
     contains SERVER_NAME (default [] (name p)) = true →
     _kill_dcs_server_if_running wf w
     = if kill_raises w (pid p)
       then (false, [ProcessScan; NotifyInfo (ServerStopped wf); Kill (pid p);
                     NotifyError StopFailed])
       else (true, [ProcessScan; NotifyInfo (ServerStopped wf); Kill (pid p);
                    Sleep 15]))
  ∧ (Forall (λ q, contains SERVER_NAME (default [] (name q)) = false) (processes w) →
     _kill_dcs_server_if_running wf w = (true, [ProcessScan]))
  ∧ (∀ q, name q = Some SERVER_NAME → contains SERVER_NAME (default [] (name q)) = true).
Proof.
  split_and!.
  - intros l1 p l2 Hprocs H1 Hp. by eapply stop_at_first_server.
  - intros H. unfold _kill_dcs_server_if_running.
    by rewrite run_bind_eq, kill_loop_none.
  - intros q ->. done.
Qed.

(** Scenario C of the design document: the server is not running. *)
Example server_not_running :
  _kill_dcs_server_if_running WeatherRotation
    (a_world true [ {| pid := 4; name := Some (lit "System") |};
                    {| pid := 88; name := None |} ] 0 (a_config true))
  = (true, [ProcessScan]).
Proof. reflexivity. Qed.

Example server_running_stopped :
  _kill_dcs_server_if_running WeatherRotation
    (a_world true server_running 0 (a_config true))
  = (true, [ProcessScan; NotifyInfo (ServerStopped WeatherRotation); Kill 4242;
            Sleep 15]).
Proof.
  apply (stop_at_first_server WeatherRotation
           (a_world true server_running 0 (a_config true))
           [ {| pid := 4; name := Some (lit "System") |} ] []
           {| pid := 4242; name := Some (lit "DCS_server.exe") |});
    by repeat constructor.
Qed.

(** ** The time extractor *)

Lemma convert_reads (hms : str) h m s :
  reads_hms hms h m s → _convert_hms_to_seconds hms = h * 3600 + m * 60 + s.
Proof.
  intros (fh & fm & fs & Hsplit & Hh & Hm & Hs).
  unfold _convert_hms_to_seconds. by rewrite Hsplit, Hh, Hm, Hs.
Qed.

Lemma convert_unreadable (hms : str) :
  (∀ h m s, ¬ reads_hms hms h m s) → _convert_hms_to_seconds hms = 0.
Proof.
  intros Hnot. unfold _convert_hms_to_seconds.
  destruct (split ":"%char hms) as [|fh [|fm [|fs [|? ?]]]] eqn:Hsplit; try done.
  destruct (py_int fh) as [h|] eqn:Hh; [|done].
  destruct (py_int fm) as [m|] eqn:Hm; [|done].
  destruct (py_int fs) as [s|] eqn:Hs; [|done].
  destruct (Hnot h m s). by exists fh, fm, fs.
Qed.

(** C10, as stated, fails: a time text with a minus sign reads as H:M:S
    and gives a matched result with negative seconds. *)
Lemma negative_seconds_extracted :
  extract_time_and_mission (a_browser (lit "-1:00:00")) (lit "c:/missions/persist.miz")
  = (true, Some (lit "-1:00:00"), Some (-3600)).
Proof. reflexivity. Qed.

(** C10, amended: a matched result always carries the time text and an
    integer number of seconds, never a missing one (and a result that is
    not matched carries neither); the seconds are h*3600 + m*60 + s when
    the text reads as H:M:S and 0 for every text that does not, so they
    are non-negative whenever no field is negative. *)
Theorem matched_result_has_seconds (b : browser) (expected_miz_path : str)
    (matched : bool) (time_text : option str) (seconds : option Z) :
  extract_time_and_mission b expected_miz_path = (matched, time_text, seconds) →
  (matched = true →
   ∃ hms, time_text = Some hms
     ∧ seconds = Some (_convert_hms_to_seconds hms)
     ∧ (∀ h m s, reads_hms hms h m s →
          seconds = Some (h * 3600 + m * 60 + s)
          ∧ (0 ≤ h → 0 ≤ m → 0 ≤ s → 0 ≤ h * 3600 + m * 60 + s))
     ∧ ((∀ h m s, ¬ reads_hms hms h m s) → seconds = Some 0))
  ∧ (matched = false → time_text = None ∧ seconds = None).
Proof.
  unfold extract_time_and_mission. intros H.
  repeat (match type of H with
          | (if ?c then _ else _) = _ => destruct c
          | match ?o with _ => _ end = _ => destruct o
          end; try (injection H as <- <- <-; by split)).
  injection H as <- <- <-. split; [|done]. intros _.
  eexists. split; [done|]. split; [done|]. split.
  - intros h m s Hr. rewrite (convert_reads _ _ _ _ Hr). split; [done|lia].
  - intros Hnot. by rewrite convert_unreadable.
Qed.

Lemma matched_result_has_seconds_witness :
  extract_time_and_mission (a_browser (lit "12:34:56")) (lit "c:/missions/persist.miz")
  = (true, Some (lit "12:34:56"), Some 45296)
  ∧ ∃ hms, Some (lit "12:34:56") = Some hms
      ∧ Some 45296 = Some (_convert_hms_to_seconds hms)
      ∧ (∀ h m s, reads_hms hms h m s →
           Some 45296 = Some (h * 3600 + m * 60 + s)
           ∧ (0 ≤ h → 0 ≤ m → 0 ≤ s → 0 ≤ h * 3600 + m * 60 + s))
      ∧ ((∀ h m s, ¬ reads_hms hms h m s) → Some 45296 = Some 0).
Proof.
  split; [reflexivity|].
  exact (proj1 (matched_result_has_seconds (a_browser (lit "12:34:56"))
                  (lit "c:/missions/persist.miz")
                  true (Some (lit "12:34:56")) (Some 45296) eq_refl) eq_refl).
Defined.

(** ** The two workflows, end to end *)

Lemma stop_trace_no_read wf w :
  ReadText ∉ trace (_kill_dcs_server_if_running wf w).
Proof.
  intros Hin. pose proof (kill_trace wf w) as H.
  rewrite Forall_forall in H. apply H in Hin.
  destruct Hin as [? | [? | [[? ?] | [? | ?]]]]; done.
Qed.

(** When [update_miz_start_time] gets as far as reading the descriptor,
    what it writes back is the text of the start_time update. *)
Lemma update_writes_text (w : world) (miz_path : str) (d : Z) (text new_text : str) :
  mission_text w = Some text →
  start_time_update text d = inr new_text →
  ReadText ∈ trace (update_miz_start_time w miz_path d) →
  WriteText new_text ∈ trace (update_miz_start_time w miz_path d).
Proof.
  intros Htext Hnew. unfold update_miz_start_time. rewrite Htext, Hnew.
  destruct (path_exists w miz_path); simpl;
    [|intros Hin; apply list_elem_of_singleton in Hin; done].
  rewrite run_bind_eq.
  pose proof (stop_trace_no_read TimeUpdate w) as Hstop.
  destruct (_kill_dcs_server_if_running TimeUpdate w) as [[] tk]; simpl in *;
    [|by rewrite app_nil_r].
  rewrite run_bind_eq.
  destruct (run_7zip_cases w Extract) as [[_ ->] | [(_ & _ & ->) | (_ & _ & ->)]]; simpl.
  1, 2: intros [Hin | Hin]%elem_of_app; [done|];
        repeat (apply elem_of_cons in Hin as [? | Hin]; [done|]);
        by apply elem_of_nil in Hin.
  destruct (mission_extracted w); simpl.
  - intros _.
    match goal with
    | |- context [let '(b, t2) := ?r in (b, WriteText new_text :: t2)] =>
        destruct r as [b t]
    end.
    simpl. apply elem_of_app. right. do 2 right. left.
  - intros [Hin | Hin]%elem_of_app; [done|].
    repeat (apply elem_of_cons in Hin as [? | Hin]; [done|]).
    by apply elem_of_nil in Hin.
Qed.

(** Scenario A through the whole time-persistence workflow. *)
Example time_update_run :
  update_miz_start_time (a_world true server_running 0 (a_config true))
    (lit "C:/Missions/persist.miz") 90000
  = (Returns true,
     [ProcessScan; NotifyInfo (ServerStopped TimeUpdate); Kill 4242; Sleep 15;
      Run7zip Extract; ReadText;
      WriteText
        (lit "mission = {" ++ block_year_first ++ [LF; TAB] ++ a_weather_block ++ [LF]
         ++ [TAB; TAB] ++ lit "[" ++ quoted "start_time" ++ lit "] = 100," ++ [LF]
         ++ [TAB] ++ lit "[" ++ quoted "start_time" ++ lit "] = 39600," ++ [LF]
         ++ lit "} -- end of mission");
      Run7zip Update; Spawn; NotifyInfo (ServerRestarted TimeUpdate)]).
Proof. reflexivity. Qed.

(** The archive tool cannot be started: the run raises after the server
    was stopped, and nothing is notified. *)
Example archive_tool_absent :
  update_miz_start_time (tool_absent (a_world true server_running 0 (a_config true)))
    (lit "C:/Missions/persist.miz") 90000
  = (Raises,
     [ProcessScan; NotifyInfo (ServerStopped TimeUpdate); Kill 4242; Sleep 15;
      Run7zip Extract])
  ∧ rotate_weather_in_miz (tool_absent (a_world true server_running 0 (a_config true)))
    = (Raises,
       [ProcessScan; NotifyInfo (ServerStopped WeatherRotation); Kill 4242; Sleep 15;
        Run7zip Extract]).
Proof. split; reflexivity. Qed.

(** The weather-rotation workflow on the same descriptor: winter date,
    and (the draw being 42 against a weight of 30) a good template. *)
Example weather_rotation_run :
  rotate_weather_in_miz (a_world true [] 0 (a_config true))
  = (Returns true,
     [ProcessScan; Run7zip Extract; ReadText;
      WriteText
        (lit "mission = {" ++ new_date_block (2025, 2, 1) ++ [LF; TAB]
         ++ a_template GOOD_WEATHER_DIR ++ [LF]
         ++ [TAB; TAB] ++ lit "[" ++ quoted "start_time" ++ lit "] = 100," ++ [LF]
         ++ [TAB] ++ lit "[" ++ quoted "start_time" ++ lit "] = 36000," ++ [LF]
         ++ lit "} -- end of mission" ++ [LF]);
      Run7zip Update; Spawn; NotifyInfo (ServerRestarted WeatherRotation)]).
Proof. reflexivity. Qed.

(** ** The string model on small inputs *)

Example splitlines_boundaries :
  splitlines (lit "a" ++ [LF; LF] ++ lit "b" ++ [CR; LF] ++ lit "c" ++ [CR] ++ lit "d" ++ [LF])
  = [lit "a"; []; lit "b"; lit "c"; lit "d"].
Proof. reflexivity. Qed.

Example split_keeps_empty_fields :
  split "="%char (lit "a=b==c") = [lit "a"; lit "b"; []; lit "c"].
Proof. reflexivity. Qed.

Example int_reads :
  py_int (lit " -1_000 ") = Some (-1000) ∧ py_int (lit "007") = Some 7
  ∧ py_int (lit "+5") = Some 5 ∧ py_int (lit "1__0") = None
  ∧ py_int (lit "_1") = None ∧ py_int (lit "1_") = None
  ∧ py_int (lit "- 5") = None ∧ py_int (lit "0x1") = None ∧ py_int [] = None.
Proof. repeat split; reflexivity. Qed.

Example line_value_reads :
  line_value ([TAB] ++ lit "[" ++ quoted "start_time" ++ lit "] = 36000, -- x = 1")
  = Some 36000.
Proof. reflexivity. Qed.

(** The mission-identity check of the design document: both spellings of
    the path have the same normal form. *)
Example normalize_path_spellings :
  _normalize_path (lit "C:\Missions\Foo.miz") = lit "c:/missions/foo.miz"
  ∧ _normalize_path (lit "c:/missions/foo.miz") = lit "c:/missions/foo.miz"
  ∧ replace (lit "//") (lit "/") (lit "a///b////c") = lit "a//b//c".
Proof. repeat split; reflexivity. Qed.

(** ** The start_time round trip *)

(** X1: when some line of the descriptor holds the start_time marker and
    [v] lies in 0..86399, reading the start time back from the text that
    [_replace_start_time] returns gives [v]: the line written is the last
    marker line and it reads as [v]. *)
Theorem parse_after_replace (text : str) (v : Z) :
  Exists (λ l, has_start_time l = true) (splitlines text) →
  0 ≤ v ≤ MAX_TIME →
  _parse_start_time (_replace_start_time text v) = Some v.
Proof.
  intros Hex _.
  destruct (last_start_time_index (splitlines text)) as [k|] eqn:Hk; last first.
  { apply last_index_None in Hk. apply Exists_exists in Hex as (l & Hl & Hm).
    rewrite Forall_forall in Hk. specialize (Hk l Hl). congruence. }
  apply last_index_Some in Hk as (l1 & line & l2 & Hlines & _ & Hline & Hl2).
  by eapply parse_replaced.
Qed.

Lemma parse_after_replace_witness :
  Exists (λ l, has_start_time l = true) (splitlines scenario_A)
  ∧ 0 ≤ 39600 ≤ MAX_TIME
  ∧ _parse_start_time (_replace_start_time scenario_A 39600) = Some 39600.
Proof.
  assert (Hex : Exists (λ l, has_start_time l = true) (splitlines scenario_A))
    by (apply Exists_cons_tl, Exists_cons_hd; reflexivity).
  assert (Hv : 0 ≤ 39600 ≤ MAX_TIME) by (unfold MAX_TIME; lia).
  split; [exact Hex|]. split; [exact Hv|].
  exact (parse_after_replace scenario_A 39600 Hex Hv).
Defined.

(** X2: when the start_time step succeeds on a descriptor with the delta
    [d] (of either sign), the text it returns reads back as
    (current + d) mod 86400, where [current] is the value read from the
    input, and that value lies in 0..86399. *)
Theorem update_keeps_range (text : str) (d : Z) (new_text : str) :
  start_time_update text d = inr new_text →
  ∃ current, _parse_start_time text = Some current
    ∧ _parse_start_time new_text = Some ((current + d) mod 86400)
    ∧ 0 ≤ (current + d) mod 86400 ≤ 86399.
Proof.
  intros (cur & _ & _ & _ & Hcur & _ & _ & _ & _ & Hnew)%update_reads_back.
  exists cur. split_and!; try done; pose proof (Z.mod_pos_bound (cur + d) 86400); lia.
Qed.

Lemma update_keeps_range_witness :
  start_time_update scenario_A (-90000) = inr (_replace_start_time scenario_A 32400)
  ∧ ∃ current, _parse_start_time scenario_A = Some current
      ∧ _parse_start_time (_replace_start_time scenario_A 32400)
        = Some ((current + -90000) mod 86400)
      ∧ 0 ≤ (current + -90000) mod 86400 ≤ 86399.
Proof.
  assert (H : start_time_update scenario_A (-90000)
              = inr (_replace_start_time scenario_A 32400)) by reflexivity.
  split; [exact H|].
  exact (update_keeps_range scenario_A (-90000) _ H).
Defined.

(** X3: on a descriptor that does not end with an empty line, running the
    start_time step with [d1] and then with [d2] on its result gives the
    same text as one step with [d1 + d2], and a further step with delta 0
    changes nothing. *)
Theorem updates_compose (text : str) (d1 d2 : Z) (text1 : str) :
  start_time_update text d1 = inr text1 →
  last (splitlines text) ≠ Some [] →
  start_time_update text1 d2 = start_time_update text (d1 + d2)
  ∧ start_time_update text1 0 = inr text1.
Proof.
  intros H1 Hlast.
  assert (Hgen : ∀ d2, start_time_update text1 d2 = start_time_update text (d1 + d2)).
  { clear d2. intros d2.
    destruct (update_reads_back text d1 text1 H1)
      as (cur & l1 & line & l2 & Hcur & Hlines & Hline & Hl2 & Htext1 & Hnew).
    unfold start_time_update. rewrite Hcur, Hnew. f_equal.
    change (MAX_TIME + 1) with 86400.
    replace (((cur + d1) mod 86400 + d2) mod 86400) with ((cur + (d1 + d2)) mod 86400)
      by (rewrite Z.add_mod_idemp_l by lia; f_equal; lia).
    destruct (splitlines_replaced text ((cur + d1) mod 86400) l1 l2 line Hlines Hline Hl2)
      as (_ & l2' & Hsplit & Hl2' & Heq).
    rewrite (Heq Hlast) in Hsplit. rewrite <- Htext1 in Hsplit.
    destruct (splitlines_replaced text1 ((cur + (d1 + d2)) mod 86400) l1 l2 _ Hsplit
                (start_time_line_has_marker _) Hl2) as (-> & _).
    by destruct (splitlines_replaced text ((cur + (d1 + d2)) mod 86400) l1 l2 line
                   Hlines Hline Hl2) as (-> & _). }
  split; [apply Hgen|].
  rewrite Hgen, Z.add_0_r. done.
Qed.

Lemma updates_compose_witness :
  start_time_update scenario_A 3600 = inr (_replace_start_time scenario_A 39600)
  ∧ last (splitlines scenario_A) ≠ Some []
  ∧ start_time_update (_replace_start_time scenario_A 39600) 90000
    = start_time_update scenario_A (3600 + 90000)
  ∧ start_time_update (_replace_start_time scenario_A 39600) 0
    = inr (_replace_start_time scenario_A 39600).
Proof.
  assert (H : start_time_update scenario_A 3600
              = inr (_replace_start_time scenario_A 39600)) by reflexivity.
  assert (Hlast : last (splitlines scenario_A) ≠ Some []) by (intros [=]).
  split; [exact H|]. split; [exact Hlast|].
  exact (updates_compose scenario_A 3600 90000 _ H Hlast).
Defined.

(** ** The time-persistence workflow, step by step *)

Lemma kill_result wf w :
  (result (_kill_dcs_server_if_running wf w) = true →
   Forall (λ e, ∀ f, e ≠ NotifyError f) (trace (_kill_dcs_server_if_running wf w)))
  ∧ (result (_kill_dcs_server_if_running wf w) = false →
     NotifyError StopFailed ∈ trace (_kill_dcs_server_if_running wf w)).
Proof.
  destruct (first_server (processes w)) as [H | (l1 & p & l2 & Hp & H1 & Hs)].
  - unfold _kill_dcs_server_if_running. rewrite run_bind_eq, kill_loop_none by done.
    simpl. split; [|done]. intros _. by repeat constructor.
  - rewrite (stop_at_first_server wf w l1 l2 p Hp H1 Hs).
    destruct (kill_raises w (pid p)); simpl; split; try done.
    + intros _. set_solver.
    + intros _. by repeat constructor.
Qed.

Ltac not_in H :=
  repeat (apply elem_of_cons in H as [? | H]; [done|]); by apply elem_of_nil in H.

Lemma stop_trace_only wf w e :
  e ∈ trace (_kill_dcs_server_if_running wf w) → stop_event wf e.
Proof. pose proof (kill_trace wf w) as H. rewrite Forall_forall in H. apply H. Qed.

Lemma stop_trace_no_spawn wf w : Spawn ∉ trace (_kill_dcs_server_if_running wf w).
Proof.
  intros [? | [? | [[? ?] | [? | ?]]]]%stop_trace_only; done.
Qed.

(** A statement about a success that the hypotheses of a leaf refute. *)
Ltac leaf_absurd :=
  intros; unfold repacked, rotation_repacked in *;
  repeat match goal with
         | H : _ ∧ _ |- _ => destruct H
         | H : _ ∨ _ |- _ => destruct H
         | H : ∃ _, _ |- _ => destruct H
         end;
  simplify_eq; first [congruence | done].

(** An event that is not in the trace of a leaf. *)
Ltac not_in_leaf Hstop Hin :=
  first [ by apply Hstop in Hin
        | apply elem_of_app in Hin as [Hin | Hin]; [by apply Hstop in Hin | not_in Hin]
        | not_in Hin ].

(** A leaf of the workflow that ends before the server is started. *)
Ltac failing_leaf Hstop :=
  split_and!;
  [ split; [ intros Hin; exfalso; not_in_leaf Hstop Hin | leaf_absurd ]
  | split; [ done | leaf_absurd ]
  | leaf_absurd ].

(** X4: [update_miz_start_time] starts the server exactly when every step
    up to the repack succeeded (archive present, server stopped or absent,
    extraction, read, start_time step, write, repack), and returns [True]
    exactly when moreover the start did not raise; a successful run consists
    of the stop, the extraction, the read, the write of the updated text,
    the repack, the start and its notification, in this order. *)
Theorem update_pipeline (w : world) (miz_path : str) (d : Z) :
  let r := update_miz_start_time w miz_path d in
  (Spawn ∈ trace r ↔ ∃ new_text, repacked w miz_path d new_text)
  ∧ (result r = Returns true
     ↔ (∃ new_text, repacked w miz_path d new_text) ∧ popen_raises w = false)
  ∧ (∀ new_text, repacked w miz_path d new_text → popen_raises w = false →
       r = (Returns true,
            trace (_kill_dcs_server_if_running TimeUpdate w)
            ++ [Run7zip Extract; ReadText; WriteText new_text; Run7zip Update;
                Spawn; NotifyInfo (ServerRestarted TimeUpdate)])).
Proof.
  simpl. unfold repacked, update_miz_start_time.
  pose proof (stop_trace_no_spawn TimeUpdate w) as Hstop.
  destruct (path_exists w miz_path); simpl; [|failing_leaf Hstop].
  rewrite run_bind_eq.
  destruct (_kill_dcs_server_if_running TimeUpdate w) as [[] tk]; simpl in *;
    [|rewrite app_nil_r; failing_leaf Hstop].
  rewrite run_bind_eq.
  destruct (run_7zip_cases w Extract) as [[Hrr ->] | [(Hrr & Hrc & ->) | (Hrr & Hrc & ->)]];
    simpl; [failing_leaf Hstop..|].
  destruct (mission_extracted w); simpl; [|failing_leaf Hstop].
  destruct (mission_text w) as [text|]; simpl; [|failing_leaf Hstop].
  destruct (start_time_update text d) as [f|new_text] eqn:Hupd; simpl;
    [failing_leaf Hstop|].
  destruct (write_raises w); simpl; [failing_leaf Hstop|].
  rewrite run_bind_eq.
  destruct (run_7zip_cases w Update)
    as [[Hrr2 ->] | [(Hrr2 & Hrc2 & ->) | (Hrr2 & Hrc2 & ->)]];
    simpl; [failing_leaf Hstop..|].
  assert (Hall : ∃ nt, true = true ∧ true = true
                   ∧ run_raises w Extract = false ∧ returncode w Extract = 0
                   ∧ true = true
                   ∧ (∃ t, Some text = Some t ∧ start_time_update t d = inr nt)
                   ∧ false = false
                   ∧ run_raises w Update = false ∧ returncode w Update = 0).
  { exists new_text. split_and!; try done. by exists text. }
  assert (Hin : ∀ l, Spawn ∈ tk ++ Run7zip Extract :: ReadText :: WriteText new_text
                       :: Run7zip Update :: Spawn :: l).
  { intros l. apply elem_of_app. right. do 4 right. left. }
  rewrite run_bind_eq. unfold _start_dcs_server.
  destruct (popen_raises w); simpl.
  - split_and!.
    + split; [done|intros _; apply Hin].
    + split; [done|by intros [_ ?]].
    + done.
  - split_and!.
    + split; [done|intros _; apply Hin].
    + done.
    + intros nt (_ & _ & _ & _ & _ & (t & [= <-] & Ht) & _) _.
      rewrite Hupd in Ht. by injection Ht as ->.
Qed.

(** A leaf that fails: its trace ends with the report of the failure. *)
Ltac notified :=
  intros _; eexists;
  first [ solve [repeat first [by left | right]]
        | apply elem_of_app; right; solve [repeat first [by left | right]] ].

(** A leaf without report: the stop reported nothing, and neither does
    what follows it. *)
Ltac unreported Hok :=
  let f := fresh "f" in let Hin := fresh "Hin" in
  intros [f Hin];
  first [ not_in Hin
        | apply elem_of_app in Hin as [Hin | Hin];
          [by destruct (Hok _ Hin f) | not_in Hin] ].

(** X5: [update_miz_start_time] returns [False] exactly when it has sent
    an error notification, and a run that raises has not started the
    server.  Such a run exists: with the archive present and the server
    stopped or absent, an archive tool that cannot be started makes the
    run raise right after the stop, without any error notification. *)
Theorem update_failure_notified (w : world) (miz_path : str) (d : Z) :
  let r := update_miz_start_time w miz_path d in
  (result r = Returns false ↔ ∃ reason, NotifyError reason ∈ trace r)
  ∧ (result r = Raises → Spawn ∉ trace r)
  ∧ (path_exists w miz_path = true →
     result (_kill_dcs_server_if_running TimeUpdate w) = true →
     run_raises w Extract = true →
     r = (Raises, trace (_kill_dcs_server_if_running TimeUpdate w) ++ [Run7zip Extract])).
Proof.
  simpl. unfold update_miz_start_time.
  pose proof (stop_trace_no_spawn TimeUpdate w) as Hstop.
  destruct (path_exists w miz_path); simpl;
    [|split_and!; [split; [notified|done] | done | done]].
  rewrite run_bind_eq.
  destruct (kill_result TimeUpdate w) as [Hok Hfail].
  destruct (_kill_dcs_server_if_running TimeUpdate w) as [[] tk]; simpl in *.
  2:{ rewrite app_nil_r. split_and!; [|done..].
      split; [intros _; exists StopFailed; by apply Hfail|done]. }
  specialize (Hok eq_refl). rewrite Forall_forall in Hok.
  rewrite run_bind_eq.
  destruct (run_7zip_cases w Extract) as [[Hrr ->] | [(Hrr & Hrc & ->) | (Hrr & Hrc & ->)]];
    simpl.
  { split_and!; [split; [done|unreported Hok] | |done].
    intros _ Hin. not_in_leaf Hstop Hin. }
  { split_and!; [split; [notified|done] | done | congruence]. }
  destruct (mission_extracted w); simpl;
    [|split_and!; [split; [notified|done] | done | intros; congruence]].
  destruct (mission_text w) as [text|]; simpl;
    [|split_and!; [split; [notified|done] | done | intros; congruence]].
  destruct (start_time_update text d) as [f|new_text] eqn:Hupd; simpl;
    [split_and!; [split; [notified|done] | done | intros; congruence]|].
  destruct (write_raises w); simpl;
    [split_and!; [split; [notified|done] | done | intros; congruence]|].
  rewrite run_bind_eq.
  destruct (run_7zip_cases w Update)
    as [[Hrr2 ->] | [(Hrr2 & Hrc2 & ->) | (Hrr2 & Hrc2 & ->)]]; simpl.
  { split_and!; [split; [done|unreported Hok] | |intros; congruence].
    intros _ Hin. not_in_leaf Hstop Hin. }
  { split_and!; [split; [notified|done] | done | intros; congruence]. }
  rewrite run_bind_eq. unfold _start_dcs_server.
  destruct (popen_raises w); simpl;
    [split_and!; [split; [notified|done] | done | intros; congruence]|].
  split_and!; [split; [done|unreported Hok] | done | intros; congruence].
Qed.

(** ** The weather-rotation workflow, step by step *)

(** X6: [rotate_weather_in_miz] starts the server exactly when weather
    rotation is enabled and every step up to the repack succeeded; it
    returns [True] exactly when rotation is disabled in the configuration
    or all these steps and the start succeeded; a successful rotation
    consists of the stop, the extraction, the read, the write of the text
    with the new date and weather blocks, the repack, the start and its
    notification, in this order. *)
Theorem rotation_pipeline (w : world) :
  let r := rotate_weather_in_miz w in
  (Spawn ∈ trace r ↔ ∃ cfg new_text, rotation_repacked w cfg new_text)
  ∧ (result r = Returns true
     ↔ (∃ cfg, config_file w = Loaded cfg ∧ weather_rotation_enabled cfg = false)
       ∨ ((∃ cfg new_text, rotation_repacked w cfg new_text) ∧ popen_raises w = false))
  ∧ (∀ cfg new_text, rotation_repacked w cfg new_text → popen_raises w = false →
       r = (Returns true,
            trace (_kill_dcs_server_if_running WeatherRotation w)
            ++ [Run7zip Extract; ReadText; WriteText new_text; Run7zip Update;
                Spawn; NotifyInfo (ServerRestarted WeatherRotation)])).
Proof.
  simpl. unfold rotation_repacked, rotate_weather_in_miz.
  pose proof (stop_trace_no_spawn WeatherRotation w) as Hstop.
  destruct (config_file w) as [| | |cfg] eqn:Hcfg; simpl; try failing_leaf Hstop.
  destruct (weather_rotation_enabled cfg) eqn:Hon; simpl.
  2:{ split_and!.
      - split; [intros Hin; not_in Hin|leaf_absurd].
      - split; [|done]. intros _. left. by exists cfg.
      - leaf_absurd. }
  case_decide as Hpath; simpl; [failing_leaf Hstop|].
  destruct (weather_bad_weather_percentage cfg) as [bad_pct|] eqn:Hpct; simpl;
    [|failing_leaf Hstop].
  destruct (path_exists w (mission_path cfg)) eqn:Hex; simpl; [|failing_leaf Hstop].
  rewrite run_bind_eq.
  destruct (_kill_dcs_server_if_running WeatherRotation w) as [[] tk]; simpl in *;
    [|rewrite app_nil_r; failing_leaf Hstop].
  rewrite run_bind_eq.
  destruct (run_7zip_cases w Extract) as [[Hrr ->] | [(Hrr & Hrc & ->) | (Hrr & Hrc & ->)]];
    simpl; [failing_leaf Hstop..|].
  destruct (mission_extracted w) eqn:Hme; simpl; [|failing_leaf Hstop].
  destruct (mission_text w) as [text|] eqn:Htext; simpl; [|failing_leaf Hstop].
  destruct (_update_date_block (today w) text (weather_season cfg)) as [dated|] eqn:Hdate;
    simpl; [|failing_leaf Hstop].
  destruct (_pick_weather_template w bad_pct) as [template|] eqn:Hpick; simpl;
    [|failing_leaf Hstop].
  destruct (_replace_weather_block w dated template) as [[]|[new_text|]] eqn:Hrepl;
    simpl; [failing_leaf Hstop| |failing_leaf Hstop].
  destruct (write_raises w) eqn:Hwr; simpl; [failing_leaf Hstop|].
  rewrite run_bind_eq.
  destruct (run_7zip_cases w Update)
    as [[Hrr2 ->] | [(Hrr2 & Hrc2 & ->) | (Hrr2 & Hrc2 & ->)]];
    simpl; [failing_leaf Hstop..|].
  assert (Hall : ∃ (c : config) (nt : str),
             Loaded cfg = Loaded c ∧ weather_rotation_enabled c = true
             ∧ mission_path c ≠ [] ∧ path_exists w (mission_path c) = true
             ∧ true = true
             ∧ run_raises w Extract = false ∧ returncode w Extract = 0
             ∧ true = true
             ∧ (∃ pct t dd tt, weather_bad_weather_percentage c = Some pct
                  ∧ Some text = Some t
                  ∧ _update_date_block (today w) t (weather_season c) = Some dd
                  ∧ _pick_weather_template w pct = Some tt
                  ∧ _replace_weather_block w dd tt = inr (Some nt))
             ∧ false = false
             ∧ run_raises w Update = false ∧ returncode w Update = 0).
  { exists cfg, new_text. split_and!; try done. by exists bad_pct, text, dated, template. }
  assert (Hin : ∀ l, Spawn ∈ tk ++ Run7zip Extract :: ReadText :: WriteText new_text
                       :: Run7zip Update :: Spawn :: l).
  { intros l. apply elem_of_app. right. do 4 right. left. }
  rewrite run_bind_eq. unfold _start_dcs_server.
  destruct (popen_raises w); simpl.
  - split_and!.
    + split; [eauto|intros _; apply Hin].
    + split; [done|leaf_absurd].
    + done.
  - split_and!.
    + split; [eauto|intros _; apply Hin].
    + split; [eauto|done].
    + intros cfg' nt Hrep _. do 3 f_equal.
      destruct Hrep
        as (? & _ & _ & _ & _ & _ & _ & _ & (pct & t & dd & tt & ? & ? & ? & ? & ?) & _).
      simplify_eq. congruence.
Qed.

(** X7: [rotate_weather_in_miz] returns [False] exactly when it has sent
    an error notification, and a run that raises has not started the
    server.  It raises before anything else when the configuration is
    not a JSON object, and, with rotation enabled and a mission path set,
    when the weight does not convert to an integer: before the archive
    is looked for and before any process control. *)
Theorem rotation_failure_notified (w : world) :
  let r := rotate_weather_in_miz w in
  (result r = Returns false ↔ ∃ reason, NotifyError reason ∈ trace r)
  ∧ (result r = Raises → Spawn ∉ trace r)
  ∧ (config_file w = LoadedNotObject → r = (Raises, []))
  ∧ (∀ cfg, config_file w = Loaded cfg →
       weather_rotation_enabled cfg = true → mission_path cfg ≠ [] →
       weather_bad_weather_percentage cfg = None →
       r = (Raises, [])).
Proof.
  simpl. unfold rotate_weather_in_miz.
  pose proof (stop_trace_no_spawn WeatherRotation w) as Hstop.
  destruct (config_file w) as [| | |cfg] eqn:Hcfg; simpl.
  1, 2: split_and!; [split; [notified|done] | done | done | done].
  { split_and!; [split; [done|intros [f Hin]; not_in Hin] | | done | done].
    intros _ Hin. not_in Hin. }
  destruct (weather_rotation_enabled cfg) eqn:Hon; simpl.
  2:{ split_and!; [split; [done|intros [f Hin]; not_in Hin] | done | done |].
      intros c [= <-]. congruence. }
  case_decide as Hpath; simpl.
  { split_and!; [split; [notified|done] | done | done |].
    intros c [= <-]. congruence. }
  destruct (weather_bad_weather_percentage cfg) as [bad_pct|] eqn:Hpct; simpl.
  2:{ split_and!; [split; [done|intros [f Hin]; not_in Hin] | | done | done].
      intros _ Hin. not_in Hin. }
  assert (Hno : ∀ c, Loaded cfg = Loaded c →
            weather_rotation_enabled c = true → mission_path c ≠ [] →
            weather_bad_weather_percentage c = None → False).
  { intros c [= <-]. congruence. }
  destruct (path_exists w (mission_path cfg)) eqn:Hex; simpl;
    [|split_and!; [split; [notified|done] | done | done | intros; exfalso; eauto]].
  rewrite run_bind_eq.
  destruct (kill_result WeatherRotation w) as [Hok Hfail].
  destruct (_kill_dcs_server_if_running WeatherRotation w) as [[] tk]; simpl in *.
  2:{ rewrite app_nil_r. split_and!; [|done|done|intros; exfalso; eauto].
      split; [intros _; exists StopFailed; by apply Hfail|done]. }
  specialize (Hok eq_refl). rewrite Forall_forall in Hok.
  rewrite run_bind_eq.
  destruct (run_7zip_cases w Extract) as [[Hrr ->] | [(Hrr & Hrc & ->) | (Hrr & Hrc & ->)]];
    simpl.
  { split_and!; [split; [done|unreported Hok] | |done|intros; exfalso; eauto].
    intros _ Hin. not_in_leaf Hstop Hin. }
  { split_and!; [split; [notified|done] | done | done | intros; exfalso; eauto]. }
  destruct (mission_extracted w) eqn:Hme; simpl;
    [|split_and!; [split; [notified|done] | done | done | intros; exfalso; eauto]].
  destruct (mission_text w) as [text|] eqn:Htext; simpl;
    [|split_and!; [split; [notified|done] | done | done | intros; exfalso; eauto]].
  destruct (_update_date_block (today w) text (weather_season cfg)) as [dated|] eqn:Hdate;
    simpl;
    [|split_and!; [split; [notified|done] | done | done | intros; exfalso; eauto]].
  destruct (_pick_weather_template w bad_pct) as [template|] eqn:Hpick; simpl;
    [|split_and!; [split; [notified|done] | done | done | intros; exfalso; eauto]].
  destruct (_replace_weather_block w dated template) as [[]|[new_text|]] eqn:Hrepl;
    simpl.
  { split_and!; [split; [done|unreported Hok] | |done|intros; exfalso; eauto].
    intros _ Hin. not_in_leaf Hstop Hin. }
  2:{ split_and!; [split; [notified|done] | done | done | intros; exfalso; eauto]. }
  destruct (write_raises w) eqn:Hwr; simpl;
    [split_and!; [split; [notified|done] | done | done | intros; exfalso; eauto]|].
  rewrite run_bind_eq.
  destruct (run_7zip_cases w Update)
    as [[Hrr2 ->] | [(Hrr2 & Hrc2 & ->) | (Hrr2 & Hrc2 & ->)]]; simpl.
  { split_and!; [split; [done|unreported Hok] | |done|intros; exfalso; eauto].
    intros _ Hin. not_in_leaf Hstop Hin. }
  { split_and!; [split; [notified|done] | done | done | intros; exfalso; eauto]. }
  rewrite run_bind_eq. unfold _start_dcs_server.
  destruct (popen_raises w); simpl;
    [split_and!; [split; [notified|done] | done | done | intros; exfalso; eauto]|].
  split_and!; [split; [done|unreported Hok] | done | done | intros; exfalso; eauto].
Qed.

(** ** The weather block *)

Lemma lang_star_space (m : str) : Re.lang (Re.Star Re.Space) m → spaces m.
Proof. intros H. by inversion H. Qed.

Lemma lang_seq_inv r1 r2 (m : str) :
  Re.lang (r1 ⋅ r2) m → ∃ m1 m2, m = m1 ++ m2 ∧ Re.lang r1 m1 ∧ Re.lang r2 m2.
Proof. intros H. inversion H; subst. eauto. Qed.

Lemma lang_weather_pattern (m : str) :
  Re.lang weather_pattern m →
  ∃ ws1 ws2 body ws3, spaces ws1 ∧ spaces ws2 ∧ spaces ws3
    ∧ m = weather_block ws1 ws2 body ws3.
Proof.
  unfold weather_pattern. intros H.
  apply lang_seq_inv in H as (m1 & r1 & -> & H1 & H).
  apply (lang_text WEATHER_LABEL) in H1 as ->.
  apply lang_seq_inv in H as (ws1 & r2 & -> & H1%lang_star_space & H).
  apply lang_seq_inv in H as (m3 & r3 & -> & H3 & H).
  apply (lang_text (lit "=")) in H3 as ->.
  apply lang_seq_inv in H as (ws2 & r4 & -> & H2%lang_star_space & H).
  apply lang_seq_inv in H as (m5 & r5 & -> & H5 & H).
  apply (lang_text (lit "{")) in H5 as ->.
  apply lang_seq_inv in H as (body & r6 & -> & _ & H).
  apply lang_seq_inv in H as (m7 & r7 & -> & H7 & H).
  apply (lang_text (lit "},")) in H7 as ->.
  apply lang_seq_inv in H as (ws3 & r8 & -> & H8%lang_star_space & H).
  apply (lang_text (lit "-- end of " ++ WEATHER_LABEL)) in H as ->.
  by exists ws1, ws2, body, ws3.
Qed.

Lemma lang_weather_closing (m : str) :
  Re.lang weather_closing m → ∃ ws, spaces ws ∧ m = lit "}," ++ ws ++ WEATHER_END.
Proof.
  unfold weather_closing. intros H.
  apply lang_seq_inv in H as (m1 & r1 & -> & H1 & H).
  apply (lang_text (lit "},")) in H1 as ->.
  apply lang_seq_inv in H as (ws & r2 & -> & Hws%lang_star_space & H).
  apply (lang_text (lit "-- end of " ++ WEATHER_LABEL)) in H as ->.
  by exists ws.
Qed.

(** Inside a body that does not hold the end marker, no closing matches
    before the closing of the block. *)
Lemma no_earlier_closing (b1 b2 ws3 rest : str) :
  contains WEATHER_END (b1 ++ b2) = false → b2 ≠ [] →
  Re.match_at weather_closing (b2 ++ lit "}," ++ ws3 ++ WEATHER_END ++ rest) = None.
Proof.
  intros Hbody%contains_suffix Hb2. apply match_at_None. intros m t Heq Hm.
  apply lang_weather_closing in Hm as (ws & Hws & ->).
  assert (Hin : ∀ k, contains WEATHER_END ((lit "}," ++ ws ++ WEATHER_END) ++ k) = true).
  { intros k. replace ((lit "}," ++ ws ++ WEATHER_END) ++ k)
      with ((lit "}," ++ ws) ++ WEATHER_END ++ k) by (by rewrite <- !app_assoc).
    apply contains_app. }
  apply app_eq_inv in Heq as [(k & -> & _) | (k & Hk & Hrest)].
  { by rewrite Hin in Hbody. }
  destruct k as [|d k].
  { rewrite app_nil_r in Hk. subst b2. specialize (Hin []).
    rewrite app_nil_r in Hin. by rewrite Hin in Hbody. }
  injection Hrest as <- _.
  destruct b2 as [|c b2]; [done|].
  assert (Hmem : "}"%char ∈ lit "," ++ ws ++ WEATHER_END).
  { change (lit "}," ++ ws ++ WEATHER_END) with ("}"%char :: lit "," ++ ws ++ WEATHER_END) in Hk.
    injection Hk as _ Hk.
    change (lit "," ++ ws ++ WEATHER_END) with (","%char :: ws ++ WEATHER_END).
    rewrite Hk. set_solver. }
  apply elem_of_app in Hmem as [Hmem | [Hmem | Hmem]%elem_of_app].
  - not_in Hmem.
  - rewrite Forall_forall in Hws. by apply Hws in Hmem.
  - not_in Hmem.
Qed.

Lemma match_weather_body (body ws3 rest : str) :
  contains WEATHER_END body = false → spaces ws3 →
  Re.match_re (Re.LazyStar Re.Any ⋅ weather_closing)
    (body ++ lit "}," ++ ws3 ++ WEATHER_END ++ rest) Some = Some rest.
Proof.
  intros Hbody Hws3. rewrite match_seq.
  change (Re.star_lazy (Re.match_at weather_closing) Re.Any
            (body ++ lit "}," ++ ws3 ++ WEATHER_END ++ rest) = Some rest).
  apply star_lazy_run.
  - by apply Forall_true.
  - intros b1 b2 -> Hb2. by eapply no_earlier_closing.
  - unfold Re.match_at, weather_closing.
    apply match_seq_text, match_seq_star; [done|by vm_compute|].
    unfold WEATHER_END. by rewrite match_text.
Qed.

Lemma match_weather_block (ws1 ws2 body ws3 rest : str) :
  spaces ws1 → spaces ws2 → spaces ws3 →
  contains WEATHER_END body = false →
  Re.match_at weather_pattern (weather_block ws1 ws2 body ws3 ++ rest) = Some rest.
Proof.
  intros H1 H2 H3 Hbody.
  unfold Re.match_at, weather_pattern, weather_block. rewrite <- !app_assoc.
  apply match_seq_text.
  apply match_seq_star; [done|by vm_compute|].
  apply match_seq_text.
  apply match_seq_star; [done|by vm_compute|].
  apply match_seq_text.
  by apply match_weather_body.
Qed.

(** A label cannot start before another occurrence of itself and run
    into it: after its first character it holds no opening bracket. *)
Lemma weather_label_overlap (p2 tail T : str) :
  p2 ≠ [] → p2 ++ WEATHER_LABEL ++ T = WEATHER_LABEL ++ tail →
  ∃ p2', p2 = WEATHER_LABEL ++ p2'.
Proof.
  intros Hp2 Heq.
  apply app_eq_inv in Heq as [(k & -> & _) | (k & Hk & Hrest)]; [by exists k|].
  destruct k as [|d k]; [exists []; by rewrite Hk, !app_nil_r|].
  exfalso. injection Hrest as <- _.
  destruct p2 as [|c p2]; [done|]. injection Hk as _ Hk.
  assert (Hin : "["%char ∈ p2 ++ "["%char :: k) by set_solver.
  rewrite <- Hk in Hin. not_in Hin.
Qed.

Lemma no_earlier_weather (pre T : str) :
  contains WEATHER_LABEL pre = false →
  ∀ p1 p2, pre = p1 ++ p2 → p2 ≠ [] →
    Re.match_at weather_pattern (p2 ++ WEATHER_LABEL ++ T) = None.
Proof.
  intros Hpre p1 p2 -> Hp2. apply match_at_None. intros m t Heq Hm.
  apply lang_weather_pattern in Hm as (ws1 & ws2 & body & ws3 & _ & _ & _ & ->).
  unfold weather_block in Heq. rewrite <- !app_assoc in Heq.
  apply weather_label_overlap in Heq as [p2' ->]; [|done].
  by rewrite contains_app in Hpre.
Qed.

Lemma replace_weather_block_Some w (text template pre rest : str) :
  Re.search weather_pattern text = Some (pre, rest) →
  contains [BACKSLASH] template = false →
  _replace_weather_block w text template = inr (Some (pre ++ template ++ rest)).
Proof.
  intros Hs Ht. unfold _replace_weather_block, expand, Re.sub_first.
  by rewrite Hs, Ht.
Qed.

(** The first weather block of a text is the one replaced. *)
Lemma weather_block_replaced w (template pre ws1 ws2 body ws3 rest : str) :
  spaces ws1 → spaces ws2 → spaces ws3 →
  contains WEATHER_END body = false →
  contains WEATHER_LABEL pre = false →
  contains [BACKSLASH] template = false →
  _replace_weather_block w (pre ++ weather_block ws1 ws2 body ws3 ++ rest) template
  = inr (Some (pre ++ template ++ rest)).
Proof.
  intros H1 H2 H3 Hbody Hpre Ht.
  apply replace_weather_block_Some; [|done]. unfold Re.search.
  rewrite search_from_skip.
  - by apply search_from_here, match_weather_block.
  - unfold weather_block. rewrite <- !app_assoc. by apply no_earlier_weather.
Qed.

(** X8: [_replace_weather_block] replaces the first weather block,
    nested groups included, up to its end-marker comment by a template
    without backslash, and leaves the text before and after unchanged; it
    returns [None] exactly when no part of the text is in the language of
    the pattern, in particular when the text holds no end-marker comment
    or no weather label. *)
Theorem weather_block_replace (w : world) (text template : str) :
  (∀ pre ws1 ws2 body ws3 rest,
     text = pre ++ weather_block ws1 ws2 body ws3 ++ rest →
     spaces ws1 → spaces ws2 → spaces ws3 →
     contains WEATHER_END body = false →
     contains WEATHER_LABEL pre = false →
     contains [BACKSLASH] template = false →
     _replace_weather_block w text template = inr (Some (pre ++ template ++ rest)))
  ∧ (_replace_weather_block w text template = inr None
     ↔ ∀ p m t, text = p ++ m ++ t → ¬ Re.lang weather_pattern m)
  ∧ (contains WEATHER_END text = false → _replace_weather_block w text template = inr None)
  ∧ (contains WEATHER_LABEL text = false → _replace_weather_block w text template = inr None).
Proof.
  assert (Hnone : _replace_weather_block w text template = inr None
                  ↔ ∀ p m t, text = p ++ m ++ t → ¬ Re.lang weather_pattern m).
  { unfold _replace_weather_block.
    destruct (Re.search weather_pattern text) as [[pre rest]|] eqn:Hs.
    - split.
      + by destruct (expand w template).
      + intros H. apply (search_from_None weather_pattern []) in H.
        unfold Re.search in Hs. congruence.
    - split; [|done]. intros _. by apply (search_from_None weather_pattern []). }
  split_and!.
  - intros pre ws1 ws2 body ws3 rest -> H1 H2 H3 Hbody Hpre Ht.
    by apply weather_block_replaced.
  - done.
  - intros Hend. apply Hnone. intros p m t -> Hm.
    apply lang_weather_pattern in Hm as (ws1 & ws2 & body & ws3 & _ & _ & _ & ->).
    unfold weather_block in Hend.
    replace (p ++ (WEATHER_LABEL ++ ws1 ++ lit "=" ++ ws2 ++ lit "{" ++ body ++ lit "},"
                   ++ ws3 ++ WEATHER_END) ++ t)
      with ((p ++ WEATHER_LABEL ++ ws1 ++ lit "=" ++ ws2 ++ lit "{" ++ body ++ lit "},"
               ++ ws3) ++ WEATHER_END ++ t) in Hend by (by rewrite <- !app_assoc).
    by rewrite contains_app in Hend.
  - intros Hlabel. apply Hnone. intros p m t -> Hm.
    apply lang_weather_pattern in Hm as (ws1 & ws2 & body & ws3 & _ & _ & _ & ->).
    unfold weather_block in Hlabel. rewrite <- !app_assoc in Hlabel.
    by rewrite contains_app in Hlabel.
Qed.

(** ** A second run on the date block *)

Lemma contains_closing_none (body : str) :
  Forall (λ c, c ≠ "}"%char) body → contains (lit "},") body = false.
Proof.
  induction 1 as [|c body Hc _ IH]; [done|].
  rewrite contains_unfold, IH.
  change (starts_with (lit "},") (c :: body))
    with (Ascii.eqb "}" c && starts_with (lit ",") body).
  by rewrite (proj2 (Ascii.eqb_neq "}" c)) by done.
Qed.

(** The canonical block is itself a date block, with its end marker and
    a line feed after it. *)
Lemma new_date_block_shape (date : Z * Z * Z) :
  ∃ body, Forall (λ c, c ≠ "}"%char) body
    ∧ ∀ rest, new_date_block date ++ rest
        = date_block [TAB] (lit " ") (lit " " ++ [LF; TAB]) body (lit " ")
            (Some (lit " ")) ++ LF :: rest.
Proof.
  destruct date as [[year month] day].
  exists ([LF] ++ [TAB; TAB] ++ lit "[" ++ quoted "Day" ++ lit "] = " ++ of_Z day ++ lit "," ++ [LF]
          ++ [TAB; TAB] ++ lit "[" ++ quoted "Year" ++ lit "] = " ++ of_Z year ++ lit "," ++ [LF]
          ++ [TAB; TAB] ++ lit "[" ++ quoted "Month" ++ lit "] = " ++ of_Z month ++ lit "," ++ [LF]
          ++ [TAB]).
  split.
  - rewrite !Forall_app. split_and!; try (by repeat constructor); by apply of_Z_no.
  - intros rest. unfold new_date_block, date_block, end_marker. simpl from_option.
    rewrite <- !app_assoc. reflexivity.
Qed.

(** X9: on a descriptor whose date block is the canonical one written by
    an earlier run, [_update_date_block] writes the new canonical block
    and leaves one more line feed after it: the match ends at the
    end-marker comment, before the line feed that closes the canonical
    block. *)
Theorem date_block_second_run (today date : Z * Z * Z) (season pre rest : str) :
  contains DATE_LABEL pre = false →
  (∀ c, last pre = Some c → isspace c = false) →
  _update_date_block today (pre ++ new_date_block date ++ rest) season
  = Some (pre ++ new_date_block (_build_date_for_season today season) ++ LF :: rest).
Proof.
  intros Hpre Hlast.
  destruct (new_date_block_shape date) as (body & Hbody & ->).
  apply date_block_replaced; try done; try (by repeat constructor).
  by apply contains_closing_none.
Qed.

Lemma date_block_second_run_witness :
  contains DATE_LABEL (lit "mission = {") = false
  ∧ (∀ c, last (lit "mission = {") = Some c → isspace c = false)
  ∧ _update_date_block (2026, 11, 3)
      (lit "mission = {" ++ new_date_block (2025, 8, 1) ++ lit "}") (lit "winter")
    = Some (lit "mission = {"
            ++ new_date_block (_build_date_for_season (2026, 11, 3) (lit "winter"))
            ++ LF :: lit "}").
Proof.
  assert (H1 : contains DATE_LABEL (lit "mission = {") = false) by reflexivity.
  assert (H2 : ∀ c, last (lit "mission = {") = Some c → isspace c = false)
    by (intros c [= <-]; reflexivity).
  split; [exact H1|]. split; [exact H2|].
  exact (date_block_second_run (2026, 11, 3) (2025, 8, 1) (lit "winter")
           (lit "mission = {") (lit "}") H1 H2).
Defined.

(** ** The date block, then the weather block *)



(** ** The template chosen *)

(** X10: a template returned by [_pick_weather_template] is the text of
    one of the files of the directory the draw chose; a chosen directory
    that is missing or holds no template gives [None]; a chosen directory
    that holds templates, all readable, always gives one (the index drawn
    is in range). *)
Theorem pick_template_result (w : world) (bad_percentage : Z) :
  let dir := chosen_dir bad_percentage (randint 1 100 (entropy_roll w)) in
  (∀ template, _pick_weather_template w bad_percentage = Some template →
     ∃ candidates, weather_files w dir = Some candidates ∧ Some template ∈ candidates)
  ∧ (weather_files w dir = None → _pick_weather_template w bad_percentage = None)
  ∧ (weather_files w dir = Some [] → _pick_weather_template w bad_percentage = None)
  ∧ (∀ candidates, weather_files w dir = Some candidates → candidates ≠ [] →
       Forall is_Some candidates →
       is_Some (_pick_weather_template w bad_percentage)).
Proof.
  intros dir. unfold _pick_weather_template. fold dir. unfold read_template.
  split_and!.
  - intros template. destruct (weather_files w dir) as [[|c cs]|]; try done.
    intros H. exists (c :: cs). split; [done|].
    destruct ((c :: cs) !! _) as [[t|]|] eqn:Hl; simplify_eq/=.
    by eapply list_elem_of_lookup_2.
  - by intros ->.
  - by intros ->.
  - intros candidates -> Hne Hall.
    destruct candidates as [|c cs]; [done|].
    set (n := length (c :: cs)).
    assert (Hi : (Z.to_nat (entropy_choice w mod Z.of_nat n) < n)%nat).
    { pose proof (Z.mod_pos_bound (entropy_choice w) (Z.of_nat n)). subst n. simpl in *. lia. }
    apply lookup_lt_is_Some in Hi as [x Hx]. 
    change (is_Some (mjoin ((c :: cs) !! Z.to_nat (entropy_choice w mod Z.of_nat n)))).
    rewrite Hx.
    rewrite Forall_forall in Hall. apply list_elem_of_lookup_2 in Hx.
    by destruct (Hall x Hx) as [t ->].
Qed.

(** ** The normal form of a path *)

Ltac all_chars c := destruct c as [[] [] [] [] [] [] [] []]; reflexivity.

Lemma lower_char_idem c : lower_char (lower_char c) = lower_char c.
Proof. all_chars c. Qed.

Lemma isspace_lower_char c : isspace (lower_char c) = isspace c.
Proof. all_chars c. Qed.

Lemma slash_lower_char c : Ascii.eqb "/" (lower_char c) = Ascii.eqb "/" c.
Proof. all_chars c. Qed.

Lemma backslash_lower_char c : Ascii.eqb BACKSLASH (lower_char c) = Ascii.eqb BACKSLASH c.
Proof. all_chars c. Qed.

Lemma lower_idem (s : str) : lower (lower s) = lower s.
Proof.
  unfold lower. rewrite map_map. apply map_ext. intros c. apply lower_char_idem.
Qed.

Lemma lstrip_lower (s : str) : lstrip (lower s) = lower (lstrip s).
Proof.
  induction s as [|c s IH]; [done|]. simpl.
  rewrite isspace_lower_char. by destruct (isspace c).
Qed.

Lemma strip_lower (s : str) : strip (lower s) = lower (strip s).
Proof.
  unfold strip, rstrip, lower. rewrite lstrip_lower. unfold lower.
  rewrite <- map_rev, lstrip_lower. unfold lower. by rewrite map_rev.
Qed.

(** What [lstrip] leaves: the text after its leading whitespace. *)
Lemma lstrip_spec (s : str) :
  ∃ ws, spaces ws ∧ s = ws ++ lstrip s ∧ stops Re.Space (lstrip s).
Proof.
  induction s as [|c s (ws & Hws & Hs & Hstop)]; [by exists []|].
  simpl. destruct (isspace c) eqn:Hc.
  - exists (c :: ws). split_and!; [by constructor|simpl; congruence|done].
  - by exists [].
Qed.

Lemma lstrip_stops (s : str) : stops Re.Space s → lstrip s = s.
Proof. destruct s as [|c s]; [done|]. simpl. by intros ->. Qed.

(** A stripped text neither starts nor ends with whitespace. *)
Lemma strip_ends (s : str) :
  stops Re.Space (strip s) ∧ stops Re.Space (rev (strip s)).
Proof.
  unfold strip, rstrip.
  destruct (lstrip_spec s) as (ws1 & _ & _ & Hhead).
  destruct (lstrip_spec (rev (lstrip s))) as (ws2 & Hws2 & Heq & Hlast).
  rewrite rev_involutive. split; [|done].
  apply (f_equal (@rev _)) in Heq. rewrite rev_involutive, rev_app_distr in Heq.
  destruct (rev (lstrip (rev (lstrip s)))) as [|c r] eqn:Hr; [done|].
  rewrite Heq in Hhead. done.
Qed.

Lemma strip_idem (s : str) : strip (strip s) = strip s.
Proof.
  destruct (strip_ends s) as [Hhead Hlast].
  unfold strip at 1. rewrite lstrip_stops by done.
  unfold rstrip. rewrite lstrip_stops by done. apply rev_involutive.
Qed.

Lemma Forall_lstrip (P : ascii → Prop) (s : str) : Forall P s → Forall P (lstrip s).
Proof.
  intros H. destruct (lstrip_spec s) as (ws & _ & Heq & _).
  rewrite Heq in H. by apply Forall_app in H as [_ ?].
Qed.

Lemma Forall_strip (P : ascii → Prop) (s : str) : Forall P s → Forall P (strip s).
Proof.
  intros H. unfold strip, rstrip.
  apply Forall_rev, Forall_lstrip, Forall_rev. by apply Forall_lstrip.
Qed.

Lemma Forall_replace_from (P : ascii → Prop) (old new : str) k (s : str) :
  Forall P new → Forall P s → Forall P (replace_from old new k s).
Proof.
  intros Hnew Hs. revert k. induction Hs as [|c s Hc _ IH]; intros k; [done|].
  simpl. destruct k; [|done].
  destruct (starts_with old (c :: s)).
  - apply Forall_app. by split.
  - by constructor.
Qed.

(** Replacing one character by another, everywhere. *)
Lemma replace_char a b (s : str) :
  replace [a] [b] s = map (λ c, if Ascii.eqb a c then b else c) s.
Proof.
  unfold replace. induction s as [|c s IH]; [done|]. simpl.
  rewrite andb_true_r. destruct (Ascii.eqb a c); simpl; by rewrite IH.
Qed.

Lemma replace_char_idem a b (s : str) :
  a ≠ b → replace [a] [b] (replace [a] [b] s) = replace [a] [b] s.
Proof.
  intros Hab. rewrite !replace_char, map_map. apply map_ext. intros c.
  destruct (Ascii.eqb a c) eqn:Hc; [|by rewrite Hc].
  by rewrite (proj2 (Ascii.eqb_neq a b)).
Qed.

Lemma replace_char_gone a b (s : str) : a ≠ b → Forall (λ c, c ≠ a) (replace [a] [b] s).
Proof.
  intros Hab. rewrite replace_char. apply Forall_map, Forall_forall. intros c _.
  simpl. destruct (Ascii.eqb_spec a c); congruence.
Qed.

Lemma starts_with_lower (old s : str) :
  (∀ o c, o ∈ old → Ascii.eqb o (lower_char c) = Ascii.eqb o c) →
  starts_with old (lower s) = starts_with old s.
Proof.
  revert s. induction old as [|o old IH]; intros s H; [done|].
  destruct s as [|c s]; [done|]. simpl.
  rewrite H by left. f_equal. apply IH. intros. apply H. by right.
Qed.

Lemma replace_from_lower (old new : str) k (s : str) :
  (∀ o c, o ∈ old → Ascii.eqb o (lower_char c) = Ascii.eqb o c) →
  lower new = new →
  replace_from old new k (lower s) = lower (replace_from old new k s).
Proof.
  intros Hold Hnew. revert k. induction s as [|c s IH]; intros k; [done|].
  simpl. destruct k; [|apply IH].
  change (lower_char c :: lower s) with (lower (c :: s)).
  rewrite starts_with_lower by done.
  destruct (starts_with old (c :: s)).
  - unfold lower at 2. rewrite map_app. fold (lower new). rewrite Hnew.
    f_equal. apply IH.
  - simpl. f_equal. apply IH.
Qed.

Lemma normalize_lower_inside (p : str) :
  lower (replace (lit "//") (lit "/") (replace [BACKSLASH] (lit "/") p))
  = replace (lit "//") (lit "/") (replace [BACKSLASH] (lit "/") (lower p)).
Proof.
  unfold replace.
  rewrite (replace_from_lower [BACKSLASH] (lit "/")); [|
    intros o c [-> | Ho]%elem_of_cons; [apply backslash_lower_char|not_in Ho] | done].
  rewrite (replace_from_lower (lit "//") (lit "/")); [done| |done].
  intros o c Ho. repeat (apply elem_of_cons in Ho as [-> | Ho]; [apply slash_lower_char|]).
  not_in Ho.
Qed.

(** X11: the result of [_normalize_path] holds no backslash, is in lower
    case and carries no whitespace at either end: lowering it or
    stripping it again changes nothing. *)
Theorem normalize_path_normal_form (p : str) :
  Forall (λ c, c ≠ BACKSLASH) (_normalize_path p)
  ∧ lower (_normalize_path p) = _normalize_path p
  ∧ strip (_normalize_path p) = _normalize_path p
  ∧ stops Re.Space (_normalize_path p)
  ∧ stops Re.Space (rev (_normalize_path p)).
Proof.
  unfold _normalize_path. split_and!.
  - apply Forall_strip. unfold lower. apply Forall_map.
    eapply Forall_impl;
      [apply (Forall_replace_from (λ c, c ≠ BACKSLASH)); [by repeat constructor|];
       by apply (replace_char_gone BACKSLASH "/")|].
    intros c Hc Hl. simpl in Hl. apply Hc.
    pose proof (backslash_lower_char c) as He. rewrite Hl, Ascii.eqb_refl in He.
    symmetry. by apply Ascii.eqb_eq.
  - by rewrite <- strip_lower, lower_idem.
  - apply strip_idem.
  - apply strip_ends.
  - apply strip_ends.
Qed.

(** X12: [_normalize_path] gives the same result for a path, for its
    lower-case spelling and for its spelling with slashes in place of
    backslashes, so [extract_time_and_mission] answers the same for these
    spellings of the expected path. *)
Theorem normalize_path_insensitive (p : str) :
  _normalize_path (lower p) = _normalize_path p
  ∧ _normalize_path (replace [BACKSLASH] (lit "/") p) = _normalize_path p
  ∧ ∀ b, extract_time_and_mission b (lower p) = extract_time_and_mission b p
       ∧ extract_time_and_mission b (replace [BACKSLASH] (lit "/") p)
         = extract_time_and_mission b p.
Proof.
  assert (H1 : _normalize_path (lower p) = _normalize_path p).
  { unfold _normalize_path. by rewrite <- normalize_lower_inside, lower_idem. }
  assert (H2 : _normalize_path (replace [BACKSLASH] (lit "/") p) = _normalize_path p).
  { unfold _normalize_path. by rewrite (replace_char_idem BACKSLASH "/"). }
  split_and!; try done. intros b. unfold extract_time_and_mission.
  by rewrite H1, H2.
Qed.

(** ** The order of the actions *)

Ltac order_leaf_with tac :=
  tac; unfold actions; simpl trace; rewrite ?filter_app;
  first [ by apply prefix_nil
        | by apply prefix_app_r
        | apply prefix_app; simpl; by eexists ].

Ltac order_leaf :=
  first [ order_leaf_with ltac:(exists [])
        | order_leaf_with ltac:(eexists) ].

(** X13: in every run of either workflow, complete or not, what is done
    to the server, the archive and the extracted descriptor is an initial part
    of the fixed sequence: the stop, the extraction, the read, the write,
    the repack, the start. *)
Theorem workflows_fixed_order (w : world) (miz_path : str) (d : Z) :
  (∃ new_text,
     actions (trace (update_miz_start_time w miz_path d))
     `prefix_of` pipeline_actions TimeUpdate w new_text)
  ∧ (∃ new_text,
       actions (trace (rotate_weather_in_miz w))
       `prefix_of` pipeline_actions WeatherRotation w new_text).
Proof.
  split.
  - unfold update_miz_start_time, pipeline_actions.
    destruct (path_exists w miz_path); simpl; [|order_leaf].
    rewrite run_bind_eq.
    destruct (_kill_dcs_server_if_running TimeUpdate w) as [[] tk]; simpl;
      [|rewrite app_nil_r; order_leaf].
    rewrite run_bind_eq.
    destruct (run_7zip_cases w Extract) as [[_ ->] | [(_ & _ & ->) | (_ & _ & ->)]];
      simpl; [order_leaf..|].
    destruct (mission_extracted w); simpl; [|order_leaf].
    destruct (mission_text w) as [text|]; simpl; [|order_leaf].
    destruct (start_time_update text d) as [f|new_text] eqn:Hupd; simpl; [order_leaf|].
    destruct (write_raises w); simpl; [order_leaf|].
    rewrite run_bind_eq.
    destruct (run_7zip_cases w Update) as [[_ ->] | [(_ & _ & ->) | (_ & _ & ->)]];
      simpl; [order_leaf..|].
    rewrite run_bind_eq. unfold _start_dcs_server.
    destruct (popen_raises w); simpl; order_leaf.
  - unfold rotate_weather_in_miz, pipeline_actions.
    destruct (config_file w) as [| | |cfg]; simpl; try order_leaf.
    destruct (weather_rotation_enabled cfg); simpl; [|order_leaf].
    case_decide; simpl; [order_leaf|].
    destruct (weather_bad_weather_percentage cfg) as [bad_pct|]; simpl; [|order_leaf].
    destruct (path_exists w (mission_path cfg)); simpl; [|order_leaf].
    rewrite run_bind_eq.
    destruct (_kill_dcs_server_if_running WeatherRotation w) as [[] tk]; simpl;
      [|rewrite app_nil_r; order_leaf].
    rewrite run_bind_eq.
    destruct (run_7zip_cases w Extract) as [[_ ->] | [(_ & _ & ->) | (_ & _ & ->)]];
      simpl; [order_leaf..|].
    destruct (mission_extracted w); simpl; [|order_leaf].
    destruct (mission_text w) as [text|]; simpl; [|order_leaf].
    destruct (_update_date_block (today w) text (weather_season cfg)) as [dated|];
      simpl; [|order_leaf].
    destruct (_pick_weather_template w bad_pct) as [template|]; simpl; [|order_leaf].
    destruct (_replace_weather_block w dated template) as [[]|[new_text|]];
      simpl; [order_leaf| |order_leaf].
    destruct (write_raises w); simpl; [order_leaf|].
    rewrite run_bind_eq.
    destruct (run_7zip_cases w Update) as [[_ ->] | [(_ & _ & ->) | (_ & _ & ->)]];
      simpl; [order_leaf..|].
    rewrite run_bind_eq. unfold _start_dcs_server.
    destruct (popen_raises w); simpl; order_leaf.
Qed.

(** ** The orchestrator *)

(** A time update that returns [True] went through every step. *)
Lemma update_true_inv (w : world) (miz_path : str) (d : Z) :
  result (update_miz_start_time w miz_path d) = Returns true →
  ∃ text new_text,
    mission_text w = Some text
    ∧ start_time_update text d = inr new_text
    ∧ trace (update_miz_start_time w miz_path d)
      = trace (_kill_dcs_server_if_running TimeUpdate w)
        ++ [Run7zip Extract; ReadText; WriteText new_text; Run7zip Update;
            Spawn; NotifyInfo (ServerRestarted TimeUpdate)].
Proof.
  unfold update_miz_start_time.
  destruct (path_exists w miz_path); simpl; [|done].
  rewrite run_bind_eq.
  destruct (_kill_dcs_server_if_running TimeUpdate w) as [[] tk]; simpl; [|done].
  rewrite run_bind_eq.
  destruct (run_7zip_cases w Extract) as [[_ ->] | [(_ & _ & ->) | (_ & _ & ->)]];
    simpl; [done..|].
  destruct (mission_extracted w); simpl; [|done].
  destruct (mission_text w) as [text|]; simpl; [|done].
  destruct (start_time_update text d) as [f|new_text] eqn:Hupd; simpl; [done|].
  destruct (write_raises w); simpl; [done|].
  rewrite run_bind_eq.
  destruct (run_7zip_cases w Update) as [[_ ->] | [(_ & _ & ->) | (_ & _ & ->)]];
    simpl; [done..|].
  rewrite run_bind_eq. unfold _start_dcs_server.
  destruct (popen_raises w); simpl; [done|]. intros _.
  by exists text, new_text.
Qed.

Lemma workflow_not_error (t : list event) (r : main_failure) :
  MainError r ∉ Workflow <$> t.
Proof. intros (e & ? & _)%list_elem_of_fmap. done. Qed.

(** The time extractor returns a time text and seconds whenever it
    reports a match. *)
Lemma extract_matched (b : browser) (expected : str) hms seconds :
  extract_time_and_mission b expected = (true, hms, seconds) →
  ∃ shown, mission_time_text b = Some shown
    ∧ hms = Some (strip shown)
    ∧ seconds = Some (_convert_hms_to_seconds (strip shown)).
Proof.
  unfold extract_time_and_mission.
  repeat (case_match; simpl; try done).
  intros [= <- <-]. by eexists.
Qed.

Lemma quiet_nil : quiet [].
Proof. intros r. apply not_elem_of_nil. Qed.

Lemma quiet_app t1 t2 : quiet t1 → quiet t2 → quiet (t1 ++ t2).
Proof. intros H1 H2 r [?|?]%elem_of_app; [by eapply H1 | by eapply H2]. Qed.

Lemma quiet_workflow (t : list event) : quiet (Workflow <$> t).
Proof. intros r. apply workflow_not_error. Qed.

Lemma ends_well_ret {A} (a : A) : ends_well (mret a : script A).
Proof. apply quiet_nil. Qed.

Lemma ends_well_fail {A} (reason : main_failure) : ends_well (fail reason : script A).
Proof. left. split; [done|]. exists [], reason. split; [done|apply quiet_nil]. Qed.

Lemma ends_well_exit_0 {A} : ends_well (sys_exit 0 : script A).
Proof. right. split; [done|apply quiet_nil]. Qed.

Lemma ends_well_uncaught {A} : ends_well (uncaught : script A).
Proof. apply quiet_nil. Qed.

Lemma ends_well_call {A} (r : run A) : ends_well (call r).
Proof. apply quiet_workflow. Qed.

Lemma ends_well_bind {A B} (m : script A) (k : A → script B) :
  ends_well m → (∀ a, ends_well (k a)) → ends_well (m ≫= k).
Proof.
  destruct m as [[e|a] t1]; [done|]. intros Hm Hk. specialize (Hk a).
  unfold ends_well in *. simpl in *. destruct (k a) as [[[code|]|b] t2]; simpl in *.
  - destruct Hk as [(-> & pre & r & -> & Hpre) | [-> Hq]].
    + left. split; [done|]. exists (t1 ++ pre), r. split; [by rewrite app_assoc|].
      by apply quiet_app.
    + right. split; [done|]. by apply quiet_app.
  - by apply quiet_app.
  - by apply quiet_app.
Qed.

Lemma ends_well_save_result mw hms seconds : ends_well (save_result mw hms seconds).
Proof.
  unfold save_result. apply ends_well_bind.
  - intros r [?|?%elem_of_nil]%elem_of_cons; done.
  - intros _. destruct (save_raises mw); [apply ends_well_fail|apply ends_well_ret].
Qed.

Lemma main_ends_well (mw : main_world) : ends_well (main mw).
Proof.
  unfold main, load_config.
  repeat first
    [ apply ends_well_fail | apply ends_well_ret | apply ends_well_exit_0
    | apply ends_well_uncaught | apply ends_well_call | apply ends_well_save_result
    | apply ends_well_bind; [|intros ?]
    | case_match ].
Qed.

(** X14: [main] is left by [SystemExit(1)] exactly when it has reported
    a failure through [fail]; such a report is the last thing a run does
    and a run makes at most one; the only exit codes are 0 and 1.  A run
    may also be left by an uncaught exception, without any report: so it
    is when the configuration is not a JSON object, and when the time
    update raises (the result file is then written, and what the update
    did stays done). *)
Theorem main_error_is_final (mw : main_world) :
  (exit_status (main mw) = Exit 1 ↔ ∃ reason, MainError reason ∈ log (main mw))
  ∧ (∀ reason, MainError reason ∈ log (main mw) →
       ∃ pre, log (main mw) = pre ++ [MainError reason] ∧ ∀ r, MainError r ∉ pre)
  ∧ (∀ code, exit_status (main mw) = Exit code → code = 0 ∨ code = 1)
  ∧ (main_config_file mw = Some NotAnObject → main mw = (inl Uncaught, []))
  ∧ (∀ cfg hms seconds,
       main_config_file mw = Some (Object cfg) →
       cfg_mission_path cfg ≠ [] →
       cfg_hour_persistence_enabled cfg = true →
       extract_time_and_mission (dashboard mw) (cfg_mission_path cfg)
       = (true, Some hms, Some seconds) →
       save_raises mw = false →
       result (update_miz_start_time (during_time_update mw)
                 (cfg_mission_path cfg) seconds) = Raises →
       main mw
       = (inl Uncaught,
          SaveResult hms seconds
          :: (Workflow <$> trace (update_miz_start_time (during_time_update mw)
                                    (cfg_mission_path cfg) seconds)))).
Proof.
  pose proof (main_ends_well mw) as Hw.
  assert (Hfinal : ∀ pre r reason, quiet pre → MainError reason ∈ pre ++ [MainError r] →
            reason = r).
  { intros pre r reason Hq [Hin | Hin]%elem_of_app; [by apply Hq in Hin|].
    apply list_elem_of_singleton in Hin. congruence. }
  split_and!.
  - unfold ends_well, exit_status, log, quiet in *.
    destruct (main mw) as [[[code|]|[]] t]; simpl in *.
    + destruct Hw as [(-> & pre & r & -> & Hpre) | [-> Hq]].
      * split; [|done]. intros _. exists r. apply elem_of_app. right. left.
      * split; [done|]. intros [r Hr]. by apply Hq in Hr.
    + split; [done|]. intros [r Hr]. by apply Hw in Hr.
    + split; [done|]. intros [r Hr]. by apply Hw in Hr.
  - intros reason Hin. unfold ends_well, log, quiet in *.
    destruct (main mw) as [[[code|]|[]] t]; simpl in *;
      [|by apply Hw in Hin|by apply Hw in Hin].
    destruct Hw as [(-> & pre & r & -> & Hpre) | [-> Hq]]; [|by apply Hq in Hin].
    rewrite (Hfinal pre r reason Hpre Hin). by exists pre.
  - intros code Hc. unfold ends_well, exit_status in *.
    destruct (main mw) as [[[code'|]|[]] t]; simpl in *; simplify_eq; [|by left].
    destruct Hw as [[-> _] | [-> _]]; auto.
  - intros Hcfg. unfold main, load_config. by rewrite Hcfg.
  - intros cfg hms seconds Hcfg Hpath Hhour Hex Hsave Hraise.
    unfold main, load_config, save_result, call. rewrite Hcfg. simpl.
    rewrite decide_False by done. rewrite Hhour, Hex. simpl.
    rewrite Hsave, Hraise. simpl. by rewrite app_nil_r.
Qed.

(** The extractor reports no match when the dashboard shows another
    mission than the expected one. *)
Lemma extract_mismatch (b : browser) (expected shown : str) :
  mission_filename_text b = Some shown →
  _normalize_path (strip shown) ≠ _normalize_path expected →
  extract_time_and_mission b expected = (false, None, None).
Proof.
  intros Hshown Hne. unfold extract_time_and_mission. rewrite Hshown.
  repeat (case_match; simpl; try done).
Qed.

(** X15: with hour persistence enabled, when the dashboard shows a
    mission whose normalized path differs from the configured one, [main]
    reports the failed extraction and exits with status 1 without anything
    else: no result file, no stop of the server, no archive access, and
    no weather rotation even when it is enabled. *)
Theorem main_mission_mismatch (mw : main_world) (cfg : main_config) (shown : str) :
  main_config_file mw = Some (Object cfg) →
  cfg_mission_path cfg ≠ [] →
  cfg_hour_persistence_enabled cfg = true →
  mission_filename_text (dashboard mw) = Some shown →
  _normalize_path (strip shown) ≠ _normalize_path (cfg_mission_path cfg) →
  main mw = (inl (Exit 1), [MainError TimeExtractionFailed]).
Proof.
  intros Hcfg Hpath Hhour Hshown Hne.
  unfold main, load_config. rewrite Hcfg. simpl.
  rewrite decide_False by done. rewrite Hhour. simpl.
  by rewrite (extract_mismatch _ _ shown Hshown Hne).
Qed.

Lemma main_mission_mismatch_witness :
  main_config_file (a_main_world another_mission) = Some (Object both_enabled)
  ∧ cfg_mission_path both_enabled ≠ []
  ∧ cfg_hour_persistence_enabled both_enabled = true
  ∧ mission_filename_text (dashboard (a_main_world another_mission))
    = Some (lit "C:\Missions\Training.miz")
  ∧ _normalize_path (strip (lit "C:\Missions\Training.miz"))
    ≠ _normalize_path (cfg_mission_path both_enabled)
  ∧ main (a_main_world another_mission)
    = (inl (Exit 1), [MainError TimeExtractionFailed]).
Proof.
  assert (H1 : main_config_file (a_main_world another_mission) = Some (Object both_enabled))
    by reflexivity.
  assert (H2 : cfg_mission_path both_enabled ≠ []) by (intros [=]).
  assert (H3 : cfg_hour_persistence_enabled both_enabled = true) by reflexivity.
  assert (H4 : mission_filename_text (dashboard (a_main_world another_mission))
               = Some (lit "C:\Missions\Training.miz")) by reflexivity.
  assert (H5 : _normalize_path (strip (lit "C:\Missions\Training.miz"))
               ≠ _normalize_path (cfg_mission_path both_enabled))
    by (intros H; vm_compute in H; congruence).
  split_and!; [exact H1|exact H2|exact H3|exact H4|exact H5|].
  exact (main_mission_mismatch (a_main_world another_mission) both_enabled _ H1 H2 H3 H4 H5).
Defined.

(** X16: no run of [main] reports that the extractor returned no mission
    time: when the extractor reports a match it always returns the time
    text and the seconds, so that test of [main] never fails. *)
Theorem main_time_always_returned (mw : main_world) :
  Forall (λ e, e ≠ MainError TimeNotReturned) (log (main mw)).
Proof.
  apply Forall_forall. intros e He ->. revert He.
  change (MainError TimeNotReturned ∉ log (main mw)).
  unfold main, load_config, save_result, log, call, fail, sys_exit, uncaught.
  destruct (main_config_file mw) as [[| |cfg]|]; simpl;
    [intros Hin; not_in Hin..| |intros Hin; not_in Hin].
  destruct (decide (cfg_mission_path cfg = [])); simpl; [intros Hin; not_in Hin|].
  assert (Hw : ∀ t, MainError TimeNotReturned ∉ Workflow <$> t)
    by (intros t; apply workflow_not_error).
  destruct (rotate_weather_in_miz _) as [[[]|] tr] eqn:Hr;
  destruct (cfg_hour_persistence_enabled cfg), (cfg_weather_rotation_enabled cfg); simpl;
    try (destruct (extract_time_and_mission _ _) as [[[] hms] seconds] eqn:Hex; simpl;
         [apply extract_matched in Hex as (shown & _ & -> & ->)|]);
    try destruct (save_raises mw); simpl;
    try (destruct (update_miz_start_time _ _ _) as [[[]|] tu] eqn:Hu; simpl);
    rewrite ?app_nil_r, ?not_elem_of_cons, ?not_elem_of_app, ?not_elem_of_cons;
    repeat split; try done; try apply Hw; try apply not_elem_of_nil.
Qed.

(** X17: when [main] is left by [SystemExit(0)], the configuration was
    loaded with a mission path and every enabled workflow returned
    [True]; with hour persistence enabled the time shown on the dashboard
    was saved and its seconds were given to the time update, which ran
    through the stop, the extraction, the read, the write, the repack
    and the start, and the descriptor it wrote reads back as
    (current + seconds) mod 86400. *)
Theorem main_exit_zero (mw : main_world) :
  exit_status (main mw) = Exit 0 →
  ∃ cfg, main_config_file mw = Some (Object cfg)
    ∧ cfg_mission_path cfg ≠ []
    ∧ (cfg_hour_persistence_enabled cfg = true → time_persisted mw cfg)
    ∧ (cfg_weather_rotation_enabled cfg = true →
       result (rotate_weather_in_miz (during_weather_rotation mw)) = Returns true).
Proof.
  unfold time_persisted, main, load_config, save_result, exit_status, log, call, fail,
    sys_exit, uncaught.
  destruct (main_config_file mw) as [[| |cfg]|]; simpl; [done..| |done].
  destruct (decide (cfg_mission_path cfg = [])); simpl; [done|].
  intros Hexit. exists cfg. split; [done|]. split; [done|]. revert Hexit.
  destruct (cfg_hour_persistence_enabled cfg); simpl; last first.
  { destruct (rotate_weather_in_miz _) as [[[]|] tr] eqn:Hr;
      destruct (cfg_weather_rotation_enabled cfg); simpl; done. }
  destruct (extract_time_and_mission _ _) as [[[] hms] seconds] eqn:Hex; simpl;
    [apply extract_matched in Hex as (shown & Hshown & -> & ->)|done].
  destruct (save_raises mw); simpl; [by destruct (cfg_weather_rotation_enabled cfg)|].
  pose proof (update_true_inv (during_time_update mw) (cfg_mission_path cfg)
                (_convert_hms_to_seconds (strip shown))) as Hinv.
  destruct (update_miz_start_time _ _ _) as [[[]|] tu] eqn:Hu; simpl;
    [|by destruct (cfg_weather_rotation_enabled cfg)..].
  destruct (Hinv eq_refl) as (text & new_text & Htext & Hupd & Htrace).
  pose proof Hupd as (cur & _ & _ & _ & Hcur & _ & _ & _ & _ & Hnew)%update_reads_back.
  simpl in Htrace.
  destruct (cfg_weather_rotation_enabled cfg);
    [destruct (rotate_weather_in_miz _) as [[[]|] tr]|]; simpl; try done; intros _.
  all: split; [|done]; intros _.
  all: exists shown, text, cur, new_text; simpl; rewrite Hu; simpl.
  all: split_and!; try done.
  all: eexists; by rewrite <- app_assoc.
Qed.

Lemma main_exit_zero_witness :
  exit_status (main (a_main_world (a_browser (lit "01:00:00")))) = Exit 0
  ∧ ∃ cfg, main_config_file (a_main_world (a_browser (lit "01:00:00"))) = Some (Object cfg)
      ∧ cfg_mission_path cfg ≠ []
      ∧ (cfg_hour_persistence_enabled cfg = true →
         time_persisted (a_main_world (a_browser (lit "01:00:00"))) cfg)
      ∧ (cfg_weather_rotation_enabled cfg = true →
         result (rotate_weather_in_miz
                   (during_weather_rotation (a_main_world (a_browser (lit "01:00:00")))))
         = Returns true).
Proof.
  assert (H : exit_status (main (a_main_world (a_browser (lit "01:00:00")))) = Exit 0)
    by (vm_compute; reflexivity).
  split; [exact H|].
  exact (main_exit_zero (a_main_world (a_browser (lit "01:00:00"))) H).
Defined.
